(** * sovabids: the rule resolution and mapping engine

    A shallow embedding of [sovabids/rules.py] (path analysis, deep merge of
    rule documents, the per-file pipeline [apply_rules_to_single_file] and the
    batch driver [apply_rules]) together with the properties stated about it.

    Python dictionaries are association lists in insertion order, exceptions
    are an explicit error type, and the file system, the standard output and
    the recording handle are threaded through a small state-and-error monad in
    which the state survives a raised exception, as it does in Python. *)

From Stdlib Require Import String Ascii List ZArith Bool Lia DecimalString.
From stdpp Require Import gmap strings list fin_maps.

Set Warnings "-register-all".

Local Open Scope string_scope.
Local Open Scope list_scope.

(** ** Rule documents *)

Module Doc.

(** A YAML/JSON value as the rule files hold them. *)
Inductive value : Type :=
| VNone
| VBool (b : bool)
| VInt (z : Z)
| VStr (s : string)
| VList (l : list value)
| VDict (kvs : list (string * value)).

(** A Python [dict] with string keys, in insertion order. *)
Abbreviation dict := (list (string * value)).

Definition is_dict (v : value) : bool :=
  match v with VDict _ => true | _ => false end.

(** [d.get(k)]: the binding of [k], if any. *)
Fixpoint dict_get (k : string) (d : dict) : option value :=
  match d with
  | [] => None
  | (k', v) :: rest => if String.eqb k k' then Some v else dict_get k rest
  end.

(** [k in d]. *)
Definition dict_has (k : string) (d : dict) : bool :=
  match dict_get k d with Some _ => true | None => false end.

(** [d[k] = v]: an existing key keeps its position, a new one goes last. *)
Fixpoint dict_set (k : string) (v : value) (d : dict) : dict :=
  match d with
  | [] => [(k, v)]
  | (k', v') :: rest =>
      if String.eqb k k' then (k', v) :: rest else (k', v') :: dict_set k v rest
  end.

(** [del d[k]] (guarded by [k in d] at every call site). *)
Fixpoint dict_del (k : string) (d : dict) : dict :=
  match d with
  | [] => []
  | (k', v') :: rest =>
      if String.eqb k k' then dict_del k rest else (k', v') :: dict_del k rest
  end.

(** [d.get(k, {})]. *)
Definition dict_get_default (k : string) (d : dict) : value :=
  match dict_get k d with Some v => v | None => VDict [] end.

Definition keys (d : dict) : list string := map fst d.

(** The value found by following a list of keys through nested mappings. *)
Fixpoint lookup_path (p : list string) (v : value) : option value :=
  match p with
  | [] => Some v
  | k :: rest =>
      match v with
      | VDict d =>
          match dict_get k d with
          | Some v' => lookup_path rest v'
          | None => None
          end
      | _ => None
      end
  end.

(** Following [p] through [v] runs into a mapping that lacks the next key:
    [v] has nothing at [p] nor at (or above) any position that would shadow
    [p]. *)
Fixpoint absent_in (p : list string) (v : value) : bool :=
  match p with
  | [] => false
  | k :: rest =>
      match v with
      | VDict d =>
          match dict_get k d with
          | Some v' => absent_in rest v'
          | None => true
          end
      | _ => false
      end
  end.

(** Python dictionaries have no repeated key, at any depth. *)
Inductive wf_value : value -> Prop :=
| wf_none : wf_value VNone
| wf_bool b : wf_value (VBool b)
| wf_int z : wf_value (VInt z)
| wf_str s : wf_value (VStr s)
| wf_list l : Forall wf_value l -> wf_value (VList l)
| wf_dict d : NoDup (keys d) -> Forall (fun kv => wf_value (snd kv)) d ->
              wf_value (VDict d).

Fixpoint no_repeat (l : list string) : bool :=
  match l with
  | [] => true
  | k :: rest => negb (existsb (String.eqb k) rest) && no_repeat rest
  end.

(** [wf_value] as a test. *)
Fixpoint wf_valueb (v : value) : bool :=
  match v with
  | VList l =>
      (fix all (l : list value) : bool :=
         match l with
         | [] => true
         | x :: rest => wf_valueb x && all rest
         end) l
  | VDict d =>
      no_repeat (keys d)
      && (fix all (d : list (string * value)) : bool :=
            match d with
            | [] => true
            | (_, x) :: rest => wf_valueb x && all rest
            end) d
  | _ => true
  end.

(** Modelled from the spec: [sovabids.dicts.deep_merge_N] is not among the
    sources. Section 4.2: the documents are merged left to right; for each
    key of the later document, when both sides hold mappings they are merged
    recursively, otherwise the later value replaces the earlier one; the
    empty list gives the empty document; the inputs are not mutated. *)
Fixpoint deep_merge (a b : value) {struct b} : value :=
  match b with
  | VDict kb =>
      match a with
      | VDict ka =>
          VDict
            ((fix over (kb : dict) (acc : dict) {struct kb} : dict :=
                match kb with
                | [] => acc
                | (k, vb) :: rest =>
                    over rest
                      (dict_set k
                         (match dict_get k acc with
                          | Some va => deep_merge va vb
                          | None => vb
                          end) acc)
                end) kb ka)
      | _ => b
      end
  | _ => b
  end.

(** One pass of [deep_merge] over the entries of the later mapping. *)
Fixpoint merge_into (kb : dict) (acc : dict) : dict :=
  match kb with
  | [] => acc
  | (k, vb) :: rest =>
      merge_into rest
        (dict_set k
           (match dict_get k acc with
            | Some va => deep_merge va vb
            | None => vb
            end) acc)
  end.

(** The value merged under a key. *)
Definition merged_entry (va : option value) (vb : value) : value :=
  match va with
  | Some va => deep_merge va vb
  | None => vb
  end.

Definition deep_merge_dict (a b : dict) : dict := merge_into b a.

Definition deep_merge_N (l : list dict) : dict :=
  fold_left deep_merge_dict l [].

End Doc.

(** ** Regular expressions: the fragment of Python's [re] used by path analysis *)

Module Regex.

(** Patterns after parsing. [RGroup i r] is the capturing group number [i]
    (from 0, in the order of the opening parentheses); [r+] is kept as
    [RSeq r (RStar _ r)] and [r?] as an alternative with [REmpty]. *)
Inductive regex : Type :=
| REmpty
| RChar (c : ascii)
| RAny
| RSeq (r1 r2 : regex)
| RAlt (r1 r2 : regex)
| RGroup (i : nat) (r : regex)
| RStar (greedy : bool) (r : regex).

(** What the groups hold; [None] for a group that took no part in the match. *)
Abbreviation captures := (list (option (list ascii))).

Definition newline : ascii := Ascii.ascii_of_nat 10.

Fixpoint set_nth {A} (i : nat) (x : A) (l : list A) : list A :=
  match l, i with
  | [], _ => []
  | _ :: t, O => x :: t
  | h :: t, S j => h :: set_nth j x t
  end.

(** Backtracking matcher in continuation style, with the priorities of
    Python's engine: the left alternative first, a greedy repetition tries
    one more round before stopping, a lazy one stops before trying one more
    round. A round of a repetition has to consume input. *)
Fixpoint run {R} (r : regex) (s : list ascii) (caps : captures)
    (k : list ascii -> captures -> option R) {struct r} : option R :=
  match r with
  | REmpty => k s caps
  | RChar c =>
      match s with
      | c' :: s' => if Ascii.eqb c c' then k s' caps else None
      | [] => None
      end
  | RAny =>
      match s with
      | c' :: s' => if Ascii.eqb c' newline then None else k s' caps
      | [] => None
      end
  | RSeq r1 r2 => run r1 s caps (fun s' caps' => run r2 s' caps' k)
  | RAlt r1 r2 =>
      match run r1 s caps k with
      | Some x => Some x
      | None => run r2 s caps k
      end
  | RGroup i r1 =>
      run r1 s caps
        (fun s' caps' =>
           k s' (set_nth i (Some (firstn (length s - length s') s)) caps'))
  | RStar greedy r1 =>
      (fix rounds (n : nat) (s : list ascii) (caps : captures) {struct n}
         : option R :=
         match n with
         | O => k s caps
         | S n' =>
             let again (_ : unit) :=
               run r1 s caps
                 (fun s' caps' =>
                    if (length s' <? length s)%nat then rounds n' s' caps'
                    else None) in
             if greedy then
               match again tt with Some x => Some x | None => k s caps end
             else
               match k s caps with Some x => Some x | None => again tt end
         end) (length s) s caps
  end.

(** [re.match]: the pattern against a prefix of [s]; the unmatched rest of
    [s] and the groups. *)
Definition match_at (ngroups : nat) (r : regex) (s : list ascii)
  : option (list ascii * captures) :=
  run r s (repeat None ngroups) (fun s' caps => Some (s', caps)).

(** [re.search]: the first position, from the left, at which the pattern
    matches; that position, the unmatched rest and the groups. *)
Fixpoint search_from (ngroups : nat) (r : regex) (pos : nat) (s : list ascii)
  : option (nat * list ascii * captures) :=
  match match_at ngroups r s with
  | Some (rest, caps) => Some (pos, rest, caps)
  | None =>
      match s with
      | [] => None
      | _ :: s' => search_from ngroups r (S pos) s'
      end
  end.

Definition search (ngroups : nat) (r : regex) (s : list ascii) :=
  search_from ngroups r 0 s.

(** A pattern that can match the empty string. *)
Fixpoint nullable (r : regex) : bool :=
  match r with
  | REmpty => true
  | RChar _ | RAny => false
  | RSeq r1 r2 => nullable r1 && nullable r2
  | RAlt r1 r2 => nullable r1 || nullable r2
  | RGroup _ r1 => nullable r1
  | RStar _ _ => true
  end.

Definition is_alnum (c : ascii) : bool :=
  let n := nat_of_ascii c in
  ((48 <=? n) && (n <=? 57) || (65 <=? n) && (n <=? 90)
   || (97 <=? n) && (n <=? 122))%nat.

(** Characters that stand for themselves outside an escape. The anchors,
    character classes and counted repetitions are outside the fragment. *)
Definition is_plain (c : ascii) : bool :=
  negb (existsb (Ascii.eqb c)
          ["."; "^"; "$"; "*"; "+"; "?"; "{"; "["; "\"; "|"; "("; ")"]%char).

(** A quantifier after an atom: [*], [+], [?] and their lazy forms. Python
    refuses to repeat nothing; a repeated body that can match the empty
    string is outside the fragment. *)
Definition quantified (r : regex) (s : list ascii)
  : option (regex * list ascii) :=
  let star g rest :=
    if nullable r then None else Some (RStar g r, rest) in
  let plus g rest :=
    if nullable r then None else Some (RSeq r (RStar g r), rest) in
  match s with
  | "*"%char :: "?"%char :: rest => star false rest
  | "*"%char :: rest => star true rest
  | "+"%char :: "?"%char :: rest => plus false rest
  | "+"%char :: rest => plus true rest
  | "?"%char :: "?"%char :: rest => Some (RAlt REmpty r, rest)
  | "?"%char :: rest => Some (RAlt r REmpty, rest)
  | _ => Some (r, s)
  end.

(** Recursive-descent parser; the third component is the number of the next
    capturing group. [fuel] bounds the depth of the descent. *)
Fixpoint parse_alt (fuel : nat) (s : list ascii) (n : nat) {struct fuel}
  : option (regex * list ascii * nat) :=
  match fuel with
  | O => None
  | S fuel' =>
      match parse_seq fuel' s n with
      | Some (r1, "|"%char :: s1, n1) =>
          match parse_alt fuel' s1 n1 with
          | Some (r2, s2, n2) => Some (RAlt r1 r2, s2, n2)
          | None => None
          end
      | other => other
      end
  end
with parse_seq (fuel : nat) (s : list ascii) (n : nat) {struct fuel}
  : option (regex * list ascii * nat) :=
  match fuel with
  | O => None
  | S fuel' =>
      match s with
      | [] => Some (REmpty, s, n)
      | ")"%char :: _ => Some (REmpty, s, n)
      | "|"%char :: _ => Some (REmpty, s, n)
      | _ =>
          match parse_atom fuel' s n with
          | Some (r1, s1, n1) =>
              match quantified r1 s1 with
              | Some (r1', s1') =>
                  match parse_seq fuel' s1' n1 with
                  | Some (r2, s2, n2) => Some (RSeq r1' r2, s2, n2)
                  | None => None
                  end
              | None => None
              end
          | None => None
          end
      end
  end
with parse_atom (fuel : nat) (s : list ascii) (n : nat) {struct fuel}
  : option (regex * list ascii * nat) :=
  match fuel with
  | O => None
  | S fuel' =>
      match s with
      | "("%char :: "?"%char :: _ => None
      | "("%char :: s1 =>
          match parse_alt fuel' s1 (S n) with
          | Some (r, ")"%char :: s2, n') => Some (RGroup n r, s2, n')
          | _ => None
          end
      | "."%char :: s1 => Some (RAny, s1, n)
      | "\"%char :: c :: s1 =>
          if is_alnum c then None else Some (RChar c, s1, n)
      | c :: s1 => if is_plain c then Some (RChar c, s1, n) else None
      | [] => None
      end
  end.

(** [re.compile(pattern)] with its [.groups]; [None] for a pattern Python
    rejects or one outside the fragment. *)
Definition compile (pattern : string) : option (regex * nat) :=
  let s := list_ascii_of_string pattern in
  match parse_alt (3 * length s + 3) s 0 with
  | Some (r, [], n) => Some (r, n)
  | _ => None
  end.

End Regex.

(** ** Exceptions *)

Inductive error : Type :=
| AssertionError
| TypeError
| AttributeError
| KeyError
| ValueError
| NameError
| IndexError
| FileNotFoundError
| FileExistsError
| IsADirectoryError
| NotADirectoryError
| RegexError
| PatternMismatchError
| FieldCountMismatchError
| ExternalError (origin : string)
| Unfinished.

Inductive result (A : Type) : Type :=
| Ok (a : A)
| Raise (e : error).

Arguments Ok {A} a.
Arguments Raise {A} e.

(** ** Path parsers *)

Module Parsers.
Import Doc Regex.

(** Backslashes become forward slashes. *)
Definition to_posix_chars (s : list ascii) : list ascii :=
  map (fun c => if Ascii.eqb c "\"%char then "/"%char else c) s.

Definition to_posix (s : string) : string :=
  string_of_list_ascii (to_posix_chars (list_ascii_of_string s)).

(** [s.split(sep)] for a one-character separator. *)
Fixpoint split_on_char (sep : ascii) (s : list ascii) : list (list ascii) :=
  match s with
  | [] => [[]]
  | c :: rest =>
      if Ascii.eqb c sep then [] :: split_on_char sep rest
      else
        match split_on_char sep rest with
        | h :: t => (c :: h) :: t
        | [] => [[c]]
        end
  end.

Definition dot_path (field : string) : list string :=
  map string_of_list_ascii (split_on_char "."%char (list_ascii_of_string field)).

(** [a.b.c] with value [v] is [{a: {b: {c: v}}}]. *)
Fixpoint nested (ks : list string) (v : value) : value :=
  match ks with
  | [] => v
  | k :: rest => VDict [(k, nested rest v)]
  end.

Definition nested_notation_to_tree (field : string) (v : value) : dict :=
  match dot_path field with
  | [] => []
  | k :: rest => [(k, nested rest v)]
  end.

Definition group_value (c : option (list ascii)) : value :=
  match c with
  | Some l => VStr (string_of_list_ascii l)
  | None => VNone
  end.

(** [zip(fields, match.groups())], each pair turned into a nested tree. *)
Fixpoint field_trees (names : list string) (caps : captures) : list dict :=
  match names, caps with
  | n :: names', c :: caps' =>
      nested_notation_to_tree n (group_value c) :: field_trees names' caps'
  | _, _ => []
  end.

(** A single string stands for a one-element list of fields. *)
Fixpoint strings_of (l : list value) : result (list string) :=
  match l with
  | [] => Ok []
  | VStr s :: rest =>
      match strings_of rest with
      | Ok ss => Ok (s :: ss)
      | Raise e => Raise e
      end
  | _ :: _ => Raise TypeError
  end.

Definition field_names (fields : value) : result (list string) :=
  match fields with
  | VStr s => Ok [s]
  | VList l => strings_of l
  | _ => Raise TypeError
  end.

(** Where the pattern is found in the normalized path: the start of the
    match, the part of the path after the match, and the groups. *)
Definition locate (string pattern : string)
  : option (nat * nat * list ascii * captures) :=
  match compile pattern with
  | Some (r, n) =>
      match search n r (list_ascii_of_string (to_posix string)) with
      | Some (pos, rest, caps) => Some (n, pos, rest, caps)
      | None => None
      end
  | None => None
  end.

(** Modelled from the spec: [sovabids.parsers.parse_from_regex] is not among
    the sources. Section 4.1, regex mode: the path is normalized to forward
    slashes; the number of fields has to equal the number of capture groups;
    a pattern that does not match fails the extraction; each group is stored
    under its field read as a dot-separated path. Where the pattern may
    match follows [tests/test_path_parser.py], whose patterns are found in
    the middle of the path. *)
Definition parse_from_regex (string pattern : string) (fields : value)
  : result dict :=
  match field_names fields with
  | Raise e => Raise e
  | Ok names =>
      match compile pattern with
      | None => Raise RegexError
      | Some (_, n) =>
          if negb (n =? length names)%nat then Raise FieldCountMismatchError
          else
            match locate string pattern with
            | None => Raise PatternMismatchError
            | Some (_, _, _, caps) => Ok (deep_merge_N (field_trees names caps))
            end
      end
  end.

Fixpoint starts_with (p s : list ascii) : bool :=
  match p, s with
  | [], _ => true
  | a :: p', b :: s' => Ascii.eqb a b && starts_with p' s'
  | _ :: _, [] => false
  end.

(** The scanner is either in literal text or inside a placeholder, whose
    name it has read so far (last character first). *)
Inductive mode : Type :=
| Outside
| Inside (name_rev : list ascii).

(** One pass over the placeholder pattern, giving the regular expression and
    the field names from left to right: every placeholder becomes the
    matcher, the text between the placeholders is kept as it is written.
    [skip] counts the characters of an encloser still to be passed over. An
    encloser that is never closed is literal text; an empty encloser
    delimits nothing. *)
Fixpoint scan (encloser matcher : list ascii) (s : list ascii) (skip : nat)
    (m : mode) {struct s} : list ascii * list string :=
  match s with
  | [] =>
      match m with
      | Outside => ([], [])
      | Inside name_rev => (encloser ++ rev name_rev, [])
      end
  | c :: s' =>
      match skip with
      | S k => scan encloser matcher s' k m
      | O =>
          if negb (Nat.eqb (length encloser) 0) && starts_with encloser s then
            match m with
            | Outside =>
                scan encloser matcher s' (length encloser - 1) (Inside [])
            | Inside name_rev =>
                let '(rx, names) :=
                  scan encloser matcher s' (length encloser - 1) Outside in
                (matcher ++ rx, string_of_list_ascii (rev name_rev) :: names)
            end
          else
            match m with
            | Outside =>
                let '(rx, names) := scan encloser matcher s' 0 Outside in
                (c :: rx, names)
            | Inside name_rev =>
                scan encloser matcher s' 0 (Inside (c :: name_rev))
            end
      end
  end.


Definition lower_placeholder (pattern encloser matcher : string)
  : string * list string :=
  let '(rx, names) :=
    scan (list_ascii_of_string encloser) (list_ascii_of_string matcher)
      (list_ascii_of_string pattern) 0 Outside in
  (string_of_list_ascii rx, names).

(** Modelled from the spec: [sovabids.parsers.parse_from_placeholder] is not
    among the sources. Section 4.1, placeholder mode: the pattern is lowered
    into a regular expression, every placeholder replaced by the matcher and
    the field names collected from left to right, and the regex-mode
    algorithm does the rest. The pattern is a path value and is normalized
    to forward slashes first (section 3), as the backslash patterns of
    [tests/test_path_parser.py] need. Section 4.1 also speaks of escaping
    the literal characters; the helper of the package substitutes the
    placeholders and hands the remaining text to [re] as it is, so that a
    dot of the pattern stands for any character, and this is what is
    modelled. The tests pass either way. *)
Definition parse_from_placeholder (string pattern encloser matcher : string)
  : result dict :=
  let '(rx, names) := lower_placeholder (to_posix pattern) encloser matcher in
  parse_from_regex string rx (VList (map VStr names)).

End Parsers.

(** The error monad of the pure part. *)
Definition bind_result {A B} (r : result A) (k : A -> result B) : result B :=
  match r with
  | Ok a => k a
  | Raise e => Raise e
  end.

Declare Scope result_scope.
Delimit Scope result_scope with result.
Notation "x <- e ;; k" := (bind_result e (fun x => k))
  (at level 100, e at next level, right associativity) : result_scope.

(** ** Path analysis over a rule document *)

Module PathAnalysis.
Import Doc Regex Parsers.
Local Open Scope result_scope.

Fixpoint is_substring (p s : list ascii) : bool :=
  starts_with p s
  || match s with
     | [] => false
     | _ :: s' => is_substring p s'
     end.

(** [k in v] for a string [k]: a key of a mapping, an element of a sequence,
    a substring of a string; other values are not containers. *)
Definition py_in (k : string) (v : value) : result bool :=
  match v with
  | VDict d => Ok (dict_has k d)
  | VList l =>
      Ok (existsb (fun x => match x with
                            | VStr s => String.eqb s k
                            | _ => false
                            end) l)
  | VStr s => Ok (is_substring (list_ascii_of_string k) (list_ascii_of_string s))
  | _ => Raise TypeError
  end.

(** [v[k]] for a string [k]. *)
Definition subscript (v : value) (k : string) : result value :=
  match v with
  | VDict d =>
      match dict_get k d with
      | Some x => Ok x
      | None => Raise KeyError
      end
  | _ => Raise TypeError
  end.

(** [v.get(k, default)]: only mappings have [get]. *)
Definition py_get (v : value) (k : string) (default : value) : result value :=
  match v with
  | VDict d =>
      match dict_get k d with
      | Some x => Ok x
      | None => Ok default
      end
  | _ => Raise AttributeError
  end.

Definition as_str (v : value) : result string :=
  match v with
  | VStr s => Ok s
  | _ => Raise TypeError
  end.

(** Lines 41-49: the extraction that the [path_analysis] rule asks for. *)
Definition extract (path : string) (path_analysis : value) : result dict :=
  pattern <- py_get path_analysis "pattern" (VStr "") ;;
  has_fields <- py_in "fields" path_analysis ;;
  if has_fields then
    fields <- py_get path_analysis "fields" (VList []) ;;
    pattern_s <- as_str pattern ;;
    parse_from_regex path pattern_s fields
  else
    encloser <- py_get path_analysis "encloser" (VStr "%") ;;
    matcher <- py_get path_analysis "matcher" (VStr "(.+)") ;;
    pattern_s <- as_str pattern ;;
    encloser_s <- as_str encloser ;;
    matcher_s <- as_str matcher ;;
    parse_from_placeholder path pattern_s encloser_s matcher_s.

(** Lines 50-51. *)
Definition strip_ignore (patterns_extracted : dict) : dict :=
  if dict_has "ignore" patterns_extracted
  then dict_del "ignore" patterns_extracted
  else patterns_extracted.

(** Lines 38-49: what is extracted from the path, [{}] without a
    [path_analysis] rule. *)
Definition patterns_of (path : string) (rules : dict) : result dict :=
  let non_bids_rules := dict_get_default "non-bids" rules in
  has <- py_in "path_analysis" non_bids_rules ;;
  if has then
    path_analysis <- subscript non_bids_rules "path_analysis" ;;
    extract path path_analysis
  else Ok [].

(** [get_info_from_path(path, rules)]. The deep copy of [rules] is the
    value itself. *)
Definition get_info_from_path (path : string) (rules : dict) : result dict :=
  let rules__ := rules in
  patterns_extracted <- patterns_of path rules__ ;;
  let patterns_extracted := strip_ignore patterns_extracted in
  Ok (deep_merge_N [rules__; patterns_extracted]).

End PathAnalysis.

(** ** [os.path] and [str] helpers (POSIX flavour) *)

Module OsPath.

Definition slash : ascii := "/"%char.
Definition is_slash (c : ascii) : bool := Ascii.eqb c slash.

Fixpoint take_while (f : ascii -> bool) (s : list ascii) : list ascii :=
  match s with
  | [] => []
  | c :: s' => if f c then c :: take_while f s' else []
  end.

Fixpoint drop_while (f : ascii -> bool) (s : list ascii) : list ascii :=
  match s with
  | [] => []
  | c :: s' => if f c then drop_while f s' else s
  end.

(** [os.path.split]: everything up to the last slash, and what follows it;
    the head loses its trailing slashes unless it is made of slashes only. *)
Definition split_chars (p : list ascii) : list ascii * list ascii :=
  let r := rev p in
  let tail_r := take_while (fun c => negb (is_slash c)) r in
  let head_r := drop_while (fun c => negb (is_slash c)) r in
  let stripped := drop_while is_slash head_r in
  (match stripped with
   | [] => rev head_r
   | _ => rev stripped
   end, rev tail_r).

Definition split (p : string) : string * string :=
  let '(h, t) := split_chars (list_ascii_of_string p) in
  (string_of_list_ascii h, string_of_list_ascii t).

Definition dirname (p : string) : string := fst (split p).

(** [os.path.join(a, b)]. *)
Definition join_chars (a b : list ascii) : list ascii :=
  match b with
  | c :: _ =>
      if is_slash c then b
      else
        match rev a with
        | [] => b
        | l :: _ => if is_slash l then a ++ b else a ++ slash :: b
        end
  | [] =>
      match rev a with
      | [] => b
      | l :: _ => if is_slash l then a ++ b else a ++ slash :: b
      end
  end.

Definition join (a b : string) : string :=
  string_of_list_ascii
    (join_chars (list_ascii_of_string a) (list_ascii_of_string b)).

(** The extension of [os.path.splitext]: from the last dot of the last
    component, unless only dots precede it there. *)
Definition splitext_ext (p : string) : string :=
  let r := rev (list_ascii_of_string p) in
  let not_sep c := negb (is_slash c) && negb (Ascii.eqb c "."%char) in
  let ext_r := take_while not_sep r in
  match drop_while not_sep r with
  | c :: before_r =>
      if Ascii.eqb c "."%char then
        let name_r := take_while (fun c => negb (is_slash c)) before_r in
        if existsb (fun c => negb (Ascii.eqb c "."%char)) name_r
        then string_of_list_ascii ("."%char :: rev ext_r)
        else ""
      else ""
  | [] => ""
  end.

(** [s.replace(old, new)] for a non-empty [old]; [skip] counts the
    characters of a replaced occurrence still to be passed over. *)
Fixpoint replace_chars (old new s : list ascii) (skip : nat) : list ascii :=
  match s with
  | [] => []
  | c :: s' =>
      match skip with
      | S k => replace_chars old new s' k
      | O =>
          if Parsers.starts_with old s
          then new ++ replace_chars old new s' (length old - 1)
          else c :: replace_chars old new s' 0
      end
  end.

Definition replace (s old new : string) : string :=
  string_of_list_ascii
    (replace_chars (list_ascii_of_string old) (list_ascii_of_string new)
       (list_ascii_of_string s) 0).

(** A directory name as [os.path.split] gives it: not empty, and without a
    trailing slash unless it is made of slashes. *)
Definition tidy (folder : list ascii) : Prop :=
  match rev folder with
  | [] => False
  | l :: _ => is_slash l = false \/ forallb is_slash folder = true
  end.

(** A file name: not empty and without a slash. *)
Definition plain_name (name : list ascii) : Prop :=
  name <> [] /\ forallb (fun c => negb (is_slash c)) name = true.

Definition contains (sub s : string) : bool :=
  PathAnalysis.is_substring (list_ascii_of_string sub) (list_ascii_of_string s).

End OsPath.

(** ** The world: files, directories, standard output *)

Module World.
Import Doc.

(** Every file holds a value: the document of a JSON or YAML file, the
    columns of a table, or whatever the writer stores for a recording.
    Directories are kept by the path under which they were made. *)
Record world : Type := mk_world {
  files : gmap string value;
  dirs : gset string;
  stdout : list string
}.

Definition with_files (fs : gmap string value) (w : world) : world :=
  mk_world fs (dirs w) (stdout w).

Definition with_dirs (ds : gset string) (w : world) : world :=
  mk_world (files w) ds (stdout w).

(** State and exceptions; the state reached when an exception is raised is
    kept. *)
Definition M (A : Type) : Type := world -> result A * world.

Definition ret {A} (a : A) : M A := fun w => (Ok a, w).

Definition raise {A} (e : error) : M A := fun w => (Raise e, w).

Definition bind {A B} (m : M A) (k : A -> M B) : M B :=
  fun w =>
    match m w with
    | (Ok a, w') => k a w'
    | (Raise e, w') => (Raise e, w')
    end.

Definition lift {A} (r : result A) : M A := fun w => (r, w).

(** [try: m  except: handler] with a bare [except]. *)
Definition try_except {A} (m : M A) (handler : M A) : M A :=
  fun w =>
    match m w with
    | (Ok a, w') => (Ok a, w')
    | (Raise _, w') => handler w'
    end.

Definition gets {A} (f : world -> A) : M A := fun w => (Ok (f w), w).

Definition print (line : string) : M unit :=
  fun w => (Ok tt, mk_world (files w) (dirs w) (stdout w ++ [line])).

(** [open(path)] for reading, the content parsed. *)
Definition read_file (path : string) : M value :=
  fun w =>
    match files w !! path with
    | Some v => (Ok v, w)
    | None => (Raise FileNotFoundError, w)
    end.

(** Overwriting a file that was just read. *)
Definition write_file (path : string) (v : value) : M unit :=
  fun w => (Ok tt, with_files (<[path := v]> (files w)) w).

Definition all_slashes (p : string) : bool :=
  forallb OsPath.is_slash (list_ascii_of_string p).

Definition is_dir (p : string) (w : world) : bool :=
  bool_decide (p ∈ dirs w) || (all_slashes p && negb (String.eqb p "")).

Definition is_file (p : string) (w : world) : bool :=
  bool_decide (is_Some (files w !! p)).

Definition exists_path (p : string) (w : world) : bool :=
  is_file p w || is_dir p w.

(** The directory in which [name] is an entry: the head that
    [os.path.split] gives, split once more when [name] ends with a slash. *)
Definition parent_of (name : string) : string :=
  let '(head, tail) := OsPath.split name in
  if String.eqb tail "" then fst (OsPath.split head) else head.

(** [os.mkdir(name)] under [exist_ok=True]: an existing directory is fine,
    an existing file is not, and the parent has to be a directory (the
    current directory, for a name without one). *)
Definition mkdir_exist_ok (name : string) : M unit :=
  fun w =>
    if is_dir name w then (Ok tt, w)
    else if is_file name w then (Raise FileExistsError, w)
    else if String.eqb name "" then (Raise FileNotFoundError, w)
    else if String.eqb (parent_of name) "" || is_dir (parent_of name) w
    then (Ok tt, with_dirs ({[name]} ∪ dirs w) w)
    else if is_file (parent_of name) w then (Raise NotADirectoryError, w)
    else (Raise FileNotFoundError, w).

(** [os.makedirs(name, exist_ok=True)]: the missing ancestors first. *)
Fixpoint makedirs_fuel (fuel : nat) (name : string) : M unit :=
  match fuel with
  | O => mkdir_exist_ok name
  | S fuel' =>
      let '(head, tail) := OsPath.split name in
      let '(head, tail) :=
        if String.eqb tail "" then OsPath.split head else (head, tail) in
      fun w =>
        if negb (String.eqb head "") && negb (String.eqb tail "")
           && negb (exists_path head w)
        then
          match makedirs_fuel fuel' head w with
          | (Ok _, w') => mkdir_exist_ok name w'
          | (Raise FileExistsError, w') => mkdir_exist_ok name w'
          | (Raise e, w') => (Raise e, w')
          end
        else mkdir_exist_ok name w
  end.

Definition makedirs (name : string) : M unit :=
  makedirs_fuel (String.length name) name.

(** [open(path, 'w')] followed by a dump of [v]: the directory of [path]
    has to exist. *)
Definition open_w (path : string) (v : value) : M unit :=
  fun w =>
    let parent := OsPath.dirname path in
    if String.eqb parent "" || is_dir parent w then
      if is_dir path w then (Raise IsADirectoryError, w)
      else (Ok tt, with_files (<[path := v]> (files w)) w)
    else (Raise FileNotFoundError, w).

(** [p] lies under the directory [root]. *)
Definition under (root p : string) : bool :=
  let r := list_ascii_of_string root in
  let r :=
    match rev r with
    | c :: _ => if OsPath.is_slash c then r else r ++ [OsPath.slash]
    | [] => r
    end in
  Parsers.starts_with r (list_ascii_of_string p)
  && negb (String.eqb (string_of_list_ascii r) p).

(** Modelled from the spec: [sovabids.files._get_files] is not among the
    sources. Section 4.3 takes it as the set of files present under a root,
    at any depth. *)
Definition _get_files (root : string) (w : world) : list string :=
  List.filter (under root) (map fst (map_to_list (files w))).

(** [os.remove] of the files that are still there. *)
Definition remove_all (paths : list string) (w : world) : world :=
  fold_left
    (fun w p => if exists_path p w then with_files (delete p (files w)) w else w)
    paths w.

End World.

(** ** The collaborators: recording reader, dataset writer, settings *)

Module Collab.
Import Doc World.

(** What a command run by [exec] at line 187 has within reach and can
    change in place: the recording, the rule document of the file
    ([rules__], with its [non-bids] section), the mapping that [entities]
    was bound to at line 159, and the list that the loop of line 185 runs
    over. A command that only rebinds one of these names changes nothing
    for the function; one that changes the objects does, and what follows
    the loop finds them as the commands left them. Each field holds the
    content of its object; a command may change the mapping under
    [entities] together with the [entities] section of the document, or only
    one of the two (by putting another mapping into the document). The
    [rules] argument is within reach as well; the function has taken its
    copy by then (line 149) and does not read it again, and it is not
    followed here. *)
Record frame (raw : Type) : Type := mk_frame {
  fr_raw : raw;
  fr_rules : dict;
  fr_entities : value;
  fr_commands : list value
}.

Arguments mk_frame {raw} fr_raw fr_rules fr_entities fr_commands.
Arguments fr_raw {raw} f.
Arguments fr_rules {raw} f.
Arguments fr_entities {raw} f.
Arguments fr_commands {raw} f.

(** What [mne], [mne_bids], [pandas], [json], [exec] and the modules of the
    package that are not among the sources ([sovabids.settings],
    [sovabids.bids]) contribute. Nothing is assumed about them beyond their
    types: an operation with effects is a state transformer that may raise. *)
Record Env : Type := mk_env {
  raw : Type;
  bids_path : Type;
  table : Type;
  (** [x in NULL_VALUES] and [SUPPORTED_EXTENSIONS] of [sovabids.settings]. *)
  in_NULL_VALUES : value -> bool;
  SUPPORTED_EXTENSIONS : list string;
  (** [mne.io.read_raw(f, preload=False)]. *)
  read_raw : string -> M raw;
  (** [raw.info['line_freq'] = v]. *)
  set_line_freq : value -> raw -> result raw;
  rename_channels : value -> raw -> result raw;
  (** [_get_ch_type_mapping(fro='bids', to='mne').get(val, None)]. *)
  ch_type_mapping : value -> option value;
  set_channel_types : dict -> raw -> result raw;
  (** [exec(command)]: what the command had within reach and the world
      afterwards, and the traceback when the command raised. *)
  exec_command :
    string -> frame raw -> world -> option string * frame raw * world;
  (** For how many commands the loop of line 185 is followed. The code sets
      no bound: a command may lengthen the list it was taken from, and the
      loop then goes on. *)
  rounds : nat;
  (** [BIDSPath] built from the entities and the root, [.root], [.fpath] (which may look
      at the files) and [.copy().update(datatype, suffix, extension)]. *)
  BIDSPath : dict -> string -> result bids_path;
  root : bids_path -> string;
  fpath : bids_path -> world -> result string;
  update : bids_path -> string -> string -> string -> result bids_path;
  (** [raw.times[-1]], [raw.last_samp], [raw.crop] to a number of samples,
      [raw.filenames[0]]. *)
  times_last : raw -> value;
  last_samp : raw -> Z;
  crop : Z -> raw -> result raw;
  filenames0 : raw -> string;
  handle_datatype : raw -> result string;
  parse_ext : string -> string;
  (** [write_raw_bids(raw, bids_path, overwrite=True, ...)]; the flag tells
      the reduced call of the preview from the full one. *)
  write_raw_bids : raw -> bids_path -> bool -> M unit;
  (** [update_dataset_description(rules, root, do_not_create)]. *)
  update_dataset_description : value -> string -> bool -> M unit;
  (** The text of a JSON file that holds a given document. *)
  json_text : value -> string;
  (** [pandas]: [read_csv], the assignment of a type to the rows of a
      channel, [to_csv], [to_dict(orient='list')]. *)
  read_csv : value -> result table;
  table_set_type : table -> string -> value -> result table;
  to_csv : table -> value;
  to_dict : table -> dict
}.

End Collab.

Declare Scope io_scope.
Delimit Scope io_scope with io.
Notation "x <- e ;; k" := (World.bind e (fun x => k))
  (at level 100, e at next level, right associativity) : io_scope.

(** ** The per-file pipeline and the batch driver *)

Module Rules.
Import Doc PathAnalysis World Collab.

Definition nl : string := String Regex.newline EmptyString.

(** A key as it stands in a document: a string as it is; a number, a truth
    value or a null as JSON writes it (the mapping is written as JSON right
    after the update, line 242). Sequences and mappings are not hashable. *)
Definition key_of (k : value) : result string :=
  match k with
  | VStr s => Ok s
  | VInt z => Ok (NilZero.string_of_int (Z.to_int z))
  | VBool true => Ok "true"
  | VBool false => Ok "false"
  | VNone => Ok "null"
  | VList _ | VDict _ => Raise TypeError
  end.

(** One element of a sequence given to [dict.update]: a key and a value.
    Any sequence of length two will do: a list, a string of two characters,
    a mapping with two keys. *)
Definition update_pair (x : value) : result (string * value) :=
  match x with
  | VList [k; v] =>
      match key_of k with
      | Ok s => Ok (s, v)
      | Raise e => Raise e
      end
  | VList _ => Raise ValueError
  | VStr s =>
      match list_ascii_of_string s with
      | [a; b] => Ok (String a EmptyString, VStr (String b EmptyString))
      | _ => Raise ValueError
      end
  | VDict [(k1, _); (k2, _)] => Ok (k1, VStr k2)
  | VDict _ => Raise ValueError
  | VNone | VBool _ | VInt _ => Raise TypeError
  end.

Fixpoint update_pairs (l : list value) (dd : dict) : result dict :=
  match l with
  | [] => Ok dd
  | x :: rest =>
      match update_pair x with
      | Ok (k, v) => update_pairs rest (dict_set k v dd)
      | Raise e => Raise e
      end
  end.

(** [d.update(other)]: [other] is a mapping, or a sequence of pairs; the
    characters of a string are its elements. *)
Definition dict_update (d other : value) : result value :=
  match d with
  | VDict dd =>
      match other with
      | VDict od =>
          Ok (VDict (fold_left (fun acc kv => dict_set (fst kv) (snd kv) acc) od dd))
      | VList l =>
          match update_pairs l dd with
          | Ok dd' => Ok (VDict dd')
          | Raise e => Raise e
          end
      | VStr EmptyString => Ok d
      | VStr _ => Raise ValueError
      | VNone | VBool _ | VInt _ => Raise TypeError
      end
  | _ => Raise AttributeError
  end.

(** [v.items()]. *)
Definition items_of (v : value) : result dict :=
  match v with
  | VDict d => Ok d
  | _ => Raise AttributeError
  end.

(** [','.join(v)]. *)
Fixpoint join_commas (l : list value) : result string :=
  match l with
  | [] => Ok ""
  | [VStr s] => Ok s
  | VStr s :: rest =>
      match join_commas rest with
      | Ok t => Ok (s +:+ "," +:+ t)
      | Raise e => Raise e
      end
  | _ :: _ => Raise TypeError
  end.

Definition join_column (v : value) : result string :=
  match v with
  | VList l => join_commas l
  | VStr s => Ok (string_of_list_ascii
                    (match list_ascii_of_string s with
                     | [] => []
                     | c :: cs => c :: flat_map (fun x => [","%char; x]) cs
                     end))
  | _ => Raise TypeError
  end.

(** Lines 259-261. *)
Fixpoint joined_columns (cols : dict) (channels : dict) : result dict :=
  match cols with
  | [] => Ok channels
  | (key, v) :: rest =>
      match join_column v with
      | Ok s => joined_columns rest (dict_set key (VStr s) channels)
      | Raise e => Raise e
      end
  end.

Definition error_string (command traceback : string) : string :=
  "There was an error with the follwing command:" +:+ nl +:+ command +:+ nl
  +:+ "giving the following traceback:" +:+ nl +:+ traceback.

Section WithEnv.
Context (E : Env).
Local Open Scope io_scope.

(** [load_rules(rules)]: a path is read, a dictionary is copied. *)
Definition load_rules (rules : value) : M value :=
  match rules with
  | VDict d => ret (VDict d)
  | VStr path => read_file path
  | _ => raise TypeError
  end.

(** Lines 161-165. *)
Definition sidecar_stage (rules__ : dict) (r : raw E) : result (raw E) :=
  (if dict_has "sidecar" rules__ then
     sidecar <- subscript (VDict rules__) "sidecar" ;;
     has <- py_in "PowerLineFrequency" sidecar ;;
     if has then
       plf <- subscript sidecar "PowerLineFrequency" ;;
       if negb (in_NULL_VALUES E plf) then set_line_freq E plf r else Ok r
     else Ok r
   else Ok r)%result.

(** Lines 176-177: the channel types that have an [mne] counterpart. *)
Fixpoint valid_types (types : dict) (acc : dict) : dict :=
  match types with
  | [] => acc
  | (key, val) :: rest =>
      match ch_type_mapping E val with
      | Some v => valid_types rest (dict_set key v acc)
      | None => valid_types rest acc
      end
  end.

(** Lines 167-178. *)
Definition channels_stage (rules__ : dict) (r : raw E) : result (raw E) :=
  (if dict_has "channels" rules__ then
     channels <- subscript (VDict rules__) "channels" ;;
     has_name <- py_in "name" channels ;;
     r1 <- (if has_name
            then name <- subscript channels "name" ;; rename_channels E name r
            else Ok r) ;;
     has_type <- py_in "type" channels ;;
     if has_type then
       types <- subscript channels "type" ;;
       items <- items_of types ;;
       set_channel_types E (valid_types items []) r1
     else Ok r1
   else Ok r)%result.

(** Lines 185-190: the loop takes the element at the next position of the
    list as the list is then, so that a command may lengthen or shorten
    what is still to run; a command that raises is reported on the standard
    output and the loop goes on. An element that is not a string makes
    [exec] raise and then the report itself. [fuel] is the number of
    commands the loop is followed for. *)
Fixpoint run_commands (fuel : nat) (i : nat) (fr : frame (raw E)) {struct fuel}
  : M (frame (raw E)) :=
  match nth_error (fr_commands fr) i with
  | None => ret fr
  | Some (VStr command) =>
      match fuel with
      | O => raise Unfinished
      | S fuel' =>
          fun w =>
            match exec_command E command fr w with
            | (None, fr', w') => run_commands fuel' (S i) fr' w'
            | (Some traceback, fr', w') =>
                (_ <- print (error_string command traceback) ;;
                 run_commands fuel' (S i) fr') w'
            end
      end
  | Some _ => raise TypeError
  end.

(** Lines 180-190: what the commands, if any, leave of the recording, of
    [rules__] and of [entities]. A command given as a string is put into
    the document as a list first (line 183). *)
Definition code_execution_stage (rules__ : dict) (entities : value) (r : raw E)
  : M (frame (raw E)) :=
  let non_bids := dict_get_default "non-bids" rules__ in
  has <- lift (py_in "code_execution" non_bids) ;;
  if has then
    code <- lift (subscript non_bids "code_execution") ;;
    match code, non_bids with
    | VStr s, VDict d =>
        let rules__ :=
          dict_set "non-bids"
            (VDict (dict_set "code_execution" (VList [VStr s]) d)) rules__ in
        run_commands (rounds E) 0 (mk_frame r rules__ entities [VStr s])
    | VList commands, _ =>
        run_commands (rounds E) 0 (mk_frame r rules__ entities commands)
    | _, _ => ret (mk_frame r rules__ entities [])
    end
  else ret (mk_frame r rules__ entities []).

(** Lines 209-221, the dry run: where the recording would be written. *)
Definition dry_bids_path (r : raw E) (bp : bids_path E)
  : result (bids_path E) :=
  (let raw_fname := filenames0 E r in
   let raw_fname :=
     if OsPath.contains ".ds" (OsPath.dirname (filenames0 E r))
     then OsPath.dirname (filenames0 E r) else raw_fname in
   let raw_fname := OsPath.replace raw_fname ".eeg" ".vhdr" in
   let raw_fname := OsPath.replace raw_fname ".fdt" ".set" in
   let raw_fname := OsPath.replace raw_fname ".dat" ".lay" in
   let ext := parse_ext E raw_fname in
   datatype <- handle_datatype E r ;;
   update E bp datatype datatype ext)%result.

(** What the mode dispatch leaves behind: the path object, the recording,
    and in preview mode the files found under the root before the writer
    ran ([orig_files]). *)
Record dispatched : Type := mk_dispatched {
  d_bids_path : bids_path E;
  d_raw : raw E;
  d_orig_files : option (list string)
}.

(** Lines 198-221. *)
Definition mode_dispatch (write preview : bool) (r : raw E) (bp : bids_path E)
  : M dispatched :=
  if write then
    _ <- write_raw_bids E r bp false ;;
    ret (mk_dispatched bp r None)
  else if preview then
    r' <- lift (crop E (Z.min 10 (last_samp E r)) r) ;;
    orig_files <- gets (_get_files (root E bp)) ;;
    _ <- write_raw_bids E r' bp true ;;
    ret (mk_dispatched bp r' (Some orig_files))
  else
    bp' <- lift (dry_bids_path r bp) ;;
    ret (mk_dispatched bp' r None).

Definition fpath_now (bp : bids_path E) : M string :=
  fun w => (fpath E bp w, w).

(** Lines 233-246: the sidecar overlay and its text; any failure gives the
    empty text. *)
Definition sidecar_overlay (bp : bids_path E) (rules__ : dict)
    (real_times : value) : M value :=
  try_except
    (sidecar_path <- lift (update E bp "eeg" "eeg" ".json") ;;
     p <- fpath_now sidecar_path ;;
     sidecarjson <- read_file p ;;
     let sidecar := dict_get_default "sidecar" rules__ in
     sidecarjson <- lift (dict_update sidecarjson sidecar) ;;
     sidecarjson <-
       lift (dict_update sidecarjson (VDict [("RecordingDuration", real_times)])) ;;
     p <- fpath_now sidecar_path ;;
     _ <- write_file p sidecarjson ;;
     p <- fpath_now sidecar_path ;;
     content <- read_file p ;;
     ret (VStr (OsPath.replace (json_text E content) nl "")))
    (ret (VStr "")).

(** Lines 253-254. *)
Fixpoint set_types (types : dict) (t : table E) : result (table E) :=
  match types with
  | [] => Ok t
  | (ch_name, ch_type) :: rest =>
      match table_set_type E t ch_name ch_type with
      | Ok t' => set_types rest t'
      | Raise e => Raise e
      end
  end.

(** Lines 248-263: the channel table overlay. The path object is built
    outside the [try]. *)
Definition channels_overlay (bp : bids_path E) (rules__ : dict) : M value :=
  channels_path <- lift (update E bp "eeg" "channels" ".tsv") ;;
  try_except
    (p <- fpath_now channels_path ;;
     content <- read_file p ;;
     channels_table <- lift (read_csv E content) ;;
     let channels_rules := dict_get_default "channels" rules__ in
     has_type <- lift (py_in "type" channels_rules) ;;
     channels_table <-
       (if has_type then
          types <- lift (subscript channels_rules "type") ;;
          items <- lift (items_of types) ;;
          lift (set_types items channels_table)
        else ret channels_table) ;;
     p <- fpath_now channels_path ;;
     _ <- write_file p (to_csv E channels_table) ;;
     p <- fpath_now channels_path ;;
     _ <- read_file p ;;
     channels <- lift (joined_columns (to_dict E channels_table) []) ;;
     ret (VDict channels))
    (ret (VStr "")).

(** Lines 265-277. *)
Definition dataset_description_text (bp : bids_path E) : M value :=
  let daset_path := OsPath.join (root E bp) "dataset_description.json" in
  fun w =>
    match files w !! daset_path with
    | Some content => (Ok (VStr (OsPath.replace (json_text E content) nl "")), w)
    | None => (Ok (VStr ""), w)
    end.

(** The three texts of lines 231-277. *)
Record overlays : Type := mk_overlays {
  sidecarjson : value;
  channels : value;
  dasetjson : value
}.

Definition post_processing (bp : bids_path E) (rules__ : dict)
    (real_times : value) : M overlays :=
  s <- sidecar_overlay bp rules__ real_times ;;
  c <- channels_overlay bp rules__ ;;
  d <- dataset_description_text bp ;;
  ret (mk_overlays s c d).

(** Lines 289-293: the files found under the root now and not before are
    removed. *)
Definition clean_files (bp : bids_path E) (orig_files : list string) : M unit :=
  fun w =>
    let new_files := _get_files (root E bp) w in
    let new_files :=
      List.filter (fun p => negb (existsb (String.eqb p) orig_files)) new_files in
    (Ok tt, remove_all new_files w).

(** Lines 294-296. *)
Definition without_dataset_description (rules__ : dict) : dict :=
  if dict_has "dataset_description" rules__
  then dict_del "dataset_description" rules__
  else rules__.

(** Lines 195-297: what follows the commands. *)
Definition after_commands (f : string) (rules__ : dict) (entities : value)
    (bids_root : string) (write preview : bool) (r : raw E)
  : M (dict * value) :=
  kwargs <- lift (match entities with
                  | VDict d => Ok d
                  | _ => Raise TypeError
                  end) ;;
  bp <- lift (BIDSPath E kwargs bids_root) ;;
  let real_times := times_last E r in
  d <- mode_dispatch write preview r bp ;;
  let bp := d_bids_path d in
  _ <- update_dataset_description E
         (dict_get_default "dataset_description" rules__) (root E bp) write ;;
  target <- fpath_now bp ;;
  let rules__ :=
    dict_set "IO" (VDict [("target", VStr target); ("source", VStr f)]) rules__ in
  ov <- (if write || preview
         then o <- post_processing bp rules__ real_times ;; ret (Some o)
         else ret None) ;;
  preview_doc <-
    (if preview then
       match ov with
       | Some o =>
           ret (VDict [("IO", dict_get_default "IO" rules__);
                       ("entities", dict_get_default "entities" rules__);
                       ("dataset_description", dasetjson o);
                       ("sidecar", sidecarjson o);
                       ("channels", channels o)])
       | None => raise NameError
       end
     else ret (VBool false)) ;;
  _ <- (if negb write && preview then
          match d_orig_files d with
          | Some orig_files => clean_files bp orig_files
          | None => raise NameError
          end
        else ret tt) ;;
  ret (without_dataset_description rules__, preview_doc).

(** Lines 179-297 when [rules__] has a [non-bids] section: what follows
    the commands works on the recording, the document and the entities as
    they left them. *)
Definition with_non_bids (f : string) (rules__ : dict) (entities : value)
    (bids_root : string) (write preview : bool) (r : raw E)
  : M (dict * value) :=
  fr <- code_execution_stage rules__ entities r ;;
  after_commands f (fr_rules fr) (fr_entities fr) bids_root write preview
    (fr_raw fr).

(** [apply_rules_to_single_file(file, rules, bids_path, write, preview)]:
    the mapping and the preview. Without a [non-bids] section lines 180-277
    are skipped: no target is resolved, and a preview finds its texts
    undefined. *)
Definition apply_rules_to_single_file (file : string) (rules : value)
    (bids_root : string) (write preview : bool) : M (dict * value) :=
  let f := file in
  rules__ <- (match rules with
              | VDict d => ret (VDict d)
              | _ => load_rules rules
              end) ;;
  r <- read_raw E f ;;
  rules__ <- lift (match rules__ with
                   | VDict d => get_info_from_path f d
                   | _ => Raise AttributeError
                   end) ;;
  match dict_get "entities" rules__ with
  | None => raise AssertionError
  | Some entities =>
      r <- lift (sidecar_stage rules__ r) ;;
      r <- lift (channels_stage rules__ r) ;;
      if dict_has "non-bids" rules__ then
        with_non_bids f rules__ entities bids_root write preview r
      else if preview then raise NameError
      else ret (without_dataset_description rules__, VBool false)
  end.

(** Line 89: a dot in front of the extensions that lack one. *)
Fixpoint dotted (extensions : list value) : result (list string) :=
  match extensions with
  | [] => Ok []
  | VStr x :: rest =>
      match list_ascii_of_string x with
      | [] => Raise IndexError
      | c :: _ =>
          match dotted rest with
          | Ok xs =>
              Ok ((if Ascii.eqb c "."%char then x else "." +:+ x) :: xs)
          | Raise e => Raise e
          end
      end
  | _ :: _ => Raise TypeError
  end.

(** Lines 80-89: the accepted extensions. *)
Definition accepted_extensions (rules_ : value) : result (list string) :=
  let extensions :=
    match (nb <- subscript rules_ "non-bids" ;;
           subscript nb "eeg_extension")%result with
    | Ok v => v
    | Raise _ => VList (map VStr (SUPPORTED_EXTENSIONS E))
    end in
  match extensions with
  | VStr x => dotted [VStr x]
  | VList l => dotted l
  | VDict d => dotted (map VStr (keys d))
  | _ => Raise TypeError
  end.

(** [get_files(source_path, rules)]. *)
Definition get_files (source_path : value) (rules : value) : M (list string) :=
  rules_ <- load_rules rules ;;
  match source_path with
  | VStr source =>
      extensions <- lift (accepted_extensions rules_) ;;
      filepaths <- gets (_get_files source) ;;
      ret (List.filter
             (fun x => existsb (String.eqb (OsPath.splitext_ext x)) extensions)
             filepaths)
  | _ => raise ValueError
  end.

(** Lines 331-334: one dry run per file, the mappings in the order of the
    files. The first exception ends the loop. Every file is given the rules
    as they were loaded: a command that changes the [rules] argument of its
    file in place is not followed. *)
Fixpoint convert_all (filepaths : list value) (rules_ : value)
    (bids_root : string) : M (list dict) :=
  match filepaths with
  | [] => ret []
  | VStr f :: rest =>
      m <- apply_rules_to_single_file f rules_ bids_root false false ;;
      ms <- convert_all rest rules_ bids_root ;;
      ret (fst m :: ms)
  | _ :: _ =>
      _ <- (match rules_ with
            | VDict d => ret (VDict d)
            | _ => load_rules rules_
            end) ;;
      raise TypeError
  end.

(** Lines 336-342: where the mapping file goes. *)
Definition mapping_location (bids_root mapping_path : string)
  : string * string :=
  let '(outputfolder, outputname) := OsPath.split mapping_path in
  let outputname :=
    if String.eqb outputname "" then "mappings.yml" else outputname in
  let outputfolder :=
    if String.eqb outputfolder ""
    then OsPath.join (OsPath.join bids_root "code") "sovabids"
    else outputfolder in
  (outputfolder, outputname).

Definition full_rules_path (bids_root mapping_path : string) : string :=
  let '(outputfolder, outputname) := mapping_location bids_root mapping_path in
  OsPath.join outputfolder outputname.

(** Lines 345-348. *)
Definition mapping_document (rules_ : dict) (source_path : value)
    (bids_root : string) (all_mappings : list dict) : value :=
  let rules_ :=
    dict_set "IO" (VDict [("source", source_path); ("target", VStr bids_root)])
      rules_ in
  VDict [("General", VDict rules_);
         ("Individual", VList (map VDict all_mappings))].

(** [apply_rules(source_path, bids_path, rules, mapping_path)]. *)
Definition apply_rules (source_path : value) (bids_root : string)
    (rules : value) (mapping_path : string) : M value :=
  rules_ <- load_rules rules ;;
  filepaths <-
    (match source_path with
     | VStr _ =>
         l <- get_files source_path rules_ ;;
         ret (map VStr l)
     | VList (VStr f :: rest) => ret (VStr f :: rest)
     | _ => raise ValueError
     end) ;;
  all_mappings <- convert_all filepaths rules_ bids_root ;;
  let '(outputfolder, outputname) := mapping_location bids_root mapping_path in
  _ <- makedirs outputfolder ;;
  let full_rules_path := OsPath.join outputfolder outputname in
  rules_d <- lift (match rules_ with
                   | VDict d => Ok d
                   | _ => Raise TypeError
                   end) ;;
  let mapping_data := mapping_document rules_d source_path bids_root all_mappings in
  _ <- open_w full_rules_path mapping_data ;;
  _ <- print ("Mapping file wrote to: " +:+ full_rules_path) ;;
  ret mapping_data.

End WithEnv.

End Rules.

(** ** A small instance of the collaborators

    Enough of a reader and a writer to run the pipeline on concrete inputs:
    a recording is known by its file name, the writer puts a header, a
    sidecar and a channel table under the root, and commands are a handful
    of fixed statements. *)

Module Bench.
Import Doc World Collab.

Record path_object : Type := mk_path_object {
  po_root : string;
  po_base : string;
  po_suffix : string;
  po_extension : string
}.

Definition po_fpath (bp : path_object) : string :=
  OsPath.join (po_root bp)
    (po_base bp
     +:+ (if String.eqb (po_suffix bp) "" then "" else "_" +:+ po_suffix bp)
     +:+ po_extension bp).

Definition make_path (entities : dict) (root : string) : result path_object :=
  match dict_get "subject" entities with
  | Some (VStr s) => Ok (mk_path_object root ("sub-" +:+ s) "" "")
  | Some _ => Raise ValueError
  | None => Raise ValueError
  end.

Definition with_suffix (bp : path_object) (suffix extension : string)
  : path_object :=
  mk_path_object (po_root bp) (po_base bp) suffix extension.

Definition bench_read_raw (f : string) : M string :=
  fun w =>
    match files w !! f with
    | Some _ => (Ok f, w)
    | None => (Raise FileNotFoundError, w)
    end.

(** The commands the bench knows; [entities] is the [entities] section of
    the document, so that the third one changes both. *)
Definition bench_exec (command : string) (fr : frame string) (w : world)
  : option string * frame string * world :=
  if String.eqb command "pass" then (None, fr, w)
  else if String.eqb command "open('notes.txt', 'w').close()" then
    (None, fr, with_files (<["notes.txt" := VStr ""]> (files w)) w)
  else if String.eqb command "entities['subject'] = '99'" then
    match fr_entities fr with
    | VDict d =>
        let entities := VDict (dict_set "subject" (VStr "99") d) in
        (None,
         mk_frame (fr_raw fr) (dict_set "entities" entities (fr_rules fr))
           entities (fr_commands fr),
         w)
    | _ => (Some ("TypeError: " +:+ command), fr, w)
    end
  else (Some ("NameError: " +:+ command), fr, w).

Definition bench_write (r : string) (bp : path_object) (reduced : bool)
  : M unit :=
  fun w =>
    let fs := files w in
    let fs := <[po_fpath (with_suffix bp "eeg" ".vhdr") := VStr r]> fs in
    let fs :=
      <[po_fpath (with_suffix bp "eeg" ".json") :=
          VDict [("SamplingFrequency", VInt 500)]]> fs in
    let fs :=
      <[po_fpath (with_suffix bp "channels" ".tsv") :=
          VDict [("name", VList [VStr "Cz"]); ("type", VList [VStr "EEG"])]]> fs in
    (Ok tt, with_files fs w).

(** A description that is not a mapping cannot be applied. *)
Definition bench_describe (description : value) (root : string)
    (do_not_create : bool) : M unit :=
  fun w =>
    match description with
    | VDict d =>
        let p := OsPath.join root "dataset_description.json" in
        if do_not_create && negb (is_file p w) then (Ok tt, w)
        else (Ok tt, with_files (<[p := VDict d]> (files w)) w)
    | _ => (Raise TypeError, w)
    end.

Definition bench : Env := {|
  raw := string;
  bids_path := path_object;
  table := value;
  in_NULL_VALUES := fun v =>
    match v with VNone => true | VStr EmptyString => true | _ => false end;
  SUPPORTED_EXTENSIONS := [".vhdr"; ".set"; ".edf"];
  read_raw := bench_read_raw;
  set_line_freq := fun _ r => Ok r;
  rename_channels := fun _ r => Ok r;
  ch_type_mapping := fun v =>
    match v with VStr "EEG" => Some (VStr "eeg") | _ => None end;
  set_channel_types := fun _ r => Ok r;
  exec_command := bench_exec;
  rounds := 16;
  BIDSPath := make_path;
  root := po_root;
  fpath := fun bp _ => Ok (po_fpath bp);
  update := fun bp _ suffix extension => Ok (with_suffix bp suffix extension);
  times_last := fun _ => VInt 60;
  last_samp := fun _ => 1000%Z;
  crop := fun _ r => Ok r;
  filenames0 := fun r => r;
  handle_datatype := fun _ => Ok "eeg";
  parse_ext := OsPath.splitext_ext;
  write_raw_bids := bench_write;
  update_dataset_description := bench_describe;
  json_text := fun _ => "{}";
  read_csv := fun v => match v with VDict _ => Ok v | _ => Raise ValueError end;
  table_set_type := fun t _ _ => Ok t;
  to_csv := fun t => t;
  to_dict := fun t => match t with VDict d => d | _ => [] end
|}.

(** A source tree with two recordings and an empty output tree. *)
Definition disk : world :=
  mk_world
    (<["data/sub-01/rest.vhdr" := VStr "eeg"]>
       (<["data/sub-02/rest.vhdr" := VStr "eeg"]> ∅))
    ∅ [].

Definition path_rules : value :=
  VDict [("pattern", VStr "sub-%entities.subject%/%entities.task%.vhdr")].

Definition rules : dict :=
  [("entities", VDict [("task", VStr "unknown")]);
   ("dataset_description", VDict [("Name", VStr "demo")]);
   ("sidecar", VDict [("PowerLineFrequency", VInt 50)]);
   ("non-bids", VDict [("eeg_extension", VStr "vhdr");
                       ("path_analysis", path_rules);
                       ("code_execution", VStr "raw.no_such_method()")])].

End Bench.

(** ** The upload front end ([front/app/app.py]), POSIX paths *)

Module App.
Import Doc World.

(** [s.lower()] on the letters A-Z. *)
Definition lower_char (c : ascii) : ascii :=
  let n := nat_of_ascii c in
  if ((65 <=? n) && (n <=? 90))%nat then ascii_of_nat (n + 32) else c.

Definition lower (s : list ascii) : list ascii := map lower_char s.

Definition is_dot (c : ascii) : bool := Ascii.eqb c "."%char.

(** [s.rsplit('.', 1)[1]] for an [s] with a dot: what follows the last
    dot. *)
Definition after_last_dot (s : list ascii) : list ascii :=
  rev (OsPath.take_while (fun c => negb (is_dot c)) (rev s)).

(** ['.' in filename and filename.rsplit('.', 1)[1].lower() in allowed]. *)
Definition allowed_in (allowed : list string) (filename : string) : bool :=
  let s := list_ascii_of_string filename in
  existsb is_dot s
  && existsb (String.eqb (string_of_list_ascii (lower (after_last_dot s))))
       allowed.

(** [ALLOWED_EXTENSIONS], from the supported extensions of the settings. *)
Definition ALLOWED_EXTENSIONS (supported : list string) : list string :=
  map (fun x => OsPath.replace x "." "") supported.

Definition allowed_file (supported : list string) (filename : string) : bool :=
  allowed_in (ALLOWED_EXTENSIONS supported) filename.

Definition allowed_file_rules (filename : string) : bool :=
  allowed_in ["yaml"; "txt"; "yml"] filename.

(** A part of a path without a separator. *)
Definition slash_free (s : string) : bool :=
  forallb (fun c => negb (OsPath.is_slash c)) (list_ascii_of_string s).

(** A path that starts at the root. *)
Definition absolute (s : string) : bool :=
  match list_ascii_of_string s with
  | c :: _ => OsPath.is_slash c
  | [] => false
  end.

(** The loop of [splitall]: [allparts] grows at the front until
    [os.path.split] gives back the path itself. [fuel] bounds the rounds. *)
Fixpoint splitall_loop (fuel : nat) (path : string) (allparts : list string)
  : option (list string) :=
  match fuel with
  | O => None
  | S fuel' =>
      let parts := OsPath.split path in
      if String.eqb (fst parts) path then Some (fst parts :: allparts)
      else if String.eqb (snd parts) path then Some (snd parts :: allparts)
      else splitall_loop fuel' (fst parts) (snd parts :: allparts)
  end.

(** [splitall(path)]. *)
Definition splitall (path : string) : option (list string) :=
  splitall_loop (S (String.length path)) path [].

(** [os.path.join( *parts )]: it needs a first part. *)
Definition join_all (parts : list string) : result string :=
  match parts with
  | [] => Raise TypeError
  | a :: rest => Ok (fold_left OsPath.join rest a)
  end.

(** The body of the loop of [upload_file] for one uploaded file with a
    name: where it is saved, and the name listed for it.
    [secure_filename] is werkzeug's. *)
Definition upload_one (secure_filename : string -> string)
    (upload_folder : string) (file_filename : string) (content : value)
  : M string :=
  match splitall file_filename with
  | None => raise ValueError
  | Some fileparts =>
      match rev fileparts with
      | [] => raise IndexError
      | filename :: rest_r =>
          let fileparts := rev rest_r in
          let filename := secure_filename filename in
          bind (lift (join_all fileparts)) (fun rel_nested_dir =>
          let abs_nested_dir := OsPath.join upload_folder rel_nested_dir in
          bind (makedirs abs_nested_dir) (fun _ =>
          bind (open_w (OsPath.join abs_nested_dir filename) content) (fun _ =>
          ret (OsPath.replace (OsPath.join rel_nested_dir filename) "\" "/"))))
      end
  end.

End App.
(** ** Statements about the parsers *)

Module ParserClaims.
Import Doc Regex Parsers.

(** Where the match of a regex-mode extraction starts. *)
Definition match_start (string pattern : string) : option nat :=
  match locate string pattern with
  | Some (_, pos, _, _) => Some pos
  | None => None
  end.

(** The match of a successful extraction starts at the first character. *)
Definition anchored_at_start (string pattern : string) (fields : value) : Prop :=
  forall doc, parse_from_regex string pattern fields = Ok doc ->
              match_start string pattern = Some 0.

(** A placeholder pattern as it is written: literal text and named
    placeholders. *)
Inductive token : Type :=
| Lit (text : string)
| Hole (name : string).

Definition render_token (t : token) : string :=
  match t with
  | Lit text => text
  | Hole name => "%" +:+ name +:+ "%"
  end.

Definition render (toks : list token) : string :=
  fold_right (fun t acc => render_token t +:+ acc) "" toks.












(** The fourth pattern of [test_parse_from_placeholder], written with a
    backslash. *)
Definition backslash_pattern : list token :=
  [Hole "ignore"; Lit "\sub-"; Hole "entities.subject"; Lit ".vhdr"].

(** The third pattern of that test: a literal dot before the extension. *)
Definition dot_pattern : list token :=
  [Lit "sub-"; Hole "entities.subject"; Lit ".vhdr"].

End ParserClaims.

(** ** Statements about path analysis *)

Module PathClaims.
Import Doc PathAnalysis.

(** The [non-bids.path_analysis] rule of a document. *)
Definition path_analysis_of (rules : dict) : option value :=
  match dict_get "non-bids" rules with
  | Some (VDict non_bids) => dict_get "path_analysis" non_bids
  | _ => None
  end.

(** [k] is a key somewhere in [v]. *)
Fixpoint mentions_key (k : string) (v : value) : bool :=
  match v with
  | VDict d =>
      dict_has k d
      || (fix any (d : dict) : bool :=
            match d with
            | [] => false
            | (_, x) :: rest => mentions_key k x || any rest
            end) d
  | VList l =>
      (fix any (l : list value) : bool :=
         match l with
         | [] => false
         | x :: rest => mentions_key k x || any rest
         end) l
  | _ => false
  end.

(** The field names of a [path_analysis] rule: the [fields] of regex mode,
    the placeholders of the pattern otherwise. *)
Definition fields_named (path_analysis : value) : result (list string) :=
  (pattern <- py_get path_analysis "pattern" (VStr "") ;;
   has_fields <- py_in "fields" path_analysis ;;
   if has_fields then
     fields <- py_get path_analysis "fields" (VList []) ;;
     Parsers.field_names fields
   else
     encloser <- py_get path_analysis "encloser" (VStr "%") ;;
     matcher <- py_get path_analysis "matcher" (VStr "(.+)") ;;
     pattern_s <- as_str pattern ;;
     encloser_s <- as_str encloser ;;
     matcher_s <- as_str matcher ;;
     Ok (snd (Parsers.lower_placeholder (Parsers.to_posix pattern_s)
                encloser_s matcher_s)))%result.

Definition spec_fields (rules : dict) : list string :=
  match path_analysis_of rules with
  | Some path_analysis =>
      match fields_named path_analysis with
      | Ok names => names
      | Raise _ => []
      end
  | None => []
  end.

(** The field asks for an [ignore] key below its first component, as
    [entities.ignore] does; [ignore] itself and [ignore.x] do not. *)
Definition ignore_below (field : string) : bool :=
  existsb (String.eqb "ignore") (tl (Parsers.dot_path field)).

(** No value below the top level has an [ignore] key. *)
Definition clean_below (d : dict) : Prop :=
  Forall (fun kv => mentions_key "ignore" (snd kv) = false) d.

(** A document without an [ignore] key stays without one, in any section. *)
Definition no_ignore_anywhere (path : string) (rules : dict) : Prop :=
  mentions_key "ignore" (VDict rules) = false ->
  forall doc, get_info_from_path path rules = Ok doc ->
              mentions_key "ignore" (VDict doc) = false.

End PathClaims.

(** ** Statements about the pipeline and the batch driver *)

Module PipelineClaims.
Import Doc World Collab Rules.

Section WithEnv.
Context (E : Env).

(** The line printed for a command that raised has the text of the command
    and the traceback in it. *)
Definition logged_with (command traceback line : string) : Prop :=
  OsPath.contains command line = true /\ OsPath.contains traceback line = true.

(** [n] commands run from position [i] of the list, as the spec describes
    them: each is the element at the next position of the list and is run
    on what the previous one left; one that raises is logged on the standard
    output with its text and its traceback, and the next one follows. *)
Inductive hooks_steps
  : nat -> nat -> frame (raw E) -> world -> frame (raw E) -> world -> Prop :=
| hooks_none i fr w : hooks_steps 0 i fr w fr w
| hooks_pass n i c fr w fr1 w1 fr2 w2 :
    nth_error (fr_commands fr) i = Some (VStr c) ->
    exec_command E c fr w = (None, fr1, w1) ->
    hooks_steps n (S i) fr1 w1 fr2 w2 ->
    hooks_steps (S n) i fr w fr2 w2
| hooks_fail n i c fr w traceback fr1 w1 line fr2 w2 :
    nth_error (fr_commands fr) i = Some (VStr c) ->
    exec_command E c fr w = (Some traceback, fr1, w1) ->
    logged_with c traceback line ->
    hooks_steps n (S i) fr1
      (mk_world (files w1) (dirs w1) (stdout w1 ++ [line])) fr2 w2 ->
    hooks_steps (S n) i fr w fr2 w2.

(** The commands leave the list they are taken from as it is. *)
Definition commands_fixed : Prop :=
  forall c fr w, fr_commands (snd (fst (exec_command E c fr w))) = fr_commands fr.

(** The commands leave the rule document and the entities as they are. *)
Definition rules_untouched : Prop :=
  forall c fr w,
    fr_rules (snd (fst (exec_command E c fr w))) = fr_rules fr
    /\ fr_entities (snd (fst (exec_command E c fr w))) = fr_entities fr.

(** The commands of a [code_execution] rule: a string is one command. *)
Definition code_commands (code : value) : option (list string) :=
  match code with
  | VStr s => Some [s]
  | VList l =>
      match Parsers.strings_of l with
      | Ok ss => Some ss
      | Raise _ => None
      end
  | _ => None
  end.

(** The dry runs of a batch, file after file. *)
Inductive converted (rules_ : value) (bids_root : string)
  : list string -> world -> list dict -> world -> Prop :=
| converted_nil w : converted rules_ bids_root [] w [] w
| converted_cons f fs w m p w1 ms w2 :
    apply_rules_to_single_file E f rules_ bids_root false false w
    = (Ok (m, p), w1) ->
    converted rules_ bids_root fs w1 ms w2 ->
    converted rules_ bids_root (f :: fs) w (m :: ms) w2.


(** The per-file records of a mapping document. *)
Definition individual (mapping_data : value) : list value :=
  match mapping_data with
  | VDict d =>
      match dict_get "Individual" d with
      | Some (VList l) => l
      | _ => []
      end
  | _ => []
  end.

(** [rules__] after line 183: a single command has become a list. *)
Definition listed (rules__ non_bids : dict) (code : value) : dict :=
  match code with
  | VStr s =>
      dict_set "non-bids"
        (VDict (dict_set "code_execution" (VList [VStr s]) non_bids)) rules__
  | _ => rules__
  end.

(** What the commands find when the loop starts: the recording, the
    document with its commands as a list, the entities, and the commands. *)
Definition first_frame (rules__ : dict) (entities : value) (r : raw E)
    (non_bids : dict) (code : value) (commands : list string)
  : frame (raw E) :=
  mk_frame r (listed rules__ non_bids code) entities (map VStr commands).


(** A preview leaves under the root only what was there before it ran,
    however it ends. *)
Definition preview_leaves_no_file (file : string) (rules : value)
    (bids_root : string) (w : world) : Prop :=
  forall p,
    In p (_get_files bids_root
            (snd (apply_rules_to_single_file E file rules bids_root false true w))) ->
    In p (_get_files bids_root w).

(** The batch goes on after a file has failed and writes the mapping
    file. *)
Definition batch_survives_failure (source_path : value) (bids_root : string)
    (rules : value) (mapping_path : string) (w : world) : Prop :=
  exists data w',
    apply_rules E source_path bids_root rules mapping_path w = (Ok data, w')
    /\ files w' !! full_rules_path bids_root mapping_path = Some data.


End WithEnv.

(** Rules without entities, rules without a [non-bids] section, and rules
    whose dataset description is not a mapping. *)
Definition rules_without_entities : dict :=
  [("sidecar", VDict [("PowerLineFrequency", VInt 50)]);
   ("non-bids", VDict [("eeg_extension", VStr "vhdr")])].

Definition rules_without_non_bids : dict :=
  [("entities", VDict [("subject", VStr "01"); ("task", VStr "rest")])].

(** Rules with a command that changes the subject. *)
Definition rules_with_hook : dict :=
  [("entities", VDict [("task", VStr "unknown")]);
   ("non-bids", VDict [("path_analysis", Bench.path_rules);
                       ("code_execution",
                        VList [VStr "raw.no_such_method()";
                               VStr "entities['subject'] = '99'"])])].

Definition rules_with_bad_description : dict :=
  [("entities", VDict [("task", VStr "rest")]);
   ("dataset_description", VStr "demo");
   ("non-bids", VDict [("path_analysis", Bench.path_rules)])].

(** The two recordings of [Bench.disk] and their dry runs. *)
Definition bench_paths : list string :=
  ["data/sub-01/rest.vhdr"; "data/sub-02/rest.vhdr"].


Definition bench_record (subject target : string) : dict :=
  [("entities", VDict [("task", VStr "rest"); ("subject", VStr subject)]);
   ("sidecar", VDict [("PowerLineFrequency", VInt 50)]);
   ("non-bids", VDict [("eeg_extension", VStr "vhdr");
                       ("path_analysis", Bench.path_rules);
                       ("code_execution",
                        VList [VStr "raw.no_such_method()"])]);
   ("IO", VDict [("target", VStr target);
                 ("source", VStr ("data/sub-" +:+ subject +:+ "/rest.vhdr"))])].

Definition bench_records : list dict :=
  [bench_record "01" "out/sub-01_eeg.vhdr";
   bench_record "02" "out/sub-02_eeg.vhdr"].

(** A preview of the first recording, and what it shows. *)
Definition bench_preview : result (dict * value) * world :=
  apply_rules_to_single_file Bench.bench "data/sub-01/rest.vhdr"
    (VDict Bench.rules) "out" false true Bench.disk.

Definition bench_preview_doc : value :=
  VDict [("IO", VDict [("target", VStr "out/sub-01");
                       ("source", VStr "data/sub-01/rest.vhdr")]);
         ("entities", VDict [("task", VStr "rest"); ("subject", VStr "01")]);
         ("dataset_description", VStr "{}");
         ("sidecar", VStr "{}");
         ("channels", VDict [("name", VStr "Cz"); ("type", VStr "EEG")])].

End PipelineClaims.

(** ** Statements about what a run leaves alone *)

Module ExtraClaims.
Import Doc World Collab.

(** A computation that leaves the files as they were, however it ends. *)
Definition keeps_files {A} (m : M A) : Prop :=
  forall w, files (snd (m w)) = files w.

(** The bench with commands and a dataset description that write nothing. *)
Definition quiet_exec (command : string) (fr : frame string) (w : world)
  : option string * frame string * world :=
  if String.eqb command "pass" then (None, fr, w)
  else (Some ("NameError: " +:+ command), fr, w).

Definition quiet : Env := {|
  raw := raw Bench.bench;
  bids_path := bids_path Bench.bench;
  table := table Bench.bench;
  in_NULL_VALUES := in_NULL_VALUES Bench.bench;
  SUPPORTED_EXTENSIONS := SUPPORTED_EXTENSIONS Bench.bench;
  read_raw := read_raw Bench.bench;
  set_line_freq := set_line_freq Bench.bench;
  rename_channels := rename_channels Bench.bench;
  ch_type_mapping := ch_type_mapping Bench.bench;
  set_channel_types := set_channel_types Bench.bench;
  exec_command := quiet_exec;
  rounds := rounds Bench.bench;
  BIDSPath := BIDSPath Bench.bench;
  root := root Bench.bench;
  fpath := fpath Bench.bench;
  update := update Bench.bench;
  times_last := times_last Bench.bench;
  last_samp := last_samp Bench.bench;
  crop := crop Bench.bench;
  filenames0 := filenames0 Bench.bench;
  handle_datatype := handle_datatype Bench.bench;
  parse_ext := parse_ext Bench.bench;
  write_raw_bids := write_raw_bids Bench.bench;
  update_dataset_description := fun _ _ _ => ret tt;
  json_text := json_text Bench.bench;
  read_csv := read_csv Bench.bench;
  table_set_type := table_set_type Bench.bench;
  to_csv := to_csv Bench.bench;
  to_dict := to_dict Bench.bench
|}.

End ExtraClaims.
(** ** Facts about rule documents *)

Module DocFacts.
Import Doc.

(** Induction over values that reaches the entries of sequences and
    mappings. *)
Lemma value_nested_ind (P : value -> Prop) :
  P VNone -> (forall b, P (VBool b)) -> (forall z, P (VInt z)) ->
  (forall s, P (VStr s)) ->
  (forall l, Forall P l -> P (VList l)) ->
  (forall d, Forall (fun kv => P (snd kv)) d -> P (VDict d)) ->
  forall v, P v.
Proof.
  intros Hnone Hbool Hint Hstr Hlist Hdict.
  fix IH 1. intros [ | b | z | s | l | d].
  - exact Hnone.
  - apply Hbool.
  - apply Hint.
  - apply Hstr.
  - apply Hlist. induction l as [|x l IHl]; constructor; [apply IH | exact IHl].
  - apply Hdict. induction d as [|[k x] d IHd]; constructor;
      [apply IH | exact IHd].
Qed.

Lemma eqb_refl_str k : String.eqb k k = true.
Proof. apply String.eqb_refl. Qed.

Lemma dict_get_set_eq k v d : dict_get k (dict_set k v d) = Some v.
Proof.
  induction d as [|[k' v'] d IH]; simpl.
  - now rewrite String.eqb_refl.
  - destruct (String.eqb k k') eqn:Hk; simpl; rewrite Hk; [reflexivity | exact IH].
Qed.

Lemma dict_get_set_ne k k' v d :
  k <> k' -> dict_get k' (dict_set k v d) = dict_get k' d.
Proof.
  intros Hne. induction d as [|[k0 v0] d IH]; simpl.
  - destruct (String.eqb k' k) eqn:Hk; [|reflexivity].
    apply String.eqb_eq in Hk. congruence.
  - destruct (String.eqb k k0) eqn:Hk; simpl.
    + apply String.eqb_eq in Hk. subst k0.
      destruct (String.eqb k' k) eqn:Hk'; [|reflexivity].
      apply String.eqb_eq in Hk'. congruence.
    + now rewrite IH.
Qed.

Lemma dict_get_del_eq k d : dict_get k (dict_del k d) = None.
Proof.
  induction d as [|[k' v'] d IH]; simpl; [reflexivity|].
  destruct (String.eqb k k') eqn:Hk; simpl; [exact IH | now rewrite Hk].
Qed.

Lemma dict_get_del_ne k k' d :
  k <> k' -> dict_get k' (dict_del k d) = dict_get k' d.
Proof.
  intros Hne. induction d as [|[k0 v0] d IH]; simpl; [reflexivity|].
  destruct (String.eqb k k0) eqn:Hk; simpl.
  - apply String.eqb_eq in Hk. subst k0.
    destruct (String.eqb k' k) eqn:Hk'; [|exact IH].
    apply String.eqb_eq in Hk'. congruence.
  - now rewrite IH.
Qed.

Lemma dict_has_del k d : dict_has k (dict_del k d) = false.
Proof. unfold dict_has. now rewrite dict_get_del_eq. Qed.

Lemma dict_get_None_keys k d : dict_get k d = None <-> ~ In k (keys d).
Proof.
  induction d as [|[k' v'] d IH]; simpl.
  - tauto.
  - destruct (String.eqb k k') eqn:Hk.
    + apply String.eqb_eq in Hk. subst. split; [discriminate | tauto].
    + apply String.eqb_neq in Hk. rewrite IH. split.
      * intros H [H1 | H1]; [congruence | tauto].
      * tauto.
Qed.

Lemma dict_get_In k v d : dict_get k d = Some v -> In (k, v) d.
Proof.
  induction d as [|[k' v'] d IH]; simpl; [discriminate|].
  destruct (String.eqb k k') eqn:Hk.
  - apply String.eqb_eq in Hk. intros [= ->]. subst. now left.
  - intros H. right. now apply IH.
Qed.

(** The keys after an assignment: unchanged for a key already there, one
    more at the end otherwise. *)
Lemma keys_dict_set k v d :
  keys (dict_set k v d) = if dict_has k d then keys d else keys d ++ [k].
Proof.
  unfold dict_has. induction d as [|[k' v'] d IH]; simpl; [reflexivity|].
  destruct (String.eqb k k') eqn:Hk; simpl; [reflexivity|].
  rewrite IH. now destruct (dict_get k d).
Qed.

Lemma NoDup_keys_dict_set k v d : NoDup (keys d) -> NoDup (keys (dict_set k v d)).
Proof.
  intros Hnd. rewrite keys_dict_set. unfold dict_has.
  destruct (dict_get k d) eqn:Hg; [exact Hnd|].
  apply dict_get_None_keys in Hg.
  apply NoDup_app; repeat split; auto.
  - intros x Hx Hx'. apply list_elem_of_In in Hx, Hx'. simpl in Hx'.
    destruct Hx' as [<- | []]. contradiction.
  - apply NoDup_singleton.
Qed.

Lemma Forall_dict_set (P : value -> Prop) k v d :
  P v -> Forall (fun kv => P (snd kv)) d ->
  Forall (fun kv => P (snd kv)) (dict_set k v d).
Proof.
  intros Hv. induction 1 as [|[k' v'] d Hh Ht IH]; simpl.
  - constructor; [exact Hv | constructor].
  - destruct (String.eqb k k'); constructor; auto.
Qed.

Lemma Forall_dict_get (P : value -> Prop) k v d :
  Forall (fun kv => P (snd kv)) d -> dict_get k d = Some v -> P v.
Proof.
  intros HF Hg. apply dict_get_In in Hg.
  rewrite Forall_forall in HF. apply list_elem_of_In in Hg. exact (HF _ Hg).
Qed.

Lemma keys_dict_del k d : NoDup (keys d) -> NoDup (keys (dict_del k d)).
Proof.
  induction d as [|[k' v'] d IH]; simpl; intros Hnd; [constructor|].
  apply NoDup_cons in Hnd as [Hni Hnd].
  destruct (String.eqb k k'); [now apply IH|]. simpl.
  apply NoDup_cons. split; [|now apply IH].
  intros Hin. apply Hni. apply list_elem_of_In in Hin. apply list_elem_of_In.
  clear -Hin. induction d as [|[k0 v0] d IHd]; simpl in *; [tauto|].
  destruct (String.eqb k k0); simpl in *; tauto.
Qed.

Lemma Forall_dict_del (P : value -> Prop) k d :
  Forall (fun kv => P (snd kv)) d -> Forall (fun kv => P (snd kv)) (dict_del k d).
Proof.
  induction 1 as [|[k' v'] d Hh Ht IH]; simpl; [constructor|].
  destruct (String.eqb k k'); [exact IH | constructor; auto].
Qed.

(** The local loop of [deep_merge] is [merge_into]. *)
Lemma deep_merge_dicts ka kb :
  deep_merge (VDict ka) (VDict kb) = VDict (merge_into kb ka).
Proof.
  reflexivity.
Qed.

Lemma deep_merge_not_dict_r a b : is_dict b = false -> deep_merge a b = b.
Proof. destruct b; simpl; congruence. Qed.

Lemma deep_merge_not_dict_l a b : is_dict a = false -> deep_merge a b = b.
Proof. destruct b; simpl; try reflexivity. destruct a; simpl; congruence. Qed.

Lemma merge_into_other k kb acc :
  dict_get k kb = None -> dict_get k (merge_into kb acc) = dict_get k acc.
Proof.
  revert acc. induction kb as [|[k' vb] kb IH]; intros acc; simpl; [reflexivity|].
  destruct (String.eqb k k') eqn:Hk; [discriminate|].
  intros Hg. rewrite IH by exact Hg. apply dict_get_set_ne.
  apply String.eqb_neq in Hk. congruence.
Qed.

Lemma merge_into_key k vb kb acc :
  NoDup (keys kb) -> dict_get k kb = Some vb ->
  dict_get k (merge_into kb acc) = Some (merged_entry (dict_get k acc) vb).
Proof.
  revert acc. induction kb as [|[k' vb'] kb IH]; intros acc Hnd; simpl;
    [discriminate|].
  apply NoDup_cons in Hnd as [Hni Hnd].
  destruct (String.eqb k k') eqn:Hk.
  - apply String.eqb_eq in Hk. subst k'. intros [= ->].
    rewrite merge_into_other.
    + now rewrite dict_get_set_eq.
    + apply dict_get_None_keys. intros Hin. apply Hni. now apply list_elem_of_In.
  - intros Hg. rewrite (IH _ Hnd Hg). rewrite dict_get_set_ne; [reflexivity|].
    apply String.eqb_neq in Hk. congruence.
Qed.

Lemma dict_has_merge_into k kb acc :
  dict_has k (merge_into kb acc) = dict_has k acc || dict_has k kb.
Proof.
  unfold dict_has. revert acc.
  induction kb as [|[k' vb] kb IH]; intros acc; simpl.
  - now rewrite orb_false_r.
  - rewrite IH. destruct (String.eqb k k') eqn:Hk.
    + apply String.eqb_eq in Hk. subst. rewrite dict_get_set_eq.
      simpl. now rewrite orb_true_r.
    + rewrite dict_get_set_ne; [reflexivity|].
      apply String.eqb_neq in Hk. congruence.
Qed.

Lemma no_repeat_NoDup l : no_repeat l = true -> NoDup l.
Proof.
  induction l as [|k l IH]; simpl; intros H; [constructor|].
  apply andb_prop in H as [Hk H]. apply NoDup_cons. split; [|now apply IH].
  intros Hin. apply negb_true_iff in Hk.
  assert (Hex : existsb (String.eqb k) l = true).
  { apply existsb_exists. exists k. split; [now apply list_elem_of_In|].
    apply String.eqb_refl. }
  congruence.
Qed.

Lemma wf_valueb_sound v : wf_valueb v = true -> wf_value v.
Proof.
  induction v as [ | | | | l IH | d IH] using value_nested_ind;
    intros H; try constructor.
  - simpl in H. induction l as [|x l IHl]; [constructor|].
    apply andb_prop in H as [Hx H]. apply Forall_cons in IH as [IHx IH].
    constructor; auto.
  - simpl in H. apply andb_prop in H as [H _]. now apply no_repeat_NoDup.
  - simpl in H. apply andb_prop in H as [_ H].
    induction d as [|[k x] d IHd]; [constructor|].
    apply andb_prop in H as [Hx H]. apply Forall_cons in IH as [IHx IH].
    constructor; auto.
Qed.

Lemma wf_dict_inv d :
  wf_value (VDict d) -> NoDup (keys d) /\ Forall (fun kv => wf_value (snd kv)) d.
Proof. inversion 1; auto. Qed.

(** Merging documents without repeated keys gives one. *)
Lemma wf_deep_merge b : forall a, wf_value a -> wf_value b -> wf_value (deep_merge a b).
Proof.
  induction b as [ | | | | l _ | kb IH] using value_nested_ind;
    intros a Ha Hb; try exact Hb.
  destruct a as [ | | | | | ka]; try exact Hb.
  rewrite deep_merge_dicts.
  apply wf_dict_inv in Hb as [_ Hb].
  revert ka Ha. induction kb as [|[k vb] kb IHkb]; intros ka Ha; simpl.
  - exact Ha.
  - apply Forall_cons in IH as [IHv IHrest]. apply Forall_cons in Hb as [Hvb Hb].
    simpl in *. apply IHkb; auto.
    apply wf_dict_inv in Ha as [Hnd HF].
    constructor.
    + now apply NoDup_keys_dict_set.
    + apply Forall_dict_set; [|exact HF].
      destruct (dict_get k ka) eqn:Hg; [|exact Hvb].
      apply IHv; [|exact Hvb]. eapply Forall_dict_get; eauto.
Qed.

Lemma wf_merge_into kb acc :
  wf_value (VDict acc) -> wf_value (VDict kb) -> wf_value (VDict (merge_into kb acc)).
Proof. intros Ha Hb. rewrite <- deep_merge_dicts. now apply wf_deep_merge. Qed.

(** A copy: merging a document into the empty one gives it back. *)
Lemma merge_into_app kb : forall acc,
  NoDup (keys acc ++ keys kb) -> merge_into kb acc = acc ++ kb.
Proof.
  induction kb as [|[k vb] kb IH]; intros acc Hnd; simpl.
  - now rewrite app_nil_r.
  - assert (Hk : dict_get k acc = None).
    { apply dict_get_None_keys. intros Hin.
      apply NoDup_app in Hnd as (_ & Hdisj & _).
      apply (Hdisj k); [now apply list_elem_of_In | simpl; left]. }
    rewrite Hk.
    assert (Hset : dict_set k vb acc = acc ++ [(k, vb)]).
    { clear -Hk. induction acc as [|[k' v'] acc IHa]; simpl in *; [reflexivity|].
      destruct (String.eqb k k'); [discriminate|]. now rewrite IHa. }
    rewrite Hset, IH.
    + now rewrite <- app_assoc.
    + unfold keys in *. rewrite map_app. simpl. rewrite <- app_assoc. exact Hnd.
Qed.

Lemma merge_into_nil kb : NoDup (keys kb) -> merge_into kb [] = kb.
Proof. intros H. now rewrite merge_into_app. Qed.

Lemma absent_in_lookup p : forall v, absent_in p v = true -> lookup_path p v = None.
Proof.
  induction p as [|k p IH]; intros v; simpl; [discriminate|].
  destruct v; try discriminate. destruct (dict_get k kvs); [apply IH | reflexivity].
Qed.

(** Right bias: a leaf of the later document is a leaf of the merge. *)
Lemma deep_merge_right_bias p : forall a b v,
  wf_value b -> lookup_path p b = Some v -> is_dict v = false ->
  lookup_path p (deep_merge a b) = Some v.
Proof.
  induction p as [|k p IH]; intros a b v Hwf Hl Hleaf; simpl in *.
  - injection Hl as ->. now rewrite deep_merge_not_dict_r.
  - destruct b as [ | | | | | kb]; try discriminate.
    destruct (dict_get k kb) as [vb|] eqn:Hg; [|discriminate].
    apply wf_dict_inv in Hwf as [Hnd HF].
    destruct a as [ | | | | | ka]; try (simpl; now rewrite Hg).
    rewrite deep_merge_dicts.
    rewrite (merge_into_key _ _ _ _ Hnd Hg).
    assert (Hvb : wf_value vb) by (eapply Forall_dict_get; eauto).
    unfold merged_entry. destruct (dict_get k ka); [now apply IH | exact Hl].
Qed.

(** What the later document does not reach is kept from the earlier one. *)
Lemma deep_merge_preserves p : forall a b,
  wf_value b -> absent_in p b = true ->
  lookup_path p (deep_merge a b) = lookup_path p a.
Proof.
  induction p as [|k p IH]; intros a b Hwf Habs; simpl in *; [discriminate|].
  destruct b as [ | | | | | kb]; try discriminate.
  apply wf_dict_inv in Hwf as [Hnd HF].
  destruct (dict_get k kb) as [vb|] eqn:Hg.
  - assert (Hvb : wf_value vb) by (eapply Forall_dict_get; eauto).
    destruct a as [ | | | | | ka];
      try (simpl; rewrite Hg; now apply absent_in_lookup).
    rewrite deep_merge_dicts, (merge_into_key _ _ _ _ Hnd Hg).
    unfold merged_entry. destruct (dict_get k ka); [now apply IH|].
    now apply absent_in_lookup.
  - destruct a as [ | | | | | ka]; try (simpl; now rewrite Hg).
    rewrite deep_merge_dicts. now rewrite merge_into_other.
Qed.

End DocFacts.
(** ** Facts about the parsers *)

Module ParserFacts.
Import Doc Regex Parsers ParserClaims DocFacts.

Lemma wf_nested ks : forall v, wf_value v -> wf_value (nested ks v).
Proof.
  induction ks as [|k ks IH]; intros v Hv; simpl; [exact Hv|].
  constructor; simpl.
  - apply NoDup_singleton.
  - constructor; [now apply IH | constructor].
Qed.

Lemma wf_group_value c : wf_value (group_value c).
Proof. destruct c; constructor. Qed.

Lemma wf_tree field v : wf_value v -> wf_value (VDict (nested_notation_to_tree field v)).
Proof.
  intros Hv. unfold nested_notation_to_tree.
  destruct (dot_path field) as [|k ks].
  - constructor; constructor.
  - exact (wf_nested (k :: ks) v Hv).
Qed.

Lemma wf_deep_merge_N l :
  Forall (fun d => wf_value (VDict d)) l -> wf_value (VDict (deep_merge_N l)).
Proof.
  unfold deep_merge_N.
  assert (H : forall acc, wf_value (VDict acc) ->
            Forall (fun d => wf_value (VDict d)) l ->
            wf_value (VDict (fold_left deep_merge_dict l acc))).
  { induction l as [|d l IH]; intros acc Hacc HF; simpl; [exact Hacc|].
    apply Forall_cons in HF as [Hd HF]. apply IH; [|exact HF].
    unfold deep_merge_dict. now apply wf_merge_into. }
  apply H. constructor; constructor.
Qed.

Lemma wf_field_trees names : forall caps,
  Forall (fun d => wf_value (VDict d)) (field_trees names caps).
Proof.
  induction names as [|n names IH]; intros [|c caps]; simpl; try constructor.
  - apply wf_tree, wf_group_value.
  - apply IH.
Qed.

(** What regex mode returns has no repeated key. *)
Lemma wf_parse_from_regex string pattern fields doc :
  parse_from_regex string pattern fields = Ok doc -> wf_value (VDict doc).
Proof.
  unfold parse_from_regex.
  destruct (field_names fields) as [names|]; [|discriminate].
  destruct (compile pattern) as [[r n]|]; [|discriminate].
  destruct (negb (n =? length names)%nat); [discriminate|].
  destruct (locate string pattern) as [[[[n' pos] rest] caps]|]; [|discriminate].
  intros [= <-]. apply wf_deep_merge_N, wf_field_trees.
Qed.

Lemma wf_parse_from_placeholder string pattern encloser matcher doc :
  parse_from_placeholder string pattern encloser matcher = Ok doc ->
  wf_value (VDict doc).
Proof.
  unfold parse_from_placeholder.
  destruct (lower_placeholder (to_posix pattern) encloser matcher) as [rx names].
  apply wf_parse_from_regex.
Qed.

(** [search_from] stops at the first position where the pattern matches. *)
Lemma search_from_leftmost n r : forall s pos pos' rest caps,
  search_from n r pos s = Some (pos', rest, caps) ->
  (pos <= pos')%nat
  /\ match_at n r (drop (pos' - pos) s) = Some (rest, caps)
  /\ forall k, (k < pos' - pos)%nat -> match_at n r (drop k s) = None.
Proof.
  induction s as [|c s IH]; intros pos pos' rest caps; simpl.
  - destruct (match_at n r []) as [[rest0 caps0]|] eqn:Hm; [|discriminate].
    intros [= <- <- <-]. rewrite Nat.sub_diag. simpl.
    repeat split; [lia | exact Hm | intros k Hk; lia].
  - destruct (match_at n r (c :: s)) as [[rest0 caps0]|] eqn:Hm.
    + intros [= <- <- <-]. rewrite Nat.sub_diag. simpl.
      repeat split; [lia | exact Hm | intros k Hk; lia].
    + intros Hs. apply IH in Hs as (Hle & Hat & Hbefore).
      replace (pos' - pos)%nat with (S (pos' - S pos)) by lia. simpl.
      repeat split; [lia | exact Hat |].
      intros [|k] Hk; simpl; [exact Hm | apply Hbefore; lia].
Qed.

Lemma chars_append a b :
  list_ascii_of_string (a +:+ b) = list_ascii_of_string a ++ list_ascii_of_string b.
Proof. induction a as [|c a IH]; simpl; [reflexivity | now rewrite IH]. Qed.
















End ParserFacts.

(** ** Facts about the state-and-error monad and the files *)

Module WorldFacts.
Import Doc World.

Lemma bind_ok_inv {A B} (m : M A) (k : A -> M B) w b w' :
  bind m k w = (Ok b, w') ->
  exists a w1, m w = (Ok a, w1) /\ k a w1 = (Ok b, w').
Proof.
  unfold bind. destruct (m w) as [[a|e] w1]; [|discriminate].
  intros H. now exists a, w1.
Qed.

Lemma bind_ok {A B} (m : M A) (k : A -> M B) w a w1 :
  m w = (Ok a, w1) -> bind m k w = k a w1.
Proof. unfold bind. now intros ->. Qed.

Lemma bind_raise {A B} (m : M A) (k : A -> M B) w e w1 :
  m w = (Raise e, w1) -> bind m k w = (Raise e, w1).
Proof. unfold bind. now intros ->. Qed.

Lemma lift_ok_inv {A} (r : result A) w a w' :
  lift r w = (Ok a, w') -> r = Ok a /\ w' = w.
Proof. unfold lift. now intros [= -> ->]. Qed.

Lemma ret_inv {A} (x a : A) w w' : ret x w = (Ok a, w') -> a = x /\ w' = w.
Proof. unfold ret. now intros [= -> ->]. Qed.

Lemma raise_not_ok {A} e w (a : A) w' : raise e w = (Ok a, w') -> False.
Proof. discriminate. Qed.

(** A [try] with a handler that cannot raise does not raise. *)
Lemma try_except_total {A} (m : M A) (x : A) w :
  exists a w', try_except m (ret x) w = (Ok a, w').
Proof.
  unfold try_except, ret. destruct (m w) as [[a|e] w1]; eauto.
Qed.

(** Splitting a monadic equation along its binds. *)
Ltac inv_bind H :=
  let a := fresh "a" in
  let w := fresh "w" in
  let H1 := fresh "Hstep" in
  apply bind_ok_inv in H as (a & w & H1 & H).

Lemma elem_of_get_files root w p :
  In p (_get_files root w) <-> under root p = true /\ is_Some (files w !! p).
Proof.
  unfold _get_files. rewrite filter_In, in_map_iff. split.
  - intros [([p' v] & <- & Hin) Hu]. split; [exact Hu|].
    apply list_elem_of_In, elem_of_map_to_list in Hin. simpl. eauto.
  - intros [Hu [v Hv]]. split; [|exact Hu].
    exists (p, v). split; [reflexivity|].
    apply list_elem_of_In, elem_of_map_to_list. exact Hv.
Qed.

(** Removing files removes them and nothing else. *)
Lemma files_remove_all paths : forall w q,
  files (remove_all paths w) !! q
  = if bool_decide (q ∈ paths) then None else files w !! q.
Proof.
  induction paths as [|p paths IH]; intros w q.
  - rewrite bool_decide_eq_false_2 by apply not_elem_of_nil. reflexivity.
  - change (remove_all (p :: paths) w)
      with (remove_all paths
              (if exists_path p w then with_files (delete p (files w)) w else w)).
    rewrite IH. destruct (bool_decide (q ∈ paths)) eqn:Hq.
    + apply bool_decide_eq_true in Hq.
      rewrite bool_decide_eq_true_2 by (apply elem_of_cons; tauto). reflexivity.
    + apply bool_decide_eq_false in Hq.
      destruct (decide (p = q)) as [->|Hne].
      * rewrite bool_decide_eq_true_2 by (apply elem_of_cons; tauto).
        unfold exists_path, is_file.
        destruct (files w !! q) as [v|] eqn:Hv.
        -- rewrite bool_decide_eq_true_2 by eauto. simpl.
           apply lookup_delete_eq.
        -- destruct (bool_decide _ || is_dir q w); simpl;
             [apply lookup_delete_eq | exact Hv].
      * rewrite bool_decide_eq_false_2
          by (rewrite elem_of_cons; intros [?|?]; congruence).
        destruct (exists_path p w); simpl; [|reflexivity].
        now apply lookup_delete_ne.
Qed.

Lemma dirs_remove_all paths : forall w, dirs (remove_all paths w) = dirs w.
Proof.
  induction paths as [|p paths IH]; intros w; simpl; [reflexivity|].
  rewrite IH. now destruct (exists_path p w).
Qed.

End WorldFacts.

(** ** Facts about paths *)

Module OsPathFacts.
Import OsPath.

Lemma take_while_app f a b :
  forallb f a = true ->
  match b with [] => True | c :: _ => f c = false end ->
  take_while f (a ++ b) = a.
Proof.
  intros Ha Hb. induction a as [|x a IH]; simpl in *.
  - destruct b as [|c b]; simpl; [reflexivity | now rewrite Hb].
  - apply andb_prop in Ha as [Hx Ha]. rewrite Hx. now rewrite IH.
Qed.

Lemma drop_while_app f a b :
  forallb f a = true ->
  match b with [] => True | c :: _ => f c = false end ->
  drop_while f (a ++ b) = b.
Proof.
  intros Ha Hb. induction a as [|x a IH]; simpl in *.
  - destruct b as [|c b]; simpl; [reflexivity | now rewrite Hb].
  - apply andb_prop in Ha as [Hx Ha]. rewrite Hx. now apply IH.
Qed.

Lemma take_while_all f s : forallb f (take_while f s) = true.
Proof.
  induction s as [|c s IH]; simpl; [reflexivity|].
  destruct (f c) eqn:Hc; simpl; [now rewrite Hc | reflexivity].
Qed.

Lemma drop_while_head f s :
  match drop_while f s with [] => True | c :: _ => f c = false end.
Proof.
  induction s as [|c s IH]; simpl; [exact I|].
  destruct (f c) eqn:Hc; [exact IH | exact Hc].
Qed.

Lemma drop_while_nil f s : drop_while f s = [] -> forallb f s = true.
Proof.
  induction s as [|c s IH]; simpl; [reflexivity|].
  destruct (f c); [exact IH | discriminate].
Qed.

Lemma drop_while_all f s : forallb f s = true -> drop_while f s = [].
Proof.
  induction s as [|c s IH]; simpl; [reflexivity|].
  destruct (f c); simpl; [exact IH | discriminate].
Qed.

Lemma forallb_rev {A} (f : A -> bool) l : forallb f (rev l) = forallb f l.
Proof.
  induction l as [|x l IH]; simpl; [reflexivity|].
  rewrite forallb_app, IH. simpl. rewrite andb_true_r. apply andb_comm.
Qed.

Lemma split_chars_tail_plain p :
  forallb (fun c => negb (is_slash c)) (snd (split_chars p)) = true.
Proof.
  unfold split_chars. simpl. rewrite forallb_rev. apply take_while_all.
Qed.

Lemma split_chars_head_tidy p : fst (split_chars p) <> [] -> tidy (fst (split_chars p)).
Proof.
  unfold split_chars, tidy. simpl.
  set (head_r := drop_while (fun c => negb (is_slash c)) (rev p)).
  pose proof (drop_while_head is_slash head_r) as Hhead.
  destruct (drop_while is_slash head_r) as [|c stripped] eqn:Hs.
  - intros Hne. rewrite rev_involutive.
    destruct head_r as [|l head_r']; [now contradiction Hne|].
    right. rewrite forallb_rev. now apply drop_while_nil.
  - intros _. rewrite rev_involutive. now left.
Qed.

(** The directory of a name joined to a tidy folder is the folder. *)
Lemma split_join_chars folder name :
  tidy folder -> plain_name name ->
  fst (split_chars (join_chars folder name)) = folder.
Proof.
  unfold tidy. intros Ht [Hne Hplain].
  destruct name as [|c name]; [now contradiction Hne|].
  assert (Hc : is_slash c = false).
  { simpl in Hplain. apply andb_prop in Hplain as [Hc _].
    now apply negb_true_iff in Hc. }
  unfold join_chars. rewrite Hc.
  destruct (rev folder) as [|l rest] eqn:Hrev; [contradiction|].
  assert (Hplain_rev :
            forallb (fun c => negb (is_slash c)) (rev (c :: name)) = true)
    by now rewrite forallb_rev.
  destruct (is_slash l) eqn:Hl.
  - destruct Ht as [Ht|Hall]; [discriminate|].
    unfold split_chars. cbn [fst].
    rewrite rev_app_distr.
    assert (Hall_rev : forallb is_slash (rev folder) = true)
      by now rewrite forallb_rev.
    rewrite drop_while_app; [| exact Hplain_rev | rewrite Hrev; now rewrite Hl].
    rewrite (drop_while_all _ _ Hall_rev). apply rev_involutive.
  - unfold split_chars. cbn [fst].
    rewrite rev_app_distr. cbn [rev]. rewrite <- app_assoc. cbn [app].
    rewrite Hrev.
    rewrite drop_while_app; [| exact Hplain_rev | reflexivity].
    cbn [drop_while]. change (is_slash slash) with true. cbv iota.
    cbn [drop_while]. rewrite Hl. rewrite <- Hrev. apply rev_involutive.
Qed.

(** ... and its last component is the name. *)
Lemma split_join_chars_tail folder name :
  tidy folder -> plain_name name ->
  snd (split_chars (join_chars folder name)) = name.
Proof.
  unfold tidy. intros Ht [Hne Hplain].
  destruct name as [|c name]; [now contradiction Hne|].
  assert (Hc : is_slash c = false).
  { simpl in Hplain. apply andb_prop in Hplain as [Hc _].
    now apply negb_true_iff in Hc. }
  unfold join_chars. rewrite Hc.
  destruct (rev folder) as [|l rest] eqn:Hrev; [contradiction|].
  assert (Hplain_rev :
            forallb (fun c => negb (is_slash c)) (rev (c :: name)) = true)
    by now rewrite forallb_rev.
  destruct (is_slash l) eqn:Hl.
  - unfold split_chars. cbn [snd]. rewrite rev_app_distr.
    rewrite take_while_app;
      [apply rev_involutive | exact Hplain_rev | rewrite Hrev; now rewrite Hl].
  - unfold split_chars. cbn [snd].
    rewrite rev_app_distr. cbn [rev]. rewrite <- app_assoc. cbn [app].
    rewrite take_while_app;
      [exact (rev_involutive (c :: name)) | exact Hplain_rev | reflexivity].
Qed.

Lemma split_join folder name :
  tidy (list_ascii_of_string folder) -> plain_name (list_ascii_of_string name) ->
  split (join folder name) = (folder, name).
Proof.
  intros Ht Hn. unfold split, join.
  rewrite list_ascii_of_string_of_list_ascii.
  pose proof (split_join_chars _ _ Ht Hn) as Hh.
  pose proof (split_join_chars_tail _ _ Ht Hn) as Htl.
  destruct (split_chars _) as [h t]. simpl in *. subst h t.
  now rewrite !string_of_list_ascii_of_string.
Qed.

Lemma string_nil_iff l : String.eqb (string_of_list_ascii l) "" = true <-> l = [].
Proof.
  destruct l; simpl; split; try reflexivity; discriminate.
Qed.


Lemma join_chars_suffix a b :
  match b with [] => False | c :: _ => is_slash c = false end ->
  exists x, join_chars a b = x ++ b.
Proof.
  destruct b as [|c b]; [contradiction|]. intros Hc.
  unfold join_chars. rewrite Hc.
  destruct (rev a) as [|l rest]; [now exists []|].
  destruct (is_slash l); [now exists a|].
  exists (a ++ [slash]). now rewrite <- app_assoc.
Qed.

(** [<root>/code/sovabids] is tidy, whatever the root. *)
Lemma default_folder_tidy bids_root :
  tidy (list_ascii_of_string (join (join bids_root "code") "sovabids")).
Proof.
  unfold join at 1. rewrite list_ascii_of_string_of_list_ascii.
  destruct (join_chars_suffix
              (list_ascii_of_string (join bids_root "code"))
              (list_ascii_of_string "sovabids")) as [x ->]; [reflexivity|].
  unfold tidy. rewrite rev_app_distr. simpl. now left.
Qed.

End OsPathFacts.

(** ** The regex and placeholder modes *)

Module ParserTheorems.
Import Doc Regex Parsers ParserClaims DocFacts ParserFacts.

(** The assertions of [tests/test_path_parser.py] hold of the model. *)
Example test_parse_from_regex_1 :
  parse_from_regex
    "Y:\code\sovabids\_data\lemon2\sub-010002\ses-001\resting\sub-010002.vhdr"
    ".*?\/.*?\/.*?\/.*?\/.*?\/sub-(.*?)\/ses-(.*?)\/(.*?)\/sub-(.*?).vhdr"
    (VList [VStr "ignore"; VStr "entities.session"; VStr "entities.task";
            VStr "entities.subject"])
  = Ok [("ignore", VStr "010002");
        ("entities", VDict [("session", VStr "001"); ("task", VStr "resting");
                            ("subject", VStr "010002")])].
Proof. vm_compute. reflexivity. Qed.

Example test_parse_from_regex_2 :
  parse_from_regex
    "Y:\code\sovabids\_data\lemon2\sub-010004\ses-001\sub-010004.vhdr"
    "ses-(.*?)\/s(.*?)-(.*?).vhdr"
    (VList [VStr "entities.session"; VStr "ignore"; VStr "entities.subject"])
  = Ok [("entities", VDict [("session", VStr "001"); ("subject", VStr "010004")]);
        ("ignore", VStr "ub")].
Proof. vm_compute. reflexivity. Qed.

Example test_parse_from_regex_4 :
  parse_from_regex "y:\code\sovabids\_data\lemon\sub-010002.vhdr"
    "(.*?)\/sub-(.*?).vhdr" (VList [VStr "ignore"; VStr "entities.subject"])
  = Ok [("ignore", VStr "y:/code/sovabids/_data/lemon");
        ("entities", VDict [("subject", VStr "010002")])].
Proof. vm_compute. reflexivity. Qed.

Example test_parse_from_regex_5 :
  parse_from_regex "y:\code\sovabids\_data\lemon\sub-010002.vhdr"
    "(.*?).vhdr" (VStr "entities.subject")
  = Ok [("entities",
         VDict [("subject", VStr "y:/code/sovabids/_data/lemon/sub-010002")])].
Proof. vm_compute. reflexivity. Qed.

Example test_parse_from_regex_6 :
  parse_from_regex "y:\code\sovabids\_data\lemon\sub-010002.vhdr"
    "sub-(.*)" (VStr "entities.subject")
  = Ok [("entities", VDict [("subject", VStr "010002.vhdr")])].
Proof. vm_compute. reflexivity. Qed.

Example test_parse_from_placeholder_1 :
  parse_from_placeholder
    "Y:\code\sovabids\_data\lemon2\sub-010002\ses-001\resting\sub-010002.vhdr"
    "sub-%ignore%\ses-%entities.session%\%entities.task%\sub-%entities.subject%.vhdr"
    "%" "(.+)"
  = Ok [("ignore", VStr "010002");
        ("entities", VDict [("session", VStr "001"); ("task", VStr "resting");
                            ("subject", VStr "010002")])].
Proof. vm_compute. reflexivity. Qed.

Example test_parse_from_placeholder_2 :
  parse_from_placeholder
    "Y:\code\sovabids\_data\lemon2\sub-010004\ses-001\sub-010004.vhdr"
    "ses-%entities.session%/s%ignore%-%entities.subject%.vhdr" "%" "(.+)"
  = Ok [("entities", VDict [("session", VStr "001"); ("subject", VStr "010004")]);
        ("ignore", VStr "ub")].
Proof. vm_compute. reflexivity. Qed.

Example test_parse_from_placeholder_3 :
  parse_from_placeholder "y:\code\sovabids\_data\lemon\sub-010002.vhdr"
    "sub-%entities.subject%.vhdr" "%" "(.+)"
  = Ok [("entities", VDict [("subject", VStr "010002")])].
Proof. vm_compute. reflexivity. Qed.

Example test_parse_from_placeholder_4 :
  parse_from_placeholder "y:\code\sovabids\_data\lemon\sub-010002.vhdr"
    (render backslash_pattern) "%" "(.+)"
  = Ok [("ignore", VStr "y:/code/sovabids/_data/lemon");
        ("entities", VDict [("subject", VStr "010002")])].
Proof. vm_compute. reflexivity. Qed.

Example test_parse_from_placeholder_5 :
  parse_from_placeholder "y:\code\sovabids\_data\lemon\sub-010002.vhdr"
    "%entities.subject%.vhdr" "%" "(.+)"
  = Ok [("entities",
         VDict [("subject", VStr "y:/code/sovabids/_data/lemon/sub-010002")])].
Proof. vm_compute. reflexivity. Qed.

Example test_parse_from_placeholder_6 :
  parse_from_placeholder "y:\code\sovabids\_data\lemon\sub-010002.vhdr"
    "sub-%entities.subject%" "%" "(.+)"
  = Ok [("entities", VDict [("subject", VStr "010002.vhdr")])].
Proof. vm_compute. reflexivity. Qed.

(** The third pattern of [test_parse_from_regex]: found after the
    directories of the path. *)
Example regex_found_inside_path :
  parse_from_regex "y:\code\sovabids\_data\lemon\sub-010002.vhdr"
    "sub-(.*?).vhdr" (VStr "entities.subject")
  = Ok [("entities", VDict [("subject", VStr "010002")])].
Proof. vm_compute. reflexivity. Qed.

(** C6, as stated, fails: the pattern [sub-(.*?).vhdr] of the tests is
    extracted from [y:/code/sovabids/_data/lemon/sub-010002.vhdr], where the
    match starts at position 29 and not at the first character. *)
Lemma regex_match_not_anchored_at_start :
  ~ anchored_at_start "y:\code\sovabids\_data\lemon\sub-010002.vhdr"
      "sub-(.*?).vhdr" (VStr "entities.subject").
Proof.
  intros H. specialize (H _ regex_found_inside_path).
  vm_compute in H. discriminate H.
Qed.

(** C6, amended: a successful regex-mode extraction uses the match found by
    a search of the normalized path, which starts at the leftmost position
    where the pattern matches, whether or not that is the first character;
    the match is not anchored at the end either, and may leave both a
    prefix and a suffix of the path outside. *)
Theorem regex_match_is_leftmost_search :
  (forall string pattern fields doc,
     parse_from_regex string pattern fields = Ok doc ->
     exists r n pos rest caps names,
       compile pattern = Some (r, n)
       /\ field_names fields = Ok names
       /\ locate string pattern = Some (n, pos, rest, caps)
       /\ doc = deep_merge_N (field_trees names caps)
       /\ match_at n r (drop pos (list_ascii_of_string (to_posix string)))
          = Some (rest, caps)
       /\ forall k, (k < pos)%nat ->
            match_at n r (drop k (list_ascii_of_string (to_posix string))) = None)
  /\ (exists string pattern fields doc n pos rest caps,
        parse_from_regex string pattern fields = Ok doc
        /\ locate string pattern = Some (n, pos, rest, caps)
        /\ pos <> 0%nat /\ rest <> []).
Proof.
  split.
  - intros string pattern fields doc. unfold parse_from_regex, locate.
    destruct (field_names fields) as [names|]; [|discriminate].
    destruct (compile pattern) as [[r n]|]; [|discriminate].
    destruct (negb (n =? length names)%nat); [discriminate|].
    destruct (search n r (list_ascii_of_string (to_posix string)))
      as [[[pos rest] caps]|] eqn:Hs; [|discriminate].
    intros [= <-]. exists r, n, pos, rest, caps, names.
    unfold search in Hs. apply search_from_leftmost in Hs as (_ & Hat & Hbefore).
    rewrite Nat.sub_0_r in Hat, Hbefore. repeat split; auto.
  - exists "data/sub-01/rest.vhdr", "sub-(.*?)/", (VStr "entities.subject").
    eexists. eexists. eexists. eexists. eexists.
    split; [vm_compute; reflexivity|].
    split; [vm_compute; reflexivity|].
    split; discriminate.
Qed.

Lemma regex_match_is_leftmost_search_witness :
  exists r n pos rest caps names,
    compile "sub-(.*?).vhdr" = Some (r, n)
    /\ field_names (VStr "entities.subject") = Ok names
    /\ locate "y:\code\sovabids\_data\lemon\sub-010002.vhdr" "sub-(.*?).vhdr"
       = Some (n, pos, rest, caps)
    /\ [("entities", VDict [("subject", VStr "010002")])]
       = deep_merge_N (field_trees names caps)
    /\ match_at n r
         (drop pos (list_ascii_of_string
                      (to_posix "y:\code\sovabids\_data\lemon\sub-010002.vhdr")))
       = Some (rest, caps)
    /\ forall k, (k < pos)%nat ->
         match_at n r
           (drop k (list_ascii_of_string
                      (to_posix "y:\code\sovabids\_data\lemon\sub-010002.vhdr")))
         = None.
Proof.
  apply (proj1 regex_match_is_leftmost_search
           "y:\code\sovabids\_data\lemon\sub-010002.vhdr" "sub-(.*?).vhdr"
           (VStr "entities.subject")).
  vm_compute. reflexivity.
Defined.

(** Placeholder mode on the dot pattern takes a path whose extension is set
    off by an underscore: the dot of the pattern stands for any character. *)
Example placeholder_dot_is_any_character :
  parse_from_placeholder "data/sub-01_vhdr" (render dot_pattern) "%" "(.+)"
  = Ok [("entities", VDict [("subject", VStr "01")])].
Proof. vm_compute. reflexivity. Qed.




End ParserTheorems.

(** ** Path analysis over a rule document *)

Module PathTheorems.
Import Doc Parsers PathAnalysis PathClaims DocFacts ParserFacts.

Lemma wf_extract path path_analysis extracted :
  extract path path_analysis = Ok extracted -> wf_value (VDict extracted).
Proof.
  unfold extract, bind_result.
  destruct (py_get path_analysis "pattern" (VStr "")) as [pattern|]; [|discriminate].
  destruct (py_in "fields" path_analysis) as [[|]|]; [| |discriminate].
  - destruct (py_get path_analysis "fields" (VList [])) as [fields|]; [|discriminate].
    destruct (as_str pattern) as [pattern_s|]; [|discriminate].
    apply wf_parse_from_regex.
  - destruct (py_get path_analysis "encloser" (VStr "%")) as [e|]; [|discriminate].
    destruct (py_get path_analysis "matcher" (VStr "(.+)")) as [m|]; [|discriminate].
    destruct (as_str pattern) as [pattern_s|]; [|discriminate].
    destruct (as_str e) as [es|]; [|discriminate].
    destruct (as_str m) as [ms|]; [|discriminate].
    apply wf_parse_from_placeholder.
Qed.

Lemma wf_strip_ignore d : wf_value (VDict d) -> wf_value (VDict (strip_ignore d)).
Proof.
  intros H. unfold strip_ignore. destruct (dict_has "ignore" d); [|exact H].
  apply wf_dict_inv in H as [Hnd HF]. constructor.
  - now apply keys_dict_del.
  - now apply Forall_dict_del.
Qed.

Lemma dict_has_strip_ignore d : dict_has "ignore" (strip_ignore d) = false.
Proof.
  unfold strip_ignore. destruct (dict_has "ignore" d) eqn:H; [|exact H].
  apply dict_has_del.
Qed.

(** With a [path_analysis] rule, what is extracted is what the rule asks
    for. *)
Lemma patterns_of_rule path rules path_analysis :
  path_analysis_of rules = Some path_analysis ->
  patterns_of path rules = extract path path_analysis.
Proof.
  unfold path_analysis_of, patterns_of, dict_get_default.
  destruct (dict_get "non-bids" rules) as [[ | | | | |non_bids]|]; try discriminate.
  intros Hpa. simpl. unfold dict_has. rewrite Hpa. simpl. reflexivity.
Qed.

Lemma get_info_from_path_inv path rules doc :
  get_info_from_path path rules = Ok doc ->
  exists extracted,
    patterns_of path rules = Ok extracted
    /\ doc = deep_merge_N [rules; strip_ignore extracted].
Proof.
  unfold get_info_from_path, bind_result.
  destruct (patterns_of path rules) as [extracted|]; [|discriminate].
  intros [= <-]. now exists extracted.
Qed.

Lemma deep_merge_N_pair rules extracted :
  NoDup (keys rules) ->
  deep_merge_N [rules; extracted] = deep_merge_dict rules extracted.
Proof.
  intros Hnd. unfold deep_merge_N. simpl. unfold deep_merge_dict at 2.
  now rewrite merge_into_nil.
Qed.

(** C3: for a rule document with a [non-bids.path_analysis] rule and a path
    its pattern matches, [get_info_from_path] returns the deep merge of the
    base document with the extracted document, which is what the extractor
    gives once [ignore] is stripped from it; every leaf of the extracted
    document is found in the result, whatever the base held there, and what
    the extracted document does not reach is as in the base document. *)
Theorem path_fields_override_rules path rules path_analysis doc :
  wf_valueb (VDict rules) = true ->
  path_analysis_of rules = Some path_analysis ->
  get_info_from_path path rules = Ok doc ->
  exists extracted,
    extract path path_analysis = Ok extracted
    /\ doc = deep_merge_dict rules (strip_ignore extracted)
    /\ (forall p v,
          lookup_path p (VDict (strip_ignore extracted)) = Some v ->
          is_dict v = false ->
          lookup_path p (VDict doc) = Some v)
    /\ (forall p,
          absent_in p (VDict (strip_ignore extracted)) = true ->
          lookup_path p (VDict doc) = lookup_path p (VDict rules)).
Proof.
  intros Hwf Hpa Hget. apply wf_valueb_sound in Hwf.
  apply get_info_from_path_inv in Hget as (extracted & Hext & ->).
  rewrite (patterns_of_rule _ _ _ Hpa) in Hext.
  exists extracted. split; [exact Hext|].
  pose proof (wf_strip_ignore _ (wf_extract _ _ _ Hext)) as Hwfe.
  destruct (wf_dict_inv _ Hwf) as [Hnd _].
  rewrite (deep_merge_N_pair _ _ Hnd). split; [reflexivity|].
  unfold deep_merge_dict. rewrite <- deep_merge_dicts. split.
  - intros p v Hl Hleaf. now apply deep_merge_right_bias.
  - intros p Habs. now apply deep_merge_preserves.
Qed.

Lemma path_fields_override_rules_witness :
  exists extracted,
    extract "data/sub-01/rest.vhdr" Bench.path_rules = Ok extracted
    /\ [("entities", VDict [("task", VStr "rest"); ("subject", VStr "01")]);
        ("dataset_description", VDict [("Name", VStr "demo")]);
        ("sidecar", VDict [("PowerLineFrequency", VInt 50)]);
        ("non-bids", VDict [("eeg_extension", VStr "vhdr");
                            ("path_analysis", Bench.path_rules);
                            ("code_execution", VStr "raw.no_such_method()")])]
       = deep_merge_dict Bench.rules (strip_ignore extracted)
    /\ (forall p v,
          lookup_path p (VDict (strip_ignore extracted)) = Some v ->
          is_dict v = false ->
          lookup_path p
            (VDict
               [("entities", VDict [("task", VStr "rest"); ("subject", VStr "01")]);
                ("dataset_description", VDict [("Name", VStr "demo")]);
                ("sidecar", VDict [("PowerLineFrequency", VInt 50)]);
                ("non-bids", VDict [("eeg_extension", VStr "vhdr");
                                    ("path_analysis", Bench.path_rules);
                                    ("code_execution",
                                     VStr "raw.no_such_method()")])])
          = Some v)
    /\ (forall p,
          absent_in p (VDict (strip_ignore extracted)) = true ->
          lookup_path p
            (VDict
               [("entities", VDict [("task", VStr "rest"); ("subject", VStr "01")]);
                ("dataset_description", VDict [("Name", VStr "demo")]);
                ("sidecar", VDict [("PowerLineFrequency", VInt 50)]);
                ("non-bids", VDict [("eeg_extension", VStr "vhdr");
                                    ("path_analysis", Bench.path_rules);
                                    ("code_execution",
                                     VStr "raw.no_such_method()")])])
          = lookup_path p (VDict Bench.rules)).
Proof.
  apply (path_fields_override_rules "data/sub-01/rest.vhdr" Bench.rules
           Bench.path_rules).
  - vm_compute. reflexivity.
  - vm_compute. reflexivity.
  - vm_compute. reflexivity.
Defined.

(** A captured [ignore] is stripped before the merge: the base value
    stays. *)
Example captured_ignore_is_stripped :
  get_info_from_path "data/sub-01/rest.vhdr"
    [("ignore", VStr "keep");
     ("non-bids",
      VDict [("path_analysis",
              VDict [("pattern", VStr "sub-%ignore%/%entities.task%.vhdr")])])]
  = Ok [("ignore", VStr "keep");
        ("non-bids",
         VDict [("path_analysis",
                 VDict [("pattern", VStr "sub-%ignore%/%entities.task%.vhdr")])]);
        ("entities", VDict [("task", VStr "rest")])].
Proof. vm_compute. reflexivity. Qed.

(** *** Where an [ignore] key can come from *)

Lemma mentions_key_dict k d :
  mentions_key k (VDict d)
  = dict_has k d || existsb (fun kv => mentions_key k (snd kv)) d.
Proof.
  cbn [mentions_key]. f_equal.
  induction d as [|[k' x] d IH]; [reflexivity|].
  cbn [existsb snd]. now rewrite <- IH.
Qed.

Lemma mentions_dict_false k d :
  mentions_key k (VDict d) = false
  <-> dict_has k d = false
      /\ Forall (fun kv => mentions_key k (snd kv) = false) d.
Proof.
  rewrite mentions_key_dict, orb_false_iff. split; intros [Hh Hv]; split; auto.
  - clear Hh. induction d as [|kv d IH]; constructor;
      cbn [existsb] in Hv; apply orb_false_iff in Hv as [Hx Hv]; auto.
  - clear Hh. induction Hv as [|kv d Hx _ IH]; [reflexivity|].
    cbn [existsb]. now rewrite Hx, IH.
Qed.

Lemma dict_has_set_ne k k' v d :
  k <> k' -> dict_has k' (dict_set k v d) = dict_has k' d.
Proof. intros H. unfold dict_has. now rewrite dict_get_set_ne. Qed.

(** Merging two documents that have no key [k] gives none. *)
Lemma mentions_deep_merge k b : forall a,
  mentions_key k a = false -> mentions_key k b = false ->
  mentions_key k (deep_merge a b) = false.
Proof.
  induction b as [ | | | | l _ | kb IH] using value_nested_ind;
    intros a Ha Hb; try exact Hb.
  destruct a as [ | | | | | ka]; try exact Hb.
  rewrite deep_merge_dicts.
  apply mentions_dict_false in Hb as [Hkb Hb].
  revert ka Ha. induction kb as [|[k0 vb] kb IHkb]; intros ka Ha;
    cbn [merge_into]; [exact Ha|].
  apply Forall_cons in IH as [IHv IHrest]. apply Forall_cons in Hb as [Hvb Hb].
  cbn [snd] in *.
  assert (Hne : k0 <> k).
  { intros ->. unfold dict_has in Hkb. cbn [dict_get] in Hkb.
    now rewrite String.eqb_refl in Hkb. }
  apply IHkb; auto.
  - unfold dict_has in *. cbn [dict_get] in Hkb.
    destruct (String.eqb k k0); [discriminate | exact Hkb].
  - apply mentions_dict_false in Ha as [Hka Ha].
    apply mentions_dict_false. split.
    + now rewrite dict_has_set_ne.
    + apply (Forall_dict_set (fun v => mentions_key k v = false));
        [|exact Ha].
      destruct (dict_get k0 ka) eqn:Hg; [|exact Hvb].
      apply IHv; [|exact Hvb].
      apply (Forall_dict_get (fun v => mentions_key k v = false) k0 v ka Ha Hg).
Qed.

Lemma clean_below_merge kb : forall acc,
  clean_below acc -> clean_below kb -> clean_below (merge_into kb acc).
Proof.
  induction kb as [|[k0 vb] kb IH]; intros acc Hacc Hkb; cbn [merge_into];
    [exact Hacc|].
  apply Forall_cons in Hkb as [Hvb Hkb]. cbn [snd] in Hvb.
  apply IH; [|exact Hkb].
  apply (Forall_dict_set (fun v => mentions_key "ignore" v = false));
    [|exact Hacc].
  destruct (dict_get k0 acc) eqn:Hg; [|exact Hvb].
  apply mentions_deep_merge; [|exact Hvb].
  apply (Forall_dict_get (fun v => mentions_key "ignore" v = false) k0 v acc
           Hacc Hg).
Qed.

Lemma clean_below_merge_N l :
  Forall clean_below l -> clean_below (deep_merge_N l).
Proof.
  unfold deep_merge_N.
  assert (H : forall acc, clean_below acc -> Forall clean_below l ->
                          clean_below (fold_left deep_merge_dict l acc)).
  { induction l as [|d l IH]; intros acc Hacc HF; cbn [fold_left]; [exact Hacc|].
    apply Forall_cons in HF as [Hd HF]. apply IH; [|exact HF].
    unfold deep_merge_dict. now apply clean_below_merge. }
  apply H. constructor.
Qed.

Lemma mentions_nested k ks : forall v,
  mentions_key k v = false -> existsb (String.eqb k) ks = false ->
  mentions_key k (nested ks v) = false.
Proof.
  induction ks as [|k0 ks IH]; intros v Hv Hks; cbn [nested]; [exact Hv|].
  cbn [existsb] in Hks. apply orb_false_iff in Hks as [Hk0 Hks].
  apply mentions_dict_false. split.
  - unfold dict_has. cbn [dict_get]. now rewrite Hk0.
  - constructor; [|constructor]. cbn [snd]. now apply IH.
Qed.

Lemma clean_below_tree field c :
  ignore_below field = false ->
  clean_below (nested_notation_to_tree field (group_value c)).
Proof.
  unfold ignore_below, nested_notation_to_tree. intros H.
  destruct (dot_path field) as [|k0 ks]; [constructor|].
  cbn [tl] in H. constructor; [|constructor]. cbn [snd].
  apply mentions_nested; [now destruct c | exact H].
Qed.

Lemma clean_below_field_trees names : forall caps,
  forallb (fun f => negb (ignore_below f)) names = true ->
  Forall clean_below (field_trees names caps).
Proof.
  induction names as [|n names IH]; intros [|c caps] H; cbn [field_trees];
    try constructor.
  - cbn [forallb] in H. apply andb_prop in H as [Hn _].
    apply clean_below_tree. now apply negb_true_iff.
  - cbn [forallb] in H. apply andb_prop in H as [_ H]. now apply IH.
Qed.

Lemma mentions_strip_ignore d :
  clean_below d -> mentions_key "ignore" (VDict (strip_ignore d)) = false.
Proof.
  intros H. apply mentions_dict_false. split; [apply dict_has_strip_ignore|].
  unfold strip_ignore. destruct (dict_has "ignore" d); [|exact H].
  now apply (Forall_dict_del (fun v => mentions_key "ignore" v = false)).
Qed.

Lemma strings_of_strs names : strings_of (map VStr names) = Ok names.
Proof.
  induction names as [|n names IH]; cbn [map strings_of]; [reflexivity|].
  now rewrite IH.
Qed.

(** What is extracted is the merge of the trees of the fields of the rule. *)
Lemma extract_trees path path_analysis extracted :
  extract path path_analysis = Ok extracted ->
  exists names caps,
    fields_named path_analysis = Ok names
    /\ extracted = deep_merge_N (field_trees names caps).
Proof.
  unfold extract, fields_named, bind_result.
  destruct (py_get path_analysis "pattern" (VStr "")) as [pattern|]; [|discriminate].
  destruct (py_in "fields" path_analysis) as [[|]|]; [| |discriminate].
  - destruct (py_get path_analysis "fields" (VList [])) as [fields|]; [|discriminate].
    destruct (as_str pattern) as [pattern_s|]; [|discriminate].
    unfold parse_from_regex.
    destruct (field_names fields) as [names|]; [|discriminate].
    destruct (Regex.compile pattern_s) as [[r n]|]; [|discriminate].
    destruct (negb (n =? length names)%nat); [discriminate|].
    destruct (locate path pattern_s) as [[[[n' pos] rest] caps]|]; [|discriminate].
    intros [= <-]. now exists names, caps.
  - destruct (py_get path_analysis "encloser" (VStr "%")) as [e|]; [|discriminate].
    destruct (py_get path_analysis "matcher" (VStr "(.+)")) as [m|]; [|discriminate].
    destruct (as_str pattern) as [pattern_s|]; [|discriminate].
    destruct (as_str e) as [es|]; [|discriminate].
    destruct (as_str m) as [ms|]; [|discriminate].
    unfold parse_from_placeholder.
    destruct (lower_placeholder (to_posix pattern_s) es ms) as [rx names].
    unfold parse_from_regex. cbn [field_names snd]. rewrite strings_of_strs.
    destruct (Regex.compile rx) as [[r n]|]; [|discriminate].
    destruct (negb (n =? length names)%nat); [discriminate|].
    destruct (locate path rx) as [[[[n' pos] rest] caps]|]; [|discriminate].
    intros [= <-]. now exists names, caps.
Qed.

(** Without a [path_analysis] rule nothing is extracted. *)
Lemma patterns_of_no_rule path rules extracted :
  path_analysis_of rules = None ->
  patterns_of path rules = Ok extracted -> extracted = [].
Proof.
  unfold path_analysis_of, patterns_of, dict_get_default, bind_result.
  destruct (dict_get "non-bids" rules) as [[ | | |s|l|non_bids]|];
    cbn [py_in]; try discriminate.
  - intros _. destruct (is_substring _ _); [discriminate | now intros [= <-]].
  - intros _. destruct (existsb _ l); [discriminate | now intros [= <-]].
  - intros Hpa. unfold dict_has. rewrite Hpa. now intros [= <-].
  - intros _. cbn [dict_has dict_get]. now intros [= <-].
Qed.

Lemma clean_below_extracted path rules extracted :
  forallb (fun f => negb (ignore_below f)) (spec_fields rules) = true ->
  patterns_of path rules = Ok extracted ->
  clean_below extracted.
Proof.
  intros Hfields Hext. unfold spec_fields in Hfields.
  destruct (path_analysis_of rules) as [path_analysis|] eqn:Hpa.
  - rewrite (patterns_of_rule _ _ _ Hpa) in Hext.
    apply extract_trees in Hext as (names & caps & Hnames & ->).
    rewrite Hnames in Hfields.
    now apply clean_below_merge_N, clean_below_field_trees.
  - rewrite (patterns_of_no_rule _ _ _ Hpa Hext). constructor.
Qed.

(** C5, as stated, fails: the base document has no [ignore] key, the field
    [entities.ignore] is captured from the path, and the returned document
    has an [ignore] key in its [entities] section. *)
Lemma nested_ignore_is_kept :
  ~ no_ignore_anywhere "data/sub-01/rest.vhdr"
      [("non-bids",
        VDict [("path_analysis",
                VDict [("pattern", VStr "sub-(.*?)/(.*?).vhdr");
                       ("fields", VList [VStr "entities.subject";
                                         VStr "entities.ignore"])])])].
Proof.
  intros H. specialize (H eq_refl _ eq_refl). vm_compute in H. discriminate H.
Qed.

(** C5, amended: if the base rule document has no [ignore] key in any
    section and no field of the path analysis asks for an [ignore] below
    its first component (as the dotted field [entities.ignore] does), then
    the document returned by [get_info_from_path] has no [ignore] key in any
    section, also when a field literally named [ignore], or one that starts
    with [ignore.], is captured from the path. *)
Theorem captured_ignore_is_discarded path rules doc :
  mentions_key "ignore" (VDict rules) = false ->
  forallb (fun f => negb (ignore_below f)) (spec_fields rules) = true ->
  get_info_from_path path rules = Ok doc ->
  mentions_key "ignore" (VDict doc) = false.
Proof.
  intros Hbase Hfields Hget.
  apply get_info_from_path_inv in Hget as (extracted & Hext & ->).
  pose proof (mentions_strip_ignore _
                (clean_below_extracted _ _ _ Hfields Hext)) as Hstripped.
  unfold deep_merge_N. cbn [fold_left]. unfold deep_merge_dict.
  rewrite <- !deep_merge_dicts.
  apply mentions_deep_merge; [|exact Hstripped].
  apply mentions_deep_merge; [reflexivity | exact Hbase].
Qed.

Lemma captured_ignore_is_discarded_witness :
  mentions_key "ignore"
    (VDict
       [("non-bids",
         VDict [("path_analysis",
                 VDict [("pattern", VStr "sub-%ignore%/%entities.task%.vhdr")])]);
        ("entities", VDict [("task", VStr "rest")])])
  = false.
Proof.
  apply (captured_ignore_is_discarded "data/sub-01/rest.vhdr"
           [("non-bids",
             VDict [("path_analysis",
                     VDict [("pattern",
                             VStr "sub-%ignore%/%entities.task%.vhdr")])])]).
  - reflexivity.
  - vm_compute. reflexivity.
  - vm_compute. reflexivity.
Defined.

End PathTheorems.

(** ** The per-file pipeline *)

Module PipelineTheorems.
Import Doc PathAnalysis World Collab Rules PipelineClaims DocFacts WorldFacts.

Section WithEnv.
Context (E : Env).

Lemma without_dataset_description_has rules__ :
  dict_has "dataset_description" (without_dataset_description rules__) = false.
Proof.
  unfold without_dataset_description.
  destruct (dict_has "dataset_description" rules__) eqn:H; [|exact H].
  apply dict_has_del.
Qed.

Lemma after_commands_mapping f rules__ entities root write preview r w m p w' :
  after_commands E f rules__ entities root write preview r w = (Ok (m, p), w') ->
  exists rules', m = without_dataset_description rules'.
Proof.
  unfold after_commands. intros H.
  inv_bind H. inv_bind H. inv_bind H. inv_bind H. inv_bind H. inv_bind H.
  inv_bind H. inv_bind H.
  apply ret_inv in H as [[= -> ->] _]. eauto.
Qed.

Lemma single_file_mapping file rules root write preview w m p w' :
  apply_rules_to_single_file E file rules root write preview w = (Ok (m, p), w') ->
  exists rules', m = without_dataset_description rules'.
Proof.
  unfold apply_rules_to_single_file. intros H.
  inv_bind H. inv_bind H. inv_bind H.
  destruct (dict_get "entities" a1) as [entities|];
    [|now apply raise_not_ok in H].
  inv_bind H. inv_bind H.
  destruct (dict_has "non-bids" a1).
  - unfold with_non_bids in H. inv_bind H.
    now apply after_commands_mapping in H.
  - destruct preview; [now apply raise_not_ok in H|].
    apply ret_inv in H as [[= -> ->] _]. eauto.
Qed.


Lemma strings_of_map l ss : Parsers.strings_of l = Ok ss -> l = map VStr ss.
Proof.
  revert ss. induction l as [|x l IH]; intros ss; simpl.
  - now intros [= <-].
  - destruct x; try discriminate.
    destruct (Parsers.strings_of l) as [ss'|]; [|discriminate].
    intros [= <-]. simpl. now rewrite (IH ss').
Qed.

Lemma starts_with_app p s : Parsers.starts_with p (p ++ s) = true.
Proof.
  induction p as [|c p IH]; [now destruct s|].
  cbn [app Parsers.starts_with]. now rewrite Ascii.eqb_refl, IH.
Qed.

Lemma is_substring_app a p b : is_substring p (a ++ p ++ b) = true.
Proof.
  induction a as [|c a IH].
  - cbn [app]. destruct (p ++ b) eqn:Hpb; cbn [is_substring];
      rewrite <- Hpb, starts_with_app; reflexivity.
  - cbn [app is_substring]. rewrite IH. apply orb_true_r.
Qed.

(** The report of line 189 has the command and the traceback in it. *)
Lemma error_string_logged command traceback :
  logged_with command traceback (error_string command traceback).
Proof.
  unfold logged_with, OsPath.contains, error_string. split.
  - rewrite !ParserFacts.chars_append, app_assoc. apply is_substring_app.
  - rewrite !ParserFacts.chars_append, !app_assoc.
    pose proof (is_substring_app
                  ((((((list_ascii_of_string
                          "There was an error with the follwing command:"
                        ++ list_ascii_of_string nl)
                       ++ list_ascii_of_string command)
                      ++ list_ascii_of_string nl)
                     ++ list_ascii_of_string "giving the following traceback:")
                    ++ list_ascii_of_string nl))
                  (list_ascii_of_string traceback) []) as H.
    now rewrite app_nil_r in H.
Qed.

(** The loop does what [hooks_steps] describes, for as long as it is
    followed, and no exception of a command leaves it. *)
Lemma run_commands_trace fuel : forall i fr w,
  exists n fr' w',
    (n <= fuel)%nat
    /\ hooks_steps E n i fr w fr' w'
    /\ match nth_error (fr_commands fr') (i + n) with
       | None => run_commands E fuel i fr w = (Ok fr', w')
       | Some (VStr _) =>
           n = fuel /\ run_commands E fuel i fr w = (Raise Unfinished, w')
       | Some _ => run_commands E fuel i fr w = (Raise TypeError, w')
       end.
Proof.
  induction fuel as [|fuel IH]; intros i fr w.
  - exists 0%nat, fr, w. split; [lia|]. split; [constructor|].
    rewrite Nat.add_0_r. cbn [run_commands].
    destruct (nth_error (fr_commands fr) i) as [[ | | |c| | ]|]; auto.
  - cbn [run_commands].
    destruct (nth_error (fr_commands fr) i) as [x|] eqn:Hnth.
    + destruct x as [ | b | z | c | l | d ];
        try (exists 0%nat, fr, w; split; [lia|]; split; [constructor|];
             rewrite Nat.add_0_r, Hnth; reflexivity).
      destruct (exec_command E c fr w) as [[[traceback|] fr1] w1] eqn:Hexec.
      * destruct (IH (S i) fr1
                    (mk_world (files w1) (dirs w1)
                       (stdout w1 ++ [error_string c traceback])))
          as (n & fr' & w' & Hn & Hsteps & Hres).
        exists (S n), fr', w'. split; [lia|]. split.
        { eapply hooks_fail; eauto. apply error_string_logged. }
        replace (i + S n)%nat with (S i + n)%nat by lia.
        unfold bind at 1, print at 1.
        destruct (nth_error (fr_commands fr') (S i + n)) as [[ | | |c'| | ]|];
          auto.
        destruct Hres as [-> Hres]. auto.
      * destruct (IH (S i) fr1 w1) as (n & fr' & w' & Hn & Hsteps & Hres).
        exists (S n), fr', w'. split; [lia|]. split.
        { eapply hooks_pass; eauto. }
        replace (i + S n)%nat with (S i + n)%nat by lia.
        destruct (nth_error (fr_commands fr') (S i + n)) as [[ | | |c'| | ]|];
          auto.
        destruct Hres as [-> Hres]. auto.
    + exists 0%nat, fr, w. split; [lia|]. split; [constructor|].
      rewrite Nat.add_0_r, Hnth. reflexivity.
Qed.

(** When the commands leave their list alone, so do any number of them, and
    each of them was a string of the list. *)
Lemma hooks_steps_fixed n i fr w fr' w' :
  commands_fixed E ->
  hooks_steps E n i fr w fr' w' ->
  fr_commands fr' = fr_commands fr
  /\ forall j, (i <= j < i + n)%nat ->
       exists c, nth_error (fr_commands fr) j = Some (VStr c).
Proof.
  intros Hfixed Hsteps.
  induction Hsteps as [i fr w
                      |n i c fr w fr1 w1 fr2 w2 Hnth Hexec _ IH
                      |n i c fr w traceback fr1 w1 line fr2 w2 Hnth Hexec _ _ IH].
  - split; [reflexivity | intros j Hj; lia].
  - pose proof (Hfixed c fr w) as Hc. rewrite Hexec in Hc. cbn [fst snd] in Hc.
    destruct IH as [IHc IHn]. rewrite Hc in IHc, IHn. split; [exact IHc|].
    intros j Hj. destruct (Nat.eq_dec j i) as [->|Hne]; [eauto|].
    apply IHn. lia.
  - pose proof (Hfixed c fr w) as Hc. rewrite Hexec in Hc. cbn [fst snd] in Hc.
    destruct IH as [IHc IHn]. rewrite Hc in IHc, IHn. split; [exact IHc|].
    intros j Hj. destruct (Nat.eq_dec j i) as [->|Hne]; [eauto|].
    apply IHn. lia.
Qed.


(** When the commands leave the rule document and the entities alone, so do
    any number of them. *)
Lemma hooks_steps_untouched n i fr w fr' w' :
  rules_untouched E ->
  hooks_steps E n i fr w fr' w' ->
  fr_rules fr' = fr_rules fr /\ fr_entities fr' = fr_entities fr.
Proof.
  intros Hquiet Hsteps.
  induction Hsteps as [i fr w
                      |n i c fr w fr1 w1 fr2 w2 Hnth Hexec _ IH
                      |n i c fr w traceback fr1 w1 line fr2 w2 Hnth Hexec _ _ IH].
  - now split.
  - pose proof (Hquiet c fr w) as [Hr He]. rewrite Hexec in Hr, He.
    cbn [fst snd] in Hr, He. destruct IH as [IHr IHe].
    split; congruence.
  - pose proof (Hquiet c fr w) as [Hr He]. rewrite Hexec in Hr, He.
    cbn [fst snd] in Hr, He. destruct IH as [IHr IHe].
    split; congruence.
Qed.

(** What the loop returns is what some number of commands left. *)
Lemma run_commands_ok_inv fuel i fr w fr' w' :
  run_commands E fuel i fr w = (Ok fr', w') ->
  exists n, hooks_steps E n i fr w fr' w'.
Proof.
  intros Hrun.
  destruct (run_commands_trace fuel i fr w) as (n & fr1 & w1 & _ & Hsteps & Hres).
  exists n.
  destruct (nth_error (fr_commands fr1) (i + n)) as [[ | | |c| | ]|];
    try (rewrite Hrun in Hres; discriminate Hres).
  - destruct Hres as [_ Hres]. rewrite Hrun in Hres. discriminate Hres.
  - rewrite Hrun in Hres. injection Hres as -> ->. exact Hsteps.
Qed.

(** What the stage returns is what some number of commands left of the
    recording, the entities and the document, in which a single command has
    become a list. *)
Lemma code_execution_stage_inv rules__ entities r w fr w' :
  code_execution_stage E rules__ entities r w = (Ok fr, w') ->
  exists fr0 n,
    hooks_steps E n 0 fr0 w fr w'
    /\ fr_raw fr0 = r /\ fr_entities fr0 = entities
    /\ (fr_rules fr0 = rules__
        \/ exists non_bids s,
             dict_get_default "non-bids" rules__ = VDict non_bids
             /\ dict_get "code_execution" non_bids = Some (VStr s)
             /\ fr_rules fr0
                = dict_set "non-bids"
                    (VDict (dict_set "code_execution" (VList [VStr s]) non_bids))
                    rules__).
Proof.
  unfold code_execution_stage. intros H.
  apply bind_ok_inv in H as (has & w0 & Hhas & H).
  apply lift_ok_inv in Hhas as [Hhas ->].
  destruct has.
  - apply bind_ok_inv in H as (code & w0 & Hcode & H).
    apply lift_ok_inv in Hcode as [Hcode ->].
    destruct code as [ | | | s | l | ];
      try (apply ret_inv in H as [-> ->];
           exists (mk_frame r rules__ entities []), 0%nat;
           split; [constructor | auto]).
    + destruct (dict_get_default "non-bids" rules__) as [ | | | | |d] eqn:Hnb;
        try (apply ret_inv in H as [-> ->];
             exists (mk_frame r rules__ entities []), 0%nat;
             split; [constructor | auto]).
      apply run_commands_ok_inv in H as [n Hsteps].
      eexists. exists n. split; [exact Hsteps|].
      cbn [fr_raw fr_entities fr_rules]. split; [reflexivity|].
      split; [reflexivity|]. right. exists d, s. split; [reflexivity|].
      split; [|reflexivity].
      cbn [subscript] in Hcode. destruct (dict_get "code_execution" d);
        [now injection Hcode as -> | discriminate].
    + destruct (dict_get_default "non-bids" rules__);
        apply run_commands_ok_inv in H as [n Hsteps];
        eexists; exists n; (split; [exact Hsteps|]); auto.
  - apply ret_inv in H as [-> ->].
    exists (mk_frame r rules__ entities []), 0%nat. split; [constructor | auto].
Qed.

Lemma nth_error_strs commands n :
  match nth_error (map VStr commands) n with
  | Some (VStr _) => (n < length commands)%nat
  | Some _ => False
  | None => (length commands <= n)%nat
  end.
Proof.
  revert n. induction commands as [|c commands IH]; intros [|n]; cbn; try lia.
  specialize (IH n). destruct (nth_error (map VStr commands) n) as [[]|]; lia.
Qed.

(** With a rule that is a string or a list of strings, the stage is the
    loop over the commands from the first frame. *)
Lemma code_execution_stage_loop rules__ entities r non_bids code commands :
  dict_get "non-bids" rules__ = Some (VDict non_bids) ->
  dict_get "code_execution" non_bids = Some code ->
  code_commands code = Some commands ->
  forall w,
    code_execution_stage E rules__ entities r w
    = run_commands E (rounds E) 0
        (first_frame E rules__ entities r non_bids code commands) w.
Proof.
  intros Hnb Hcode Hcmds w. unfold code_execution_stage, dict_get_default.
  rewrite Hnb. unfold first_frame, listed.
  erewrite bind_ok;
    [|unfold lift; cbn [py_in]; unfold dict_has; rewrite Hcode; reflexivity].
  cbv iota.
  erewrite bind_ok; [|unfold lift; cbn [subscript]; rewrite Hcode; reflexivity].
  destruct code as [ | | | s | l | ]; try discriminate.
  - injection Hcmds as <-. reflexivity.
  - cbn [code_commands] in Hcmds.
    destruct (Parsers.strings_of l) as [ss|] eqn:Hss; [|discriminate].
    injection Hcmds as <-. apply strings_of_map in Hss. now subst l.
Qed.


Lemma existsb_eqb_In p l : existsb (String.eqb p) l = true <-> In p l.
Proof.
  rewrite existsb_exists. split.
  - intros (x & Hin & Heq). apply String.eqb_eq in Heq. now subst.
  - intros Hin. exists p. split; [exact Hin | apply String.eqb_refl].
Qed.

(** After the cleaning, the files under the root are those of the snapshot
    that are still there. *)
Lemma clean_files_spec bp orig_files w :
  exists w',
    clean_files E bp orig_files w = (Ok tt, w')
    /\ forall p,
         In p (_get_files (root E bp) w')
         <-> In p orig_files /\ In p (_get_files (root E bp) w).
Proof.
  unfold clean_files. eexists. split; [reflexivity|].
  intros p. rewrite !elem_of_get_files, files_remove_all.
  set (new_files := List.filter _ _).
  assert (Hnew : p ∈ new_files <->
                 In p (_get_files (root E bp) w) /\ ~ In p orig_files).
  { unfold new_files. rewrite list_elem_of_In, filter_In.
    rewrite negb_true_iff, <- not_true_iff_false, existsb_eqb_In. tauto. }
  rewrite elem_of_get_files in Hnew.
  destruct (bool_decide (p ∈ new_files)) eqn:Hd.
  - apply bool_decide_eq_true in Hd. apply Hnew in Hd as [[Hu Hs] Hno].
    split; [intros [_ [v Hv]]; discriminate | tauto].
  - apply bool_decide_eq_false in Hd. rewrite Hnew in Hd.
    split; [|tauto]. intros [Hu Hs]. split; [|tauto].
    destruct (in_dec string_dec p orig_files); tauto.
Qed.

Lemma sidecar_overlay_total bp rules__ real_times w :
  exists v w', sidecar_overlay E bp rules__ real_times w = (Ok v, w').
Proof. unfold sidecar_overlay. apply try_except_total. Qed.

Lemma channels_overlay_total bp rules__ w channels_path :
  update E bp "eeg" "channels" ".tsv" = Ok channels_path ->
  exists v w', channels_overlay E bp rules__ w = (Ok v, w').
Proof.
  intros Hupd. unfold channels_overlay. unfold bind at 1, lift at 1.
  rewrite Hupd. apply try_except_total.
Qed.

(** A preview that returns went through the snapshot, the writer, the
    dataset description, the overlays and the cleaning, in that order. *)
Lemma preview_inv file rules bids_root w m pv w' :
  apply_rules_to_single_file E file rules bids_root false true w
  = (Ok (m, pv), w') ->
  exists bp r description rules__ real_times ov
         w_snap w_written w_described w_pre,
    write_raw_bids E r bp true w_snap = (Ok tt, w_written)
    /\ update_dataset_description E description (root E bp) false w_written
       = (Ok tt, w_described)
    /\ post_processing E bp rules__ real_times w_described = (Ok ov, w_pre)
    /\ clean_files E bp (_get_files (root E bp) w_snap) w_pre = (Ok tt, w').
Proof.
  unfold apply_rules_to_single_file. intros H.
  apply bind_ok_inv in H as (rules0 & w0 & _ & H).
  apply bind_ok_inv in H as (r0 & w1 & _ & H).
  apply bind_ok_inv in H as (merged & w2 & _ & H).
  destruct (dict_get "entities" merged) as [entities|];
    [|now apply raise_not_ok in H].
  apply bind_ok_inv in H as (r1 & w3 & _ & H).
  apply bind_ok_inv in H as (r2 & w4 & _ & H).
  destruct (dict_has "non-bids" merged); [|now apply raise_not_ok in H].
  unfold with_non_bids in H.
  apply bind_ok_inv in H as (nr & w5 & _ & H).
  unfold after_commands in H.
  apply bind_ok_inv in H as (kwargs & w6 & _ & H).
  apply bind_ok_inv in H as (bp & w7 & _ & H).
  apply bind_ok_inv in H as (d & w8 & Hd & H).
  unfold mode_dispatch in Hd.
  apply bind_ok_inv in Hd as (r3 & w9 & Hcrop & Hd).
  apply lift_ok_inv in Hcrop as [_ ->].
  apply bind_ok_inv in Hd as (orig & w10 & Hsnap & Hd).
  unfold gets in Hsnap. injection Hsnap as <- <-.
  apply bind_ok_inv in Hd as ([] & w11 & Hwrite & Hd).
  apply ret_inv in Hd as [-> ->].
  cbn [d_bids_path d_orig_files d_raw negb andb orb] in H.
  apply bind_ok_inv in H as ([] & w12 & Hdescr & H).
  apply bind_ok_inv in H as (target & w13 & Htarget & H).
  unfold fpath_now in Htarget. injection Htarget as _ <-.
  apply bind_ok_inv in H as (ov & w14 & Hov & H).
  apply bind_ok_inv in Hov as (o & w15 & Hpost & Hov).
  apply ret_inv in Hov as [-> ->].
  apply bind_ok_inv in H as (pd & w16 & Hpd & H).
  apply ret_inv in Hpd as [-> ->].
  apply bind_ok_inv in H as ([] & w17 & Hclean & H).
  apply ret_inv in H as [_ ->].
  eauto 15.
Qed.

(** C1, amended: when a preview returns, the files under the output root
    are exactly the files of the snapshot taken before the writer ran that
    are still there, so that no file created during the preview remains;
    the sidecar overlay never raises, and the channel-table overlay raises
    only if the path of the table cannot be built, so that a failure inside
    either does not keep the cleaning from running. *)
Theorem preview_rollback :
  (forall file rules bids_root w m pv w',
     apply_rules_to_single_file E file rules bids_root false true w
     = (Ok (m, pv), w') ->
     exists bp r description rules__ real_times ov
            w_snap w_written w_described w_pre,
       write_raw_bids E r bp true w_snap = (Ok tt, w_written)
       /\ update_dataset_description E description (root E bp) false w_written
          = (Ok tt, w_described)
       /\ post_processing E bp rules__ real_times w_described = (Ok ov, w_pre)
       /\ clean_files E bp (_get_files (root E bp) w_snap) w_pre = (Ok tt, w')
       /\ forall p,
            In p (_get_files (root E bp) w')
            <-> In p (_get_files (root E bp) w_snap)
                /\ In p (_get_files (root E bp) w_pre))
  /\ (forall bp rules__ real_times w,
        exists v w', sidecar_overlay E bp rules__ real_times w = (Ok v, w'))
  /\ (forall bp rules__ w channels_path,
        update E bp "eeg" "channels" ".tsv" = Ok channels_path ->
        exists v w', channels_overlay E bp rules__ w = (Ok v, w')).
Proof.
  split; [|split].
  - intros file rules bids_root w m pv w' H.
    apply preview_inv in H
      as (bp & r & description & rules__ & real_times & ov
          & w_snap & w_written & w_described & w_pre
          & Hwrite & Hdescr & Hpost & Hclean).
    exists bp, r, description, rules__, real_times, ov,
      w_snap, w_written, w_described, w_pre.
    repeat (split; [assumption|]).
    destruct (clean_files_spec bp (_get_files (root E bp) w_snap) w_pre)
      as (w'' & Hclean' & Hspec).
    rewrite Hclean in Hclean'. injection Hclean' as <-. exact Hspec.
  - apply sidecar_overlay_total.
  - apply channels_overlay_total.
Qed.

Lemma dict_get_without_description k rules__ :
  k <> "dataset_description" ->
  dict_get k (without_dataset_description rules__) = dict_get k rules__.
Proof.
  intros Hk. unfold without_dataset_description.
  destruct (dict_has "dataset_description" rules__); [|reflexivity].
  apply dict_get_del_ne. congruence.
Qed.

(** With a [non-bids] section the target is resolved: the mapping has an
    [IO] section with the path of the path object built from the entities
    and the root, and the file as source. *)
Lemma target_resolved_after_commands f rules__ entities bids_root write preview
    r w m p w' :
  after_commands E f rules__ entities bids_root write preview r w
  = (Ok (m, p), w') ->
  exists kwargs bp0 bp w_target target,
    entities = VDict kwargs
    /\ BIDSPath E kwargs bids_root = Ok bp0
    /\ (write || preview = true -> bp = bp0)
    /\ fpath E bp w_target = Ok target
    /\ dict_get "IO" m
       = Some (VDict [("target", VStr target); ("source", VStr f)]).
Proof.
  unfold after_commands. intros H.
  apply bind_ok_inv in H as (kwargs & w0 & Hkw & H).
  apply lift_ok_inv in Hkw as [Hkw ->].
  destruct entities as [ | | | | |d]; try discriminate. injection Hkw as ->.
  apply bind_ok_inv in H as (bp0 & w1 & Hbp & H).
  apply lift_ok_inv in Hbp as [Hbp ->].
  apply bind_ok_inv in H as (d & w2 & Hd & H).
  apply bind_ok_inv in H as ([] & w3 & _ & H).
  apply bind_ok_inv in H as (target & w4 & Htarget & H).
  unfold fpath_now in Htarget. injection Htarget as Htarget <-.
  apply bind_ok_inv in H as (ov & w5 & _ & H).
  apply bind_ok_inv in H as (pd & w6 & _ & H).
  apply bind_ok_inv in H as ([] & w7 & _ & H).
  apply ret_inv in H as [[= -> ->] _].
  exists kwargs, bp0, (d_bids_path E d), w3, target.
  repeat split; auto.
  - intros Hmode. unfold mode_dispatch in Hd.
    destruct write.
    + apply bind_ok_inv in Hd as ([] & w8 & _ & Hd).
      now apply ret_inv in Hd as [-> _].
    + simpl in Hmode. subst preview.
      apply bind_ok_inv in Hd as (r' & w8 & _ & Hd).
      apply bind_ok_inv in Hd as (orig & w9 & _ & Hd).
      apply bind_ok_inv in Hd as ([] & w10 & _ & Hd).
      now apply ret_inv in Hd as [-> _].
  - rewrite dict_get_without_description by discriminate.
    apply dict_get_set_eq.
Qed.

Lemma mapping_drops_dataset_description file rules root write preview w m p w' :
  apply_rules_to_single_file E file rules root write preview w = (Ok (m, p), w') ->
  dict_has "dataset_description" m = false.
Proof.
  intros H. apply single_file_mapping in H as [rules' ->].
  apply without_dataset_description_has.
Qed.

End WithEnv.

Import Bench.

Lemma preview_rollback_witness :
  exists bp r description rules__ real_times ov
         w_snap w_written w_described w_pre,
    write_raw_bids bench r bp true w_snap = (Ok tt, w_written)
    /\ update_dataset_description bench description (root bench bp) false
         w_written = (Ok tt, w_described)
    /\ post_processing bench bp rules__ real_times w_described = (Ok ov, w_pre)
    /\ clean_files bench bp (_get_files (root bench bp) w_snap) w_pre
       = (Ok tt, snd bench_preview)
    /\ forall p,
         In p (_get_files (root bench bp) (snd bench_preview))
         <-> In p (_get_files (root bench bp) w_snap)
             /\ In p (_get_files (root bench bp) w_pre).
Proof.
  apply (proj1 (preview_rollback bench) "data/sub-01/rest.vhdr" (VDict rules)
           "out" disk (bench_record "01" "out/sub-01") bench_preview_doc).
  vm_compute. reflexivity.
Defined.

(** A preview whose dataset description cannot be applied raises after the
    writer has run. *)
Example preview_with_bad_description_raises :
  fst (apply_rules_to_single_file bench "data/sub-01/rest.vhdr"
         (VDict rules_with_bad_description) "out" false true disk)
  = Raise TypeError.
Proof. vm_compute. reflexivity. Qed.

(** C1, as stated, fails: the dataset description of the rules is not a
    mapping, [update_dataset_description] raises after the writer has put
    its files under the root, the exception leaves the function before the
    cleaning, and [out/sub-01_eeg.vhdr], which was not there before, stays. *)
Lemma preview_leaks_when_description_fails :
  ~ preview_leaves_no_file bench "data/sub-01/rest.vhdr"
      (VDict rules_with_bad_description) "out" disk.
Proof.
  intros H. specialize (H "out/sub-01_eeg.vhdr").
  vm_compute in H. apply H. right. left. reflexivity.
Qed.


(** The second command of [rules_with_hook] runs although the first one
    raised, and what it does to the entities reaches the mapping and the
    target: the first command is reported on the standard output, the
    subject is the one the command put, not the one of the path. *)
Example hook_changes_reach_the_mapping :
  fst (apply_rules_to_single_file bench "data/sub-01/rest.vhdr"
         (VDict rules_with_hook) "out" false false disk)
  = Ok ([("entities", VDict [("task", VStr "rest"); ("subject", VStr "99")]);
         ("non-bids",
          VDict [("path_analysis", path_rules);
                 ("code_execution",
                  VList [VStr "raw.no_such_method()";
                         VStr "entities['subject'] = '99'"])]);
         ("IO", VDict [("target", VStr "out/sub-99_eeg.vhdr");
                       ("source", VStr "data/sub-01/rest.vhdr")])],
        VBool false)
  /\ stdout (snd (apply_rules_to_single_file bench "data/sub-01/rest.vhdr"
                    (VDict rules_with_hook) "out" false false disk))
     = [error_string "raw.no_such_method()"
          "NameError: raw.no_such_method()"].
Proof. split; vm_compute; reflexivity. Qed.

(** C4 at rules without a [non-bids] section: the dry run returns the
    merged rules and no [IO] section, neither source nor target. *)
Example mapping_without_non_bids_has_no_IO :
  fst (apply_rules_to_single_file bench "data/sub-01/rest.vhdr"
         (VDict rules_without_non_bids) "out" false false disk)
  = Ok (rules_without_non_bids, VBool false)
  /\ dict_get "IO" rules_without_non_bids = None.
Proof. split; vm_compute; reflexivity. Qed.

End PipelineTheorems.

(** ** The batch driver *)

Module BatchTheorems.
Import Doc PathAnalysis World Collab Rules PipelineClaims.
Import DocFacts WorldFacts OsPathFacts PipelineTheorems.





(** No directory is made below a file, and none is made twice. *)
Example makedirs_below_a_file :
  makedirs "out/code/sovabids"
    (mk_world (<["out" := VStr "a file"]> ∅) ∅ [])
  = (Raise NotADirectoryError, mk_world (<["out" := VStr "a file"]> ∅) ∅ [])
  /\ dirs (snd (makedirs "out/code/sovabids" (mk_world ∅ ∅ [])))
     = {["out/code/sovabids"]} ∪ ({["out/code"]} ∪ ({["out"]} ∪ ∅)).
Proof. split; vm_compute; reflexivity. Qed.

Section WithEnv.
Context (E : Env).

Lemma load_rules_world rules w : snd (load_rules rules w) = w.
Proof.
  destruct rules; try reflexivity. simpl. unfold read_file.
  now destruct (files w !! s).
Qed.

Lemma get_files_world source_path rules w :
  snd (get_files E source_path rules w) = w.
Proof.
  unfold get_files, bind.
  pose proof (load_rules_world rules w) as Hl.
  destruct (load_rules rules w) as [[rules_|e] w1]; simpl in Hl; subst w1;
    [|reflexivity].
  destruct source_path; try reflexivity.
  unfold lift. destruct (accepted_extensions E rules_); reflexivity.
Qed.

(** The loop of the batch, as a relation. *)
Lemma convert_all_converted rules_ root fs : forall w ms w',
  convert_all E (map VStr fs) rules_ root w = (Ok ms, w')
  <-> converted E rules_ root fs w ms w'.
Proof.
  induction fs as [|f fs IH]; intros w ms w'; cbn [map convert_all].
  - split.
    + intros H. apply ret_inv in H as [-> ->]. constructor.
    + inversion 1. reflexivity.
  - split.
    + intros H.
      apply bind_ok_inv in H as ([m p] & w1 & Hf & H).
      apply bind_ok_inv in H as (ms' & w2 & Hrest & H).
      apply ret_inv in H as [-> ->].
      econstructor; [exact Hf | now apply IH].
    + inversion 1 as [|f' fs' w0 m p w1 ms' w2 Hf Hrest]; subst.
      apply IH in Hrest.
      erewrite bind_ok by exact Hf. erewrite bind_ok by exact Hrest.
      reflexivity.
Qed.

Lemma convert_all_ok_inv rules_ root filepaths : forall w ms w',
  convert_all E filepaths rules_ root w = (Ok ms, w') ->
  exists fs, filepaths = map VStr fs /\ converted E rules_ root fs w ms w'.
Proof.
  induction filepaths as [|x filepaths IH]; intros w ms w' H.
  - apply ret_inv in H as [-> ->]. exists []. split; [reflexivity | constructor].
  - destruct x as [ | | |f| | ];
      try (cbn [convert_all] in H;
           apply bind_ok_inv in H as (? & ? & _ & H);
           now apply raise_not_ok in H).
    cbn [convert_all] in H.
    apply bind_ok_inv in H as ([m p] & w1 & Hf & H).
    apply bind_ok_inv in H as (ms' & w2 & Hrest & H).
    apply ret_inv in H as [-> ->].
    apply IH in Hrest as (fs & -> & Hconv).
    exists (f :: fs). split; [reflexivity|]. econstructor; eauto.
Qed.

(** The first exception ends the loop, with the world as it was left. *)
Lemma convert_all_raise rules_ root pre : forall w recs w1 f suf e w2,
  converted E rules_ root pre w recs w1 ->
  apply_rules_to_single_file E f rules_ root false false w1 = (Raise e, w2) ->
  convert_all E (map VStr (pre ++ f :: suf)) rules_ root w = (Raise e, w2).
Proof.
  induction pre as [|f0 pre IH]; intros w recs w1 f suf e w2 Hpre Hf.
  - inversion Hpre; subst. cbn [app map convert_all].
    now apply bind_raise.
  - inversion Hpre as [|f' fs' w0 m p w' ms' w'' Hf0 Hrest]; subst.
    cbn [app map convert_all].
    erewrite bind_ok by exact Hf0.
    now erewrite bind_raise by (eapply IH; eauto).
Qed.

Lemma converted_no_description rules_ root fs w ms w' :
  converted E rules_ root fs w ms w' ->
  Forall (fun m => dict_has "dataset_description" m = false) ms.
Proof.
  induction 1 as [|f fs w m p w1 ms w2 Hf _ IH]; constructor; [|exact IH].
  eapply mapping_drops_dataset_description; eauto.
Qed.


Lemma individual_mapping_document rules_d source_path root recs :
  individual (mapping_document rules_d source_path root recs) = map VDict recs.
Proof. reflexivity. Qed.


(** C2, amended: a file whose merged rule document lacks [entities] fails
    its validation with an [AssertionError]; in a batch run the exception
    of the first file that fails leaves [apply_rules] as it is, with the
    world as that file left it: nothing is returned, no directory is made
    and no mapping file is written, whatever the files before it gave. *)
Theorem failed_file_aborts_batch :
  (forall file rules_d root write preview w r w1 doc,
     read_raw E file w = (Ok r, w1) ->
     get_info_from_path file rules_d = Ok doc ->
     dict_get "entities" doc = None ->
     apply_rules_to_single_file E file (VDict rules_d) root write preview w
     = (Raise AssertionError, w1))
  /\ (forall pre f suf root rules_d mapping_path w recs w1 e w2,
        convert_all E (map VStr pre) (VDict rules_d) root w = (Ok recs, w1) ->
        apply_rules_to_single_file E f (VDict rules_d) root false false w1
        = (Raise e, w2) ->
        apply_rules E (VList (map VStr (pre ++ f :: suf))) root (VDict rules_d)
          mapping_path w
        = (Raise e, w2)).
Proof.
  split.
  - intros file rules_d root write preview w r w1 doc Hraw Hinfo Hent.
    unfold apply_rules_to_single_file.
    unfold bind at 1. unfold ret at 1.
    erewrite bind_ok by exact Hraw.
    unfold bind at 1, lift at 1. rewrite Hinfo, Hent. reflexivity.
  - intros pre f suf root rules_d mapping_path w recs w1 e w2 Hpre Hf.
    apply convert_all_converted in Hpre.
    pose proof (convert_all_raise _ _ _ _ _ _ _ suf _ _ Hpre Hf) as Hall.
    unfold apply_rules. unfold bind at 1. cbn [load_rules]. unfold ret at 1.
    assert (Hlist : map VStr (pre ++ f :: suf)
                    = VStr (hd f pre) :: map VStr (tl (pre ++ f :: suf))).
    { destruct pre; reflexivity. }
    rewrite Hlist. unfold bind at 1. unfold ret at 1. rewrite <- Hlist.
    now erewrite bind_raise by exact Hall.
Qed.


(** C10: the mapping that [apply_rules_to_single_file] returns has no
    [dataset_description] key, whatever the rules held and in every mode,
    and so has none of the records that [apply_rules] collects under
    [Individual]. *)
Theorem no_dataset_description_in_mappings :
  (forall file rules root write preview w m p w',
     apply_rules_to_single_file E file rules root write preview w
     = (Ok (m, p), w') ->
     dict_has "dataset_description" m = false)
  /\ (forall source_path root rules mapping_path w data w',
        apply_rules E source_path root rules mapping_path w = (Ok data, w') ->
        Forall (fun record =>
                  exists m, record = VDict m
                            /\ dict_has "dataset_description" m = false)
          (individual data)).
Proof.
  split.
  - apply mapping_drops_dataset_description.
  - intros source_path root rules mapping_path w data w' H.
    unfold apply_rules in H.
    apply bind_ok_inv in H as (rules_ & w0 & _ & H).
    apply bind_ok_inv in H as (filepaths & w1 & _ & H).
    apply bind_ok_inv in H as (ms & w2 & Hconv & H).
    destruct (mapping_location root mapping_path) as [outputfolder outputname].
    apply bind_ok_inv in H as ([] & w3 & _ & H).
    apply bind_ok_inv in H as (rules_d & w4 & _ & H).
    apply bind_ok_inv in H as ([] & w5 & _ & H).
    apply bind_ok_inv in H as ([] & w6 & _ & H).
    apply ret_inv in H as [-> _].
    rewrite individual_mapping_document.
    apply convert_all_ok_inv in Hconv as (fs & _ & Hconv).
    apply converted_no_description in Hconv.
    induction Hconv as [|m ms' Hm _ IH]; constructor; [|exact IH].
    now exists m.
Qed.

End WithEnv.

Import Bench.

(** C2, as stated, fails: with rules that give no entities the first file
    fails its validation and [apply_rules] raises; it returns no document
    and writes no mapping file. *)
Lemma batch_stops_at_failed_file :
  ~ batch_survives_failure bench (VStr "data") "out"
      (VDict rules_without_entities) "" disk.
Proof.
  intros (data & w' & H & _). vm_compute in H. discriminate H.
Qed.

Lemma failed_file_aborts_batch_witness :
  apply_rules_to_single_file bench "data/sub-01/rest.vhdr"
    (VDict rules_without_entities) "out" false false disk
  = (Raise AssertionError, disk)
  /\ apply_rules bench
       (VList (map VStr ([] ++ "data/sub-01/rest.vhdr" :: ["data/sub-02/rest.vhdr"])))
       "out" (VDict rules_without_entities) "" disk
     = (Raise AssertionError, disk).
Proof.
  split.
  - apply (proj1 (failed_file_aborts_batch bench) "data/sub-01/rest.vhdr"
             rules_without_entities "out" false false disk
             "data/sub-01/rest.vhdr" disk rules_without_entities).
    + reflexivity.
    + vm_compute. reflexivity.
    + reflexivity.
  - apply (proj2 (failed_file_aborts_batch bench) [] "data/sub-01/rest.vhdr"
             ["data/sub-02/rest.vhdr"] "out" rules_without_entities "" disk
             [] disk AssertionError disk).
    + reflexivity.
    + vm_compute. reflexivity.
Defined.

(** The batch over [Bench.disk] with a bare file name as mapping path. *)
Example bench_batch_runs :
  fst (apply_rules bench (VStr "data") "out" (VDict rules) "map.yml" disk)
  = Ok (mapping_document rules (VStr "data") "out" bench_records).
Proof. vm_compute. reflexivity. Qed.



Lemma no_dataset_description_in_mappings_witness :
  dict_has "dataset_description" (bench_record "01" "out/sub-01") = false
  /\ Forall (fun record =>
               exists m, record = VDict m
                         /\ dict_has "dataset_description" m = false)
       (individual (mapping_document rules (VStr "data") "out" bench_records)).
Proof.
  split.
  - apply (proj1 (no_dataset_description_in_mappings bench)
             "data/sub-01/rest.vhdr" (VDict rules) "out" false true disk
             (bench_record "01" "out/sub-01") bench_preview_doc
             (snd bench_preview)).
    vm_compute. reflexivity.
  - apply (proj2 (no_dataset_description_in_mappings bench)
             (VStr "data") "out" (VDict rules) "map.yml" disk
             (mapping_document rules (VStr "data") "out" bench_records)
             (snd (apply_rules bench (VStr "data") "out" (VDict rules)
                     "map.yml" disk))).
    vm_compute. reflexivity.
Defined.

End BatchTheorems.

(** ** Further properties of [rules.py] *)

Module RulesExtras.
Import Doc PathAnalysis World Collab Rules PipelineClaims.
Import DocFacts WorldFacts OsPathFacts PipelineTheorems BatchTheorems.

(** The folder and the name of the mapping file are a tidy folder and a
    plain name, whatever the arguments. *)
Lemma mapping_location_tidy bids_root mapping_path :
  OsPath.tidy
    (list_ascii_of_string (fst (mapping_location bids_root mapping_path)))
  /\ OsPath.plain_name
       (list_ascii_of_string (snd (mapping_location bids_root mapping_path))).
Proof.
  unfold mapping_location, OsPath.split.
  pose proof (split_chars_tail_plain (list_ascii_of_string mapping_path)) as Htail.
  pose proof (split_chars_head_tidy (list_ascii_of_string mapping_path)) as Hhead.
  destruct (OsPath.split_chars (list_ascii_of_string mapping_path)) as [h t].
  cbn [fst snd] in *. split.
  - destruct h as [|c h].
    + cbn [string_of_list_ascii String.eqb]. apply default_folder_tidy.
    + cbn [string_of_list_ascii String.eqb].
      change (String c (string_of_list_ascii h))
        with (string_of_list_ascii (c :: h)).
      rewrite list_ascii_of_string_of_list_ascii. now apply Hhead.
  - destruct t as [|c t].
    + cbn [string_of_list_ascii String.eqb]. split; [discriminate | reflexivity].
    + cbn [string_of_list_ascii String.eqb].
      change (String c (string_of_list_ascii t))
        with (string_of_list_ascii (c :: t)).
      rewrite list_ascii_of_string_of_list_ascii.
      split; [discriminate | exact Htail].
Qed.

Lemma full_rules_path_split bids_root mapping_path :
  OsPath.split (full_rules_path bids_root mapping_path)
  = mapping_location bids_root mapping_path.
Proof.
  unfold full_rules_path.
  destruct (mapping_location_tidy bids_root mapping_path) as [Ht Hn].
  destruct (mapping_location bids_root mapping_path) as [folder name].
  cbn [fst snd] in *. now apply split_join.
Qed.

(** X7: for every bids path and mapping path, splitting the path of the
    mapping file gives back the folder that [apply_rules] makes and the name
    it chose: the file is opened in the directory that was just made, and
    its name has no separator and is not empty. *)
Theorem mapping_path_splits_back bids_root mapping_path :
  OsPath.split (full_rules_path bids_root mapping_path)
  = mapping_location bids_root mapping_path
  /\ snd (mapping_location bids_root mapping_path) <> ""
  /\ forallb (fun c => negb (OsPath.is_slash c))
       (list_ascii_of_string (snd (mapping_location bids_root mapping_path)))
     = true.
Proof.
  split; [apply full_rules_path_split|].
  destruct (mapping_location_tidy bids_root mapping_path) as [_ [Hne Hplain]].
  split; [|exact Hplain].
  intros Hn. apply Hne. now rewrite Hn.
Qed.

(** X8: the path reported by [apply_rules] can be given back as
    [mapping_path]: the mapping file is then written at that same path,
    none of the defaults comes in. *)
Theorem mapping_path_is_stable bids_root mapping_path :
  full_rules_path bids_root (full_rules_path bids_root mapping_path)
  = full_rules_path bids_root mapping_path.
Proof.
  pose proof (full_rules_path_split bids_root mapping_path) as Hs.
  destruct (mapping_location_tidy bids_root mapping_path) as [Ht [Hn _]].
  unfold full_rules_path at 1. unfold mapping_location at 1. rewrite Hs.
  unfold full_rules_path.
  destruct (mapping_location bids_root mapping_path) as [folder name].
  cbn [fst snd] in *.
  assert (Hname : String.eqb name "" = false).
  { destruct name; [now contradiction Hn | reflexivity]. }
  assert (Hfolder : String.eqb folder "" = false).
  { destruct folder; [|reflexivity]. unfold OsPath.tidy in Ht. simpl in Ht.
    contradiction. }
  now rewrite Hname, Hfolder.
Qed.

Section WithEnv.
Context (E : Env).

(** X1: a source that is neither a string nor a non-empty list whose first
    element is a string (the empty list, a number, a mapping, a list that
    starts with something else) makes [apply_rules] raise [ValueError] once
    the rules are loaded; no file is converted and the world is untouched. *)
Theorem apply_rules_rejects_bad_source source_path root rules_d mapping_path w :
  match source_path with
  | VStr _ => False
  | VList (VStr _ :: _) => False
  | _ => True
  end ->
  apply_rules E source_path root (VDict rules_d) mapping_path w
  = (Raise ValueError, w).
Proof.
  intros Hbad. unfold apply_rules.
  destruct source_path as [ | | | s | [|[ | | |f| | ] rest] | ];
    try contradiction; reflexivity.
Qed.

(** X2: a list of commands with an element that is not a string runs the
    commands before it, each as [hooks_steps] describes, and then raises
    [TypeError]: the report of the failed [exec] cannot be built, and the
    commands after it are not run. This is for commands that leave their
    list alone, and rounds that cover the commands before the element. *)
Theorem non_string_command_aborts pre x rest :
  match x with VStr _ => False | _ => True end ->
  commands_fixed E ->
  (length pre <= rounds E)%nat ->
  forall fr w,
    fr_commands fr = map VStr pre ++ x :: rest ->
    exists fr' w',
      hooks_steps E (length pre) 0 fr w fr' w'
      /\ run_commands E (rounds E) 0 fr w = (Raise TypeError, w').
Proof.
  intros Hx Hfixed Hrounds fr w Hlist.
  destruct (run_commands_trace E (rounds E) 0 fr w)
    as (n & fr' & w' & Hn & Hsteps & Hres).
  destruct (hooks_steps_fixed E _ _ _ _ _ _ Hfixed Hsteps) as [Hsame Hall].
  cbn [Nat.add] in Hres, Hall. rewrite Hsame, Hlist in Hres.
  assert (Hat : nth_error (map VStr pre ++ x :: rest) (length pre) = Some x).
  { rewrite nth_error_app2 by (rewrite length_map; lia).
    rewrite length_map, Nat.sub_diag. reflexivity. }
  assert (Hn' : n = length pre).
  { destruct (Nat.lt_trichotomy n (length pre)) as [Hlt|[Heq|Hgt]];
      [|exact Heq|].
    - exfalso.
      rewrite nth_error_app1 in Hres by (rewrite length_map; lia).
      pose proof (nth_error_strs pre n) as Hstr.
      destruct (nth_error (map VStr pre) n) as [[ | | |c| | ]|];
        try contradiction; [|lia].
      destruct Hres as [-> _]. lia.
    - exfalso. destruct (Hall (length pre)) as [c Hc]; [lia|].
      rewrite Hlist, Hat in Hc. injection Hc as ->. exact Hx. }
  subst n. exists fr', w'. split; [exact Hsteps|].
  rewrite Hat in Hres.
  destruct x as [ | | |c| | ]; try exact Hres. contradiction.
Qed.

(** X3: a [code_execution] rule that is neither a string nor a list (a
    number, a mapping, a null) is passed over: nothing is executed, nothing
    is printed, and the recording, the rule document and the entities stay
    as they are. *)
Theorem odd_code_execution_is_skipped rules__ entities non_bids code r w :
  dict_get "non-bids" rules__ = Some (VDict non_bids) ->
  dict_get "code_execution" non_bids = Some code ->
  match code with VStr _ | VList _ => False | _ => True end ->
  code_execution_stage E rules__ entities r w
  = (Ok (mk_frame r rules__ entities []), w).
Proof.
  intros Hnb Hcode Hodd. unfold code_execution_stage, dict_get_default.
  rewrite Hnb.
  erewrite bind_ok;
    [|unfold lift; cbn [py_in]; unfold dict_has; rewrite Hcode; reflexivity].
  cbv iota.
  erewrite bind_ok; [|unfold lift; cbn [subscript]; rewrite Hcode; reflexivity].
  destruct code; try contradiction; reflexivity.
Qed.

Lemma dict_get_default_without_description k rules__ :
  k <> "dataset_description" ->
  dict_get_default k (without_dataset_description rules__)
  = dict_get_default k rules__.
Proof.
  intros Hk. unfold dict_get_default.
  now rewrite dict_get_without_description.
Qed.

Lemma after_commands_preview f rules__ entities root write preview r w m p w' :
  after_commands E f rules__ entities root write preview r w = (Ok (m, p), w') ->
  if preview then
    exists dd sc ch,
      p = VDict [("IO", dict_get_default "IO" m);
                 ("entities", dict_get_default "entities" m);
                 ("dataset_description", dd);
                 ("sidecar", sc);
                 ("channels", ch)]
  else p = VBool false.
Proof.
  unfold after_commands. intros H.
  apply bind_ok_inv in H as (kwargs & w0 & _ & H).
  apply bind_ok_inv in H as (bp0 & w1 & _ & H).
  apply bind_ok_inv in H as (d & w2 & _ & H).
  apply bind_ok_inv in H as ([] & w3 & _ & H).
  apply bind_ok_inv in H as (target & w4 & _ & H).
  apply bind_ok_inv in H as (ov & w5 & _ & H).
  apply bind_ok_inv in H as (pd & w6 & Hpd & H).
  apply bind_ok_inv in H as ([] & w7 & _ & H).
  apply ret_inv in H as [[= -> ->] _].
  destruct preview.
  - destruct ov as [o|]; [|now apply raise_not_ok in Hpd].
    apply ret_inv in Hpd as [-> _].
    exists (dasetjson o), (sidecarjson o), (channels o).
    rewrite !dict_get_default_without_description by discriminate.
    reflexivity.
  - now apply ret_inv in Hpd as [-> _].
Qed.

(** X4: without [preview] the second value returned by
    [apply_rules_to_single_file] is [False]; with it, it is a mapping with
    exactly the keys [IO], [entities], [dataset_description], [sidecar] and
    [channels], in that order, whose [IO] and [entities] are those of the
    returned mapping. *)
Theorem preview_document_shape file rules root write preview w m p w' :
  apply_rules_to_single_file E file rules root write preview w
  = (Ok (m, p), w') ->
  if preview then
    exists dd sc ch,
      p = VDict [("IO", dict_get_default "IO" m);
                 ("entities", dict_get_default "entities" m);
                 ("dataset_description", dd);
                 ("sidecar", sc);
                 ("channels", ch)]
  else p = VBool false.
Proof.
  unfold apply_rules_to_single_file. intros H.
  apply bind_ok_inv in H as (rules0 & w0 & _ & H).
  apply bind_ok_inv in H as (r0 & w1 & _ & H).
  apply bind_ok_inv in H as (merged & w2 & _ & H).
  destruct (dict_get "entities" merged) as [entities|];
    [|now apply raise_not_ok in H].
  apply bind_ok_inv in H as (r1 & w3 & _ & H).
  apply bind_ok_inv in H as (r2 & w4 & _ & H).
  destruct (dict_has "non-bids" merged).
  - unfold with_non_bids in H.
    apply bind_ok_inv in H as (nr & w5 & _ & H).
    now apply after_commands_preview in H.
  - destruct preview; [now apply raise_not_ok in H|].
    now apply ret_inv in H as [[= -> ->] _].
Qed.

(** A mapping with a [non-bids] section names the file as its source. *)
Lemma source_recorded f rules root write preview w m p w' :
  apply_rules_to_single_file E f rules root write preview w
  = (Ok (m, p), w') ->
  dict_has "non-bids" m = true ->
  lookup_path ["IO"; "source"] (VDict m) = Some (VStr f).
Proof.
  intros H Hnb. unfold apply_rules_to_single_file in H.
  apply bind_ok_inv in H as (rules0 & w0 & _ & H).
  apply bind_ok_inv in H as (r0 & w1 & _ & H).
  apply bind_ok_inv in H as (merged & w2 & _ & H).
  destruct (dict_get "entities" merged) as [entities|];
    [|now apply raise_not_ok in H].
  apply bind_ok_inv in H as (r1 & w3 & _ & H).
  apply bind_ok_inv in H as (r2 & w4 & _ & H).
  destruct (dict_has "non-bids" merged) eqn:Hm.
  - unfold with_non_bids in H.
    apply bind_ok_inv in H as (nr & w5 & _ & H).
    apply target_resolved_after_commands in H
      as (kwargs & bp0 & bp & wt & target & _ & _ & _ & _ & Hio).
    cbn [lookup_path]. rewrite Hio. reflexivity.
  - destruct preview; [now apply raise_not_ok in H|].
    apply ret_inv in H as [[= -> ->] _].
    unfold dict_has in Hnb, Hm.
    rewrite dict_get_without_description in Hnb by discriminate.
    rewrite Hm in Hnb. discriminate Hnb.
Qed.

(** X5: in a batch over a list of files, the record at each position of
    [Individual] is a mapping and, when it has a [non-bids] section, names
    the file at that position of the list as its [IO.source]: no file is
    skipped and none is moved. *)
Theorem records_follow_files l root rules mapping_path w data w' :
  apply_rules E (VList l) root rules mapping_path w = (Ok data, w') ->
  Forall2 (fun f record =>
             exists m, record = VDict m
                       /\ (dict_has "non-bids" m = true ->
                           lookup_path ["IO"; "source"] record = Some f))
    l (individual data).
Proof.
  intros H. unfold apply_rules in H.
  apply bind_ok_inv in H as (rules_ & w0 & _ & H).
  apply bind_ok_inv in H as (filepaths & w1 & Hl & H).
  assert (Hfp : filepaths = l).
  { destruct l as [|[ | | |f| | ] rest]; try now apply raise_not_ok in Hl.
    now apply ret_inv in Hl as [-> _]. }
  subst filepaths. clear Hl.
  apply bind_ok_inv in H as (ms & w2 & Hconv & H).
  destruct (mapping_location root mapping_path) as [outputfolder outputname].
  apply bind_ok_inv in H as ([] & w3 & _ & H).
  apply bind_ok_inv in H as (rules_d' & w4 & _ & H).
  apply bind_ok_inv in H as ([] & w5 & _ & H).
  apply bind_ok_inv in H as ([] & w6 & _ & H).
  apply ret_inv in H as [-> _].
  rewrite individual_mapping_document.
  apply convert_all_ok_inv in Hconv as (fs & -> & Hconv).
  induction Hconv as [|f fs wa m p wb ms wc Hf _ IH]; cbn [map]; constructor.
  - exists m. split; [reflexivity|]. intros Hnb.
    eapply source_recorded; eauto.
  - exact IH.
Qed.

(** X6: whatever the rules, a batch over a list of files that returns has
    one record in [Individual] for each file of the list. *)
Theorem one_record_per_file l root rules mapping_path w data w' :
  apply_rules E (VList l) root rules mapping_path w = (Ok data, w') ->
  length (individual data) = length l.
Proof.
  intros H. unfold apply_rules in H.
  apply bind_ok_inv in H as (rules_ & w0 & _ & H).
  apply bind_ok_inv in H as (filepaths & w1 & Hl & H).
  assert (Hfp : filepaths = l).
  { destruct l as [|[ | | |f| | ] rest]; try now apply raise_not_ok in Hl.
    now apply ret_inv in Hl as [-> _]. }
  subst filepaths. clear Hl.
  apply bind_ok_inv in H as (ms & w2 & Hconv & H).
  destruct (mapping_location root mapping_path) as [outputfolder outputname].
  apply bind_ok_inv in H as ([] & w3 & _ & H).
  apply bind_ok_inv in H as (rules_d' & w4 & _ & H).
  apply bind_ok_inv in H as ([] & w5 & _ & H).
  apply bind_ok_inv in H as ([] & w6 & _ & H).
  apply ret_inv in H as [-> _].
  rewrite individual_mapping_document.
  apply convert_all_ok_inv in Hconv as (fs & -> & Hconv).
  rewrite !length_map.
  induction Hconv as [|f fs wa m p wb ms wc _ _ IH]; simpl;
    [reflexivity | f_equal; exact IH].
Qed.

Lemma dotted_all_dotted l exts :
  dotted l = Ok exts -> Forall (fun x => exists rest, x = String "." rest) exts.
Proof.
  revert exts. induction l as [|x l IH]; intros exts; cbn [dotted].
  - intros [= <-]. constructor.
  - destruct x as [ | | |x| | ]; try discriminate.
    destruct (list_ascii_of_string x) as [|c cs] eqn:Hx; [discriminate|].
    destruct (dotted l) as [xs|]; [|discriminate].
    intros [= <-]. constructor; [|now apply IH].
    destruct (Ascii.eqb c ".") eqn:Hc.
    + apply Ascii.eqb_eq in Hc. subst c. exists (string_of_list_ascii cs).
      rewrite <- (string_of_list_ascii_of_string x), Hx. reflexivity.
    + now exists x.
Qed.

(** X9: the extensions that [get_files] accepts all start with a dot,
    whether they come from the [non-bids.eeg_extension] rule, written with
    or without one, as a string or as a list, or from the supported
    extensions of the settings. *)
Theorem accepted_extensions_are_dotted rules_ exts :
  accepted_extensions E rules_ = Ok exts ->
  Forall (fun x => exists rest, x = String "." rest) exts.
Proof.
  unfold accepted_extensions.
  destruct (match _ with Ok v => v | Raise _ => _ end);
    try discriminate; apply dotted_all_dotted.
Qed.

(** X10: [get_files] over a directory returns, in the order of the scan,
    exactly the files under the directory whose extension, as
    [os.path.splitext] gives it, is one of the accepted extensions; it
    changes nothing in the world. *)
Theorem get_files_selects source rules w l w' :
  get_files E (VStr source) rules w = (Ok l, w') ->
  w' = w
  /\ exists rules_ exts,
       load_rules rules w = (Ok rules_, w)
       /\ accepted_extensions E rules_ = Ok exts
       /\ l = List.filter
                (fun x => existsb (String.eqb (OsPath.splitext_ext x)) exts)
                (_get_files source w)
       /\ forall p,
            In p l
            <-> In p (_get_files source w) /\ In (OsPath.splitext_ext p) exts.
Proof.
  intros H. pose proof (get_files_world E (VStr source) rules w) as Hw.
  rewrite H in Hw. simpl in Hw. subst w'. split; [reflexivity|].
  unfold get_files in H.
  apply bind_ok_inv in H as (rules_ & w0 & Hload & H).
  pose proof (load_rules_world rules w) as Hw0. rewrite Hload in Hw0.
  simpl in Hw0. subst w0.
  apply bind_ok_inv in H as (exts & w1 & Hext & H).
  apply lift_ok_inv in Hext as [Hext ->].
  apply bind_ok_inv in H as (filepaths & w2 & Hscan & H).
  unfold gets in Hscan. injection Hscan as <- <-.
  apply ret_inv in H as [-> _].
  exists rules_, exts.
  split; [exact Hload|]. split; [exact Hext|]. split; [reflexivity|].
  intros p. rewrite filter_In, existsb_exists. split.
  - intros [Hin (x & Hx & Heq)]. apply String.eqb_eq in Heq. subst x. tauto.
  - intros [Hin Hext']. split; [exact Hin|].
    exists (OsPath.splitext_ext p). split; [exact Hext' | apply String.eqb_refl].
Qed.

Lemma after_commands_keeps f rules__ entities root write preview r w m p w' k :
  after_commands E f rules__ entities root write preview r w = (Ok (m, p), w') ->
  k <> "IO" -> k <> "dataset_description" ->
  dict_get k m = dict_get k rules__.
Proof.
  unfold after_commands. intros H Hio Hdd.
  apply bind_ok_inv in H as (kwargs & w0 & _ & H).
  apply bind_ok_inv in H as (bp0 & w1 & _ & H).
  apply bind_ok_inv in H as (d & w2 & _ & H).
  apply bind_ok_inv in H as ([] & w3 & _ & H).
  apply bind_ok_inv in H as (target & w4 & _ & H).
  apply bind_ok_inv in H as (ov & w5 & _ & H).
  apply bind_ok_inv in H as (pd & w6 & _ & H).
  apply bind_ok_inv in H as ([] & w7 & _ & H).
  apply ret_inv in H as [[= -> ->] _].
  rewrite dict_get_without_description by exact Hdd.
  apply dict_get_set_ne. congruence.
Qed.

(** What the stage leaves of the document, when the commands leave it
    alone, differs from what it was given in the [non-bids] section at
    most. *)
Lemma stage_keeps_sections rules__ entities r w fr w' k :
  rules_untouched E ->
  code_execution_stage E rules__ entities r w = (Ok fr, w') ->
  k <> "non-bids" ->
  dict_get k (fr_rules fr) = dict_get k rules__.
Proof.
  intros Hquiet Hstage Hk.
  apply code_execution_stage_inv in Hstage
    as (fr0 & n & Hsteps & _ & _ & Hrules).
  destruct (hooks_steps_untouched E _ _ _ _ _ _ Hquiet Hsteps) as [-> _].
  destruct Hrules as [-> | (non_bids & s & _ & _ & ->)]; [reflexivity|].
  apply dict_get_set_ne. congruence.
Qed.

(** X12: when the commands leave the rule document alone, the mapping of a
    file is the merged rules of that file but for three keys: [IO], which
    the function sets, [dataset_description], which it drops, and
    [non-bids], whose command it may turn into a list. Every other section
    is returned as [get_info_from_path] gives it, in every mode. *)
Theorem mapping_keeps_merged_rules file rules_d root write preview w m p w' :
  rules_untouched E ->
  apply_rules_to_single_file E file (VDict rules_d) root write preview w
  = (Ok (m, p), w') ->
  exists merged,
    get_info_from_path file rules_d = Ok merged
    /\ forall k,
         k <> "IO" -> k <> "dataset_description" -> k <> "non-bids" ->
         dict_get k m = dict_get k merged.
Proof.
  intros Hquiet H. unfold apply_rules_to_single_file in H.
  apply bind_ok_inv in H as (rules0 & w0 & Hr & H).
  apply ret_inv in Hr as [-> ->].
  apply bind_ok_inv in H as (r0 & w1 & _ & H).
  apply bind_ok_inv in H as (merged & w2 & Hm & H).
  apply lift_ok_inv in Hm as [Hm ->].
  exists merged. split; [exact Hm|]. intros k Hio Hdd Hnb.
  destruct (dict_get "entities" merged) as [entities|];
    [|now apply raise_not_ok in H].
  apply bind_ok_inv in H as (r1 & w3 & _ & H).
  apply bind_ok_inv in H as (r2 & w4 & _ & H).
  destruct (dict_has "non-bids" merged).
  - unfold with_non_bids in H.
    apply bind_ok_inv in H as (fr & w5 & Hstage & H).
    rewrite (after_commands_keeps _ _ _ _ _ _ _ _ _ _ _ k H Hio Hdd).
    now apply (stage_keeps_sections _ _ _ _ _ _ k Hquiet Hstage).
  - destruct preview; [now apply raise_not_ok in H|].
    apply ret_inv in H as [[= -> ->] _].
    now apply dict_get_without_description.
Qed.

(** X13: when the commands leave the rule document alone, a
    [code_execution] rule given as one string comes back in the mapping as a
    list with that string as its only element, the rest of the [non-bids]
    section as it was. *)
Theorem string_command_recorded_as_list file rules_d root write preview w m p w'
    merged non_bids s :
  rules_untouched E ->
  get_info_from_path file rules_d = Ok merged ->
  dict_get "non-bids" merged = Some (VDict non_bids) ->
  dict_get "code_execution" non_bids = Some (VStr s) ->
  apply_rules_to_single_file E file (VDict rules_d) root write preview w
  = (Ok (m, p), w') ->
  dict_get "non-bids" m
  = Some (VDict (dict_set "code_execution" (VList [VStr s]) non_bids)).
Proof.
  intros Hquiet Hm Hnb Hcode H. unfold apply_rules_to_single_file in H.
  apply bind_ok_inv in H as (rules0 & w0 & Hr & H).
  apply ret_inv in Hr as [-> ->].
  apply bind_ok_inv in H as (r0 & w1 & _ & H).
  apply bind_ok_inv in H as (merged' & w2 & Hm' & H).
  apply lift_ok_inv in Hm' as [Hm' ->].
  rewrite Hm in Hm'. injection Hm' as <-.
  destruct (dict_get "entities" merged) as [entities|];
    [|now apply raise_not_ok in H].
  apply bind_ok_inv in H as (r1 & w3 & _ & H).
  apply bind_ok_inv in H as (r2 & w4 & _ & H).
  unfold dict_has in H. rewrite Hnb in H.
  unfold with_non_bids in H.
  apply bind_ok_inv in H as (fr & w5 & Hstage & H).
  rewrite (after_commands_keeps _ _ _ _ _ _ _ _ _ _ _ "non-bids" H)
    by discriminate.
  rewrite (code_execution_stage_loop E _ _ _ _ _ [s] Hnb Hcode eq_refl)
    in Hstage.
  apply run_commands_ok_inv in Hstage as [n Hsteps].
  destruct (hooks_steps_untouched E _ _ _ _ _ _ Hquiet Hsteps) as [-> _].
  cbn [first_frame fr_rules listed]. apply dict_get_set_eq.
Qed.

Lemma dict_get_fold_set k other : forall d,
  NoDup (keys other) ->
  dict_get k (fold_left (fun acc kv => dict_set (fst kv) (snd kv) acc) other d)
  = match dict_get k other with
    | Some v => Some v
    | None => dict_get k d
    end.
Proof.
  induction other as [|[k0 v0] other IH]; intros d Hnd; [reflexivity|].
  cbn [keys map fst] in Hnd. apply NoDup_cons in Hnd as [Hnotin Hnd].
  cbn [fold_left fst snd dict_get]. rewrite (IH _ Hnd).
  destruct (String.eqb k k0) eqn:Hk.
  - apply String.eqb_eq in Hk. subst k0.
    rewrite list_elem_of_In in Hnotin.
    apply dict_get_None_keys in Hnotin. rewrite Hnotin.
    apply dict_get_set_eq.
  - apply String.eqb_neq in Hk.
    destruct (dict_get k other); [reflexivity|].
    apply dict_get_set_ne. congruence.
Qed.

(** X14: when the writer has left a sidecar that is a mapping and the
    [sidecar] rule is a mapping, the overlay succeeds and rewrites the
    sidecar file: [RecordingDuration] is the duration taken before the
    writer ran, whatever the rule or the writer gave for it; every other
    key of the rule has the value of the rule; the remaining keys are those
    the writer wrote. *)
Theorem sidecar_rules_overlay bp rules__ real_times w sidecar_path p written
    sidecar :
  update E bp "eeg" "eeg" ".json" = Ok sidecar_path ->
  (forall w0, fpath E sidecar_path w0 = Ok p) ->
  files w !! p = Some (VDict written) ->
  dict_get "sidecar" rules__ = Some (VDict sidecar) ->
  no_repeat (keys sidecar) = true ->
  exists final,
    sidecar_overlay E bp rules__ real_times w
    = (Ok (VStr (OsPath.replace (json_text E (VDict final)) nl "")),
       with_files (<[p := VDict final]> (files w)) w)
    /\ dict_get "RecordingDuration" final = Some real_times
    /\ forall k,
         k <> "RecordingDuration" ->
         dict_get k final
         = match dict_get k sidecar with
           | Some v => Some v
           | None => dict_get k written
           end.
Proof.
  intros Hup Hfp Hfile Hside Hnd.
  exists (dict_set "RecordingDuration" real_times
            (fold_left (fun acc kv => dict_set (fst kv) (snd kv) acc)
               sidecar written)).
  split; [|split].
  - unfold sidecar_overlay, try_except.
    erewrite bind_ok; [|unfold lift; rewrite Hup; reflexivity].
    erewrite bind_ok; [|unfold fpath_now; rewrite Hfp; reflexivity].
    erewrite bind_ok; [|unfold read_file; rewrite Hfile; reflexivity].
    unfold dict_get_default. rewrite Hside.
    erewrite bind_ok; [|unfold lift; cbn [dict_update]; reflexivity].
    erewrite bind_ok;
      [|unfold lift; cbn [dict_update fold_left fst snd]; reflexivity].
    erewrite bind_ok; [|unfold fpath_now; rewrite Hfp; reflexivity].
    erewrite bind_ok; [|unfold write_file; reflexivity].
    erewrite bind_ok; [|unfold fpath_now; rewrite Hfp; reflexivity].
    erewrite bind_ok;
      [|unfold read_file; cbn [files with_files];
        rewrite lookup_insert_eq; reflexivity].
    reflexivity.
  - apply dict_get_set_eq.
  - intros k Hk. rewrite dict_get_set_ne by congruence.
    apply dict_get_fold_set. now apply no_repeat_NoDup.
Qed.

End WithEnv.

(** X11: without a [path_analysis] rule, be it that the document has no
    [non-bids] section or that the section is a mapping without that key,
    [get_info_from_path] calls no parser and does not raise: for every path
    it returns the merge of the rules with an empty mapping. *)
Theorem no_path_analysis_no_parse path rules :
  dict_get "non-bids" rules = None
  \/ (exists non_bids,
        dict_get "non-bids" rules = Some (VDict non_bids)
        /\ dict_get "path_analysis" non_bids = None) ->
  get_info_from_path path rules = Ok (deep_merge_N [rules; []]).
Proof.
  intros Hno.
  assert (Hp : patterns_of path rules = Ok []).
  { unfold patterns_of, dict_get_default.
    destruct Hno as [-> | (non_bids & -> & Hpa)]; [reflexivity|].
    cbn [py_in bind_result]. unfold dict_has. now rewrite Hpa. }
  unfold get_info_from_path. rewrite Hp. reflexivity.
Qed.

Import Bench ExtraClaims.

Lemma apply_rules_rejects_bad_source_witness :
  apply_rules bench (VList []) "out" (VDict rules) "" disk
  = (Raise ValueError, disk).
Proof.
  apply (apply_rules_rejects_bad_source bench (VList []) "out" rules "" disk).
  simpl. exact I.
Defined.

Lemma non_string_command_aborts_witness :
  exists fr' w',
    hooks_steps bench (length ["pass"]) 0
      (mk_frame "data/sub-01/rest.vhdr" rules (VDict [])
         (map VStr ["pass"] ++ VInt 3 :: [VStr "pass"]))
      disk fr' w'
    /\ run_commands bench (rounds bench) 0
         (mk_frame "data/sub-01/rest.vhdr" rules (VDict [])
            (map VStr ["pass"] ++ VInt 3 :: [VStr "pass"]))
         disk
       = (Raise TypeError, w').
Proof.
  apply (non_string_command_aborts bench ["pass"] (VInt 3) [VStr "pass"]).
  - simpl. exact I.
  - intros c [r0 rules0 entities0 commands0] w.
    cbn [exec_command bench]. unfold bench_exec.
    destruct (String.eqb c "pass"); [reflexivity|].
    destruct (String.eqb c "open('notes.txt', 'w').close()"); [reflexivity|].
    destruct (String.eqb c "entities['subject'] = '99'"); [|reflexivity].
    cbn [fr_entities]. destruct entities0; reflexivity.
  - vm_compute. lia.
  - reflexivity.
Defined.

Lemma odd_code_execution_is_skipped_witness :
  code_execution_stage bench
    [("non-bids", VDict [("code_execution", VInt 3)])] (VDict [])
    "data/sub-01/rest.vhdr" disk
  = (Ok (mk_frame "data/sub-01/rest.vhdr"
           [("non-bids", VDict [("code_execution", VInt 3)])] (VDict []) []),
     disk).
Proof.
  apply (odd_code_execution_is_skipped bench
           [("non-bids", VDict [("code_execution", VInt 3)])] (VDict [])
           [("code_execution", VInt 3)] (VInt 3)).
  - reflexivity.
  - reflexivity.
  - simpl. exact I.
Defined.

Lemma preview_document_shape_witness :
  exists dd sc ch,
    bench_preview_doc
    = VDict [("IO", dict_get_default "IO" (bench_record "01" "out/sub-01"));
             ("entities",
              dict_get_default "entities" (bench_record "01" "out/sub-01"));
             ("dataset_description", dd);
             ("sidecar", sc);
             ("channels", ch)].
Proof.
  apply (preview_document_shape bench "data/sub-01/rest.vhdr" (VDict rules)
           "out" false true disk (bench_record "01" "out/sub-01")
           bench_preview_doc (snd bench_preview)).
  vm_compute. reflexivity.
Defined.

Lemma records_follow_files_witness :
  Forall2 (fun f record =>
             exists m, record = VDict m
                       /\ (dict_has "non-bids" m = true ->
                           lookup_path ["IO"; "source"] record = Some f))
    (map VStr bench_paths)
    (individual
       (mapping_document rules (VList (map VStr bench_paths)) "out"
          bench_records)).
Proof.
  apply (records_follow_files bench (map VStr bench_paths) "out" (VDict rules)
           "map.yml" disk
           (mapping_document rules (VList (map VStr bench_paths)) "out"
              bench_records)
           (snd (apply_rules bench (VList (map VStr bench_paths)) "out"
                   (VDict rules) "map.yml" disk))).
  vm_compute. reflexivity.
Defined.

Lemma one_record_per_file_witness :
  length
    (individual
       (mapping_document rules (VList (map VStr bench_paths)) "out"
          bench_records))
  = length (map VStr bench_paths).
Proof.
  apply (one_record_per_file bench (map VStr bench_paths) "out" (VDict rules)
           "map.yml" disk
           (mapping_document rules (VList (map VStr bench_paths)) "out"
              bench_records)
           (snd (apply_rules bench (VList (map VStr bench_paths)) "out"
                   (VDict rules) "map.yml" disk))).
  vm_compute. reflexivity.
Defined.

Lemma accepted_extensions_are_dotted_witness :
  Forall (fun x => exists rest, x = String "." rest) [".vhdr"].
Proof.
  apply (accepted_extensions_are_dotted bench (VDict rules) [".vhdr"]).
  vm_compute. reflexivity.
Defined.

Lemma get_files_selects_witness :
  disk = disk
  /\ exists rules_ exts,
       load_rules (VDict rules) disk = (Ok rules_, disk)
       /\ accepted_extensions bench rules_ = Ok exts
       /\ bench_paths
          = List.filter
              (fun x => existsb (String.eqb (OsPath.splitext_ext x)) exts)
              (_get_files "data" disk)
       /\ forall p,
            In p bench_paths
            <-> In p (_get_files "data" disk)
                /\ In (OsPath.splitext_ext p) exts.
Proof.
  apply (get_files_selects bench "data" (VDict rules) disk bench_paths disk).
  vm_compute. reflexivity.
Defined.

Lemma no_path_analysis_no_parse_witness :
  get_info_from_path "data/sub-01/rest.vhdr" rules_without_non_bids
  = Ok (deep_merge_N [rules_without_non_bids; []]).
Proof.
  apply (no_path_analysis_no_parse "data/sub-01/rest.vhdr"
           rules_without_non_bids).
  left. reflexivity.
Defined.

Lemma mapping_keeps_merged_rules_witness :
  exists merged,
    get_info_from_path "data/sub-01/rest.vhdr" rules = Ok merged
    /\ forall k,
         k <> "IO" -> k <> "dataset_description" -> k <> "non-bids" ->
         dict_get k (bench_record "01" "out/sub-01_eeg.vhdr")
         = dict_get k merged.
Proof.
  apply (mapping_keeps_merged_rules quiet "data/sub-01/rest.vhdr" rules "out"
           false false disk (bench_record "01" "out/sub-01_eeg.vhdr")
           (VBool false)
           (snd (apply_rules_to_single_file quiet "data/sub-01/rest.vhdr"
                   (VDict rules) "out" false false disk))).
  - intros c fr w. cbn [exec_command quiet]. unfold quiet_exec.
    destruct (String.eqb c "pass"); split; reflexivity.
  - vm_compute. reflexivity.
Defined.

Lemma string_command_recorded_as_list_witness :
  dict_get "non-bids" (bench_record "01" "out/sub-01_eeg.vhdr")
  = Some (VDict (dict_set "code_execution"
                   (VList [VStr "raw.no_such_method()"])
                   [("eeg_extension", VStr "vhdr");
                    ("path_analysis", path_rules);
                    ("code_execution", VStr "raw.no_such_method()")])).
Proof.
  apply (string_command_recorded_as_list quiet "data/sub-01/rest.vhdr" rules
           "out" false false disk (bench_record "01" "out/sub-01_eeg.vhdr")
           (VBool false)
           (snd (apply_rules_to_single_file quiet "data/sub-01/rest.vhdr"
                   (VDict rules) "out" false false disk))
           [("entities", VDict [("task", VStr "rest"); ("subject", VStr "01")]);
            ("dataset_description", VDict [("Name", VStr "demo")]);
            ("sidecar", VDict [("PowerLineFrequency", VInt 50)]);
            ("non-bids", VDict [("eeg_extension", VStr "vhdr");
                                ("path_analysis", path_rules);
                                ("code_execution",
                                 VStr "raw.no_such_method()")])]
           [("eeg_extension", VStr "vhdr");
            ("path_analysis", path_rules);
            ("code_execution", VStr "raw.no_such_method()")]
           "raw.no_such_method()").
  - intros c fr w. cbn [exec_command quiet]. unfold quiet_exec.
    destruct (String.eqb c "pass"); split; reflexivity.
  - vm_compute. reflexivity.
  - reflexivity.
  - reflexivity.
  - vm_compute. reflexivity.
Defined.

Lemma sidecar_rules_overlay_witness :
  exists final,
    sidecar_overlay bench (mk_path_object "out" "sub-01" "" "") rules (VInt 60)
      (with_files
         (<["out/sub-01_eeg.json" :=
              VDict [("SamplingFrequency", VInt 500);
                     ("RecordingDuration", VInt 1)]]> (files disk)) disk)
    = (Ok (VStr (OsPath.replace (json_text bench (VDict final)) nl "")),
       with_files
         (<["out/sub-01_eeg.json" := VDict final]>
            (files
               (with_files
                  (<["out/sub-01_eeg.json" :=
                       VDict [("SamplingFrequency", VInt 500);
                              ("RecordingDuration", VInt 1)]]> (files disk))
                  disk)))
         (with_files
            (<["out/sub-01_eeg.json" :=
                 VDict [("SamplingFrequency", VInt 500);
                        ("RecordingDuration", VInt 1)]]> (files disk)) disk))
    /\ dict_get "RecordingDuration" final = Some (VInt 60)
    /\ forall k,
         k <> "RecordingDuration" ->
         dict_get k final
         = match dict_get k [("PowerLineFrequency", VInt 50)] with
           | Some v => Some v
           | None =>
               dict_get k [("SamplingFrequency", VInt 500);
                           ("RecordingDuration", VInt 1)]
           end.
Proof.
  apply (sidecar_rules_overlay bench (mk_path_object "out" "sub-01" "" "")
           rules (VInt 60)
           (with_files
              (<["out/sub-01_eeg.json" :=
                   VDict [("SamplingFrequency", VInt 500);
                          ("RecordingDuration", VInt 1)]]> (files disk)) disk)
           (mk_path_object "out" "sub-01" "eeg" ".json")
           "out/sub-01_eeg.json"
           [("SamplingFrequency", VInt 500); ("RecordingDuration", VInt 1)]
           [("PowerLineFrequency", VInt 50)]).
  - reflexivity.
  - intros w0. vm_compute. reflexivity.
  - vm_compute. reflexivity.
  - reflexivity.
  - reflexivity.
Defined.

End RulesExtras.

(** ** What a dry run leaves alone *)

Module DryRun.
Import Doc PathAnalysis World Collab Rules ExtraClaims WorldFacts.

Lemma keeps_bind {A B} (m : M A) (k : A -> M B) :
  keeps_files m -> (forall a, keeps_files (k a)) -> keeps_files (bind m k).
Proof.
  intros Hm Hk w. unfold bind. specialize (Hm w).
  destruct (m w) as [[a|e] w1]; simpl in *; [|exact Hm].
  now rewrite Hk.
Qed.

Lemma keeps_ret {A} (a : A) : keeps_files (ret a).
Proof. intros w. reflexivity. Qed.

Lemma keeps_raise {A} e : keeps_files (@raise A e).
Proof. intros w. reflexivity. Qed.

Lemma keeps_lift {A} (r : result A) : keeps_files (lift r).
Proof. intros w. reflexivity. Qed.

Lemma keeps_print line : keeps_files (print line).
Proof. intros w. reflexivity. Qed.

Lemma keeps_load_rules rules : keeps_files (load_rules rules).
Proof.
  intros w. destruct rules; try reflexivity. simpl. unfold read_file.
  now destruct (files w !! s).
Qed.

Section WithEnv.
Context (E : Env).
Hypothesis reading : forall f, keeps_files (read_raw E f).
Hypothesis executing : forall c r w, files (snd (exec_command E c r w)) = files w.
Hypothesis describing :
  forall d ro b, keeps_files (update_dataset_description E d ro b).

Lemma keeps_run_commands fuel : forall i fr,
  keeps_files (run_commands E fuel i fr).
Proof.
  induction fuel as [|fuel IH]; intros i fr w; cbn [run_commands];
    destruct (nth_error (fr_commands fr) i) as [[ | | |c| | ]|];
    try reflexivity.
  pose proof (executing c fr w) as Hex.
  destruct (exec_command E c fr w) as [[[traceback|] fr1] w1]; simpl in Hex.
  - unfold bind, print. rewrite IH. exact Hex.
  - rewrite IH. exact Hex.
Qed.

Lemma keeps_code_execution rules__ entities r :
  keeps_files (code_execution_stage E rules__ entities r).
Proof.
  unfold code_execution_stage.
  apply keeps_bind; [apply keeps_lift|]. intros [|]; [|apply keeps_ret].
  apply keeps_bind; [apply keeps_lift|]. intros code.
  destruct code; try apply keeps_ret.
  - destruct (dict_get_default "non-bids" rules__); try apply keeps_ret.
    apply keeps_run_commands.
  - destruct (dict_get_default "non-bids" rules__); apply keeps_run_commands.
Qed.

Lemma keeps_after_commands_dry f rules__ entities root r :
  keeps_files (after_commands E f rules__ entities root false false r).
Proof.
  unfold after_commands.
  apply keeps_bind; [apply keeps_lift|]. intros kwargs.
  apply keeps_bind; [apply keeps_lift|]. intros bp.
  apply keeps_bind.
  { unfold mode_dispatch.
    apply keeps_bind; [apply keeps_lift | intros; apply keeps_ret]. }
  intros d.
  apply keeps_bind; [apply describing|]. intros [].
  apply keeps_bind; [intros w; reflexivity|]. intros target.
  cbn [orb negb andb].
  apply keeps_bind; [apply keeps_ret|]. intros ov.
  apply keeps_bind; [apply keeps_ret|]. intros pd.
  apply keeps_bind; [apply keeps_ret|]. intros [].
  apply keeps_ret.
Qed.

(** X15: a dry run (neither [write] nor [preview]) does not write: if
    reading a recording, executing a command and updating the dataset
    description leave the files as they are, so does
    [apply_rules_to_single_file], however it ends; the writer, the overlays
    and the cleaning are never reached. *)
Theorem dry_run_keeps_files file rules root :
  keeps_files (apply_rules_to_single_file E file rules root false false).
Proof.
  unfold apply_rules_to_single_file.
  apply keeps_bind.
  { destruct rules; try apply keeps_ret; apply keeps_load_rules. }
  intros rules0.
  apply keeps_bind; [apply reading|]. intros r.
  apply keeps_bind; [apply keeps_lift|]. intros merged.
  destruct (dict_get "entities" merged) as [entities|]; [|apply keeps_raise].
  apply keeps_bind; [apply keeps_lift|]. intros r1.
  apply keeps_bind; [apply keeps_lift|]. intros r2.
  destruct (dict_has "non-bids" merged); [|apply keeps_ret].
  unfold with_non_bids.
  apply keeps_bind; [apply keeps_code_execution|]. intros nr.
  apply keeps_after_commands_dry.
Qed.

End WithEnv.

Lemma dry_run_keeps_files_witness :
  keeps_files
    (apply_rules_to_single_file quiet "data/sub-01/rest.vhdr"
       (VDict Bench.rules) "out" false false).
Proof.
  apply (dry_run_keeps_files quiet).
  - intros f w. simpl. unfold Bench.bench_read_raw.
    destruct (files w !! f); reflexivity.
  - intros c r w. simpl. unfold quiet_exec.
    destruct (String.eqb c "pass"); reflexivity.
  - intros d ro b w. reflexivity.
Defined.

End DryRun.

(** ** The upload front end *)

Module AppExtras.
Import Doc World App OsPath OsPathFacts WorldFacts.

Lemma take_drop_while f s : take_while f s ++ drop_while f s = s.
Proof.
  induction s as [|c s IH]; simpl; [reflexivity|].
  destruct (f c); simpl; [now rewrite IH | reflexivity].
Qed.

Lemma string_length_chars s : String.length s = length (list_ascii_of_string s).
Proof. induction s as [|c s IH]; simpl; [reflexivity | now rewrite IH]. Qed.

(** The head that [os.path.split] gives is a prefix of the path. *)
Lemma split_chars_prefix p :
  exists suffix, p = fst (split_chars p) ++ suffix.
Proof.
  unfold split_chars. cbn [fst].
  set (f := fun c => negb (is_slash c)).
  set (head_r := drop_while f (rev p)).
  assert (Hp : p = rev head_r ++ rev (take_while f (rev p))).
  { rewrite <- rev_app_distr. unfold head_r. rewrite take_drop_while.
    now rewrite rev_involutive. }
  destruct (drop_while is_slash head_r) as [|c stripped] eqn:Hs.
  - now exists (rev (take_while f (rev p))).
  - exists (rev (take_while is_slash head_r) ++ rev (take_while f (rev p))).
    rewrite app_assoc, <- rev_app_distr, <- Hs, take_drop_while. exact Hp.
Qed.

Lemma split_head_shorter path :
  String.eqb (fst (split path)) path = false ->
  (String.length (fst (split path)) < String.length path)%nat.
Proof.
  unfold split. intros Hne.
  destruct (split_chars_prefix (list_ascii_of_string path)) as [suffix Hp].
  destruct (split_chars (list_ascii_of_string path)) as [h t].
  cbn [fst] in *.
  rewrite !string_length_chars, list_ascii_of_string_of_list_ascii.
  destruct suffix as [|c suffix].
  - rewrite app_nil_r in Hp. subst h.
    rewrite string_of_list_ascii_of_string, String.eqb_refl in Hne.
    discriminate.
  - apply (f_equal (@length ascii)) in Hp. rewrite length_app in Hp.
    simpl in Hp. lia.
Qed.

Lemma split_tail_slash_free path : slash_free (snd (split path)) = true.
Proof.
  unfold slash_free, split.
  pose proof (split_chars_tail_plain (list_ascii_of_string path)) as H.
  destruct (split_chars (list_ascii_of_string path)) as [h t].
  cbn [snd] in *. now rewrite list_ascii_of_string_of_list_ascii.
Qed.

Lemma splitall_loop_total fuel : forall path allparts,
  (String.length path < fuel)%nat ->
  forallb slash_free allparts = true ->
  exists first rest,
    splitall_loop fuel path allparts = Some (first :: rest)
    /\ forallb slash_free rest = true.
Proof.
  induction fuel as [|fuel IH]; intros path allparts Hlen Hacc; [lia|].
  cbn [splitall_loop].
  destruct (String.eqb (fst (split path)) path) eqn:Hh; [eauto|].
  destruct (String.eqb (snd (split path)) path) eqn:Ht; [eauto|].
  apply IH.
  - pose proof (split_head_shorter path Hh). lia.
  - cbn [forallb]. now rewrite split_tail_slash_free, Hacc.
Qed.

Lemma splitall_parts path :
  exists first rest,
    splitall path = Some (first :: rest) /\ forallb slash_free rest = true.
Proof.
  unfold splitall. apply splitall_loop_total; [lia | reflexivity].
Qed.

(** X16: the loop of [splitall] ends for every path, within as many rounds
    as the path has characters plus one, and gives at least one part; every
    part but the first is free of separators. *)
Theorem splitall_total path :
  exists first rest,
    splitall path = Some (first :: rest) /\ forallb slash_free rest = true.
Proof. apply splitall_parts. Qed.

Lemma split_slash_free name :
  slash_free name = true -> split name = ("", name).
Proof.
  unfold slash_free, split, split_chars. intros H.
  rewrite <- forallb_rev in H.
  pose proof (take_while_app _ _ [] H I) as Ht.
  pose proof (drop_while_app _ _ [] H I) as Hd.
  rewrite app_nil_r in Ht, Hd. rewrite Ht, Hd. cbn [drop_while rev].
  now rewrite rev_involutive, string_of_list_ascii_of_string.
Qed.

(** A name without a separator is its own and only part. *)
Lemma splitall_bare_name name :
  slash_free name = true -> splitall name = Some [name].
Proof.
  intros H. unfold splitall. cbn [splitall_loop].
  rewrite (split_slash_free name H). cbn [fst snd].
  destruct name as [|c name]; [reflexivity|].
  cbn [String.eqb]. now rewrite String.eqb_refl, Ascii.eqb_refl.
Qed.

(** X17: a file uploaded under a name without a directory part cannot be
    stored: once the file name is taken off the parts nothing is left to
    join, [os.path.join] is called without arguments and raises
    [TypeError]; nothing is written. *)
Theorem upload_bare_name_fails secure_filename upload_folder name content w :
  slash_free name = true ->
  upload_one secure_filename upload_folder name content w = (Raise TypeError, w).
Proof.
  intros H. unfold upload_one. now rewrite (splitall_bare_name name H).
Qed.

Lemma existsb_dot_split s :
  existsb is_dot s = true ->
  exists stem, s = stem ++ "."%char :: after_last_dot s.
Proof.
  intros Hdot. unfold after_last_dot.
  set (f := fun c => negb (is_dot c)).
  pose proof (take_drop_while f (rev s)) as Hp.
  pose proof (drop_while_head f (rev s)) as Hhead.
  destruct (drop_while f (rev s)) as [|c before_r] eqn:Hd.
  - exfalso. apply drop_while_nil in Hd. rewrite forallb_rev in Hd.
    clear -Hdot Hd. induction s as [|c s IH]; simpl in *; [discriminate|].
    apply andb_prop in Hd as [Hc Hd]. unfold f in Hc.
    destruct (is_dot c); [discriminate | auto].
  - unfold f in Hhead. apply negb_false_iff in Hhead.
    apply Ascii.eqb_eq in Hhead. subst c.
    exists (rev before_r).
    apply (f_equal (@rev ascii)) in Hp.
    rewrite rev_involutive, rev_app_distr in Hp. cbn [rev] in Hp.
    now rewrite <- app_assoc in Hp.
Qed.

Lemma after_last_dot_no_dot s :
  forallb (fun c => negb (is_dot c)) (after_last_dot s) = true.
Proof. unfold after_last_dot. rewrite forallb_rev. apply take_while_all. Qed.

Lemma after_last_dot_app stem ext :
  forallb (fun c => negb (is_dot c)) ext = true ->
  after_last_dot (stem ++ "."%char :: ext) = ext.
Proof.
  intros H. unfold after_last_dot.
  rewrite rev_app_distr. cbn [rev]. rewrite <- app_assoc. cbn [app].
  rewrite take_while_app; [apply rev_involutive | now rewrite forallb_rev |].
  reflexivity.
Qed.

(** X18: a file name is allowed exactly when it is some stem, a dot, and an
    extension without a dot that, in lower case, is in the list: only what
    follows the last dot counts, whatever its case, and a name without a
    dot is never allowed. This is the test of [allowed_file] and of
    [allowed_file_rules]. *)
Theorem allowed_in_iff allowed filename :
  allowed_in allowed filename = true
  <-> exists stem ext,
        list_ascii_of_string filename = stem ++ "."%char :: ext
        /\ forallb (fun c => negb (is_dot c)) ext = true
        /\ In (string_of_list_ascii (lower ext)) allowed.
Proof.
  unfold allowed_in. split.
  - intros H. apply andb_prop in H as [Hdot Hex].
    apply existsb_exists in Hex as (x & Hin & Heq).
    apply String.eqb_eq in Heq. subst x.
    destruct (existsb_dot_split _ Hdot) as [stem Hs].
    exists stem, (after_last_dot (list_ascii_of_string filename)).
    split; [exact Hs|]. split; [apply after_last_dot_no_dot | exact Hin].
  - intros (stem & ext & Hs & Hext & Hin). rewrite Hs.
    apply andb_true_intro. split.
    + apply existsb_exists. exists "."%char. split; [|reflexivity].
      apply in_or_app. right. now left.
    + apply existsb_exists.
      exists (string_of_list_ascii (lower ext)). split; [exact Hin|].
      rewrite (after_last_dot_app _ _ Hext). apply String.eqb_refl.
Qed.

Lemma absolute_chars s :
  absolute s = true <->
  exists rest, list_ascii_of_string s = slash :: rest.
Proof.
  unfold absolute. destruct (list_ascii_of_string s) as [|c rest].
  - split; [discriminate | intros [? ?]; discriminate].
  - split.
    + intros H. apply Ascii.eqb_eq in H. subst c. eauto.
    + intros [rest' [= -> _]]. reflexivity.
Qed.

(** The head of an absolute path is absolute. *)
Lemma split_head_absolute path :
  absolute path = true -> absolute (fst (split path)) = true.
Proof.
  intros Habs. apply absolute_chars in Habs as [rest Hp].
  unfold split.
  destruct (split_chars_prefix (list_ascii_of_string path)) as [suffix Hpre].
  assert (Hne : fst (split_chars (list_ascii_of_string path)) <> []).
  { unfold split_chars. cbn [fst]. rewrite Hp.
    set (f := fun c => negb (is_slash c)).
    assert (Hd : drop_while f (rev (slash :: rest)) <> []).
    { intros Hd. apply drop_while_nil in Hd. rewrite forallb_rev in Hd.
      discriminate Hd. }
    destruct (drop_while is_slash (drop_while f (rev (slash :: rest))));
      intros Hr; apply (f_equal (@rev ascii)) in Hr;
      rewrite rev_involutive in Hr; [contradiction | discriminate]. }
  destruct (split_chars (list_ascii_of_string path)) as [h t].
  cbn [fst] in *. apply absolute_chars.
  rewrite list_ascii_of_string_of_list_ascii.
  destruct h as [|c h]; [contradiction|].
  rewrite Hp in Hpre. injection Hpre as <- _. eauto.
Qed.

Lemma slash_free_not_absolute s : slash_free s = true -> absolute s = false.
Proof.
  unfold slash_free, absolute. destruct (list_ascii_of_string s) as [|c l];
    [reflexivity|].
  cbn [forallb]. intros H. apply andb_prop in H as [H _].
  now apply negb_true_iff in H.
Qed.

Lemma splitall_loop_absolute fuel : forall path allparts l,
  absolute path = true ->
  splitall_loop fuel path allparts = Some l ->
  exists first rest, l = first :: rest /\ absolute first = true.
Proof.
  induction fuel as [|fuel IH]; intros path allparts l Habs; [discriminate|].
  cbn [splitall_loop].
  destruct (String.eqb (fst (split path)) path) eqn:Hh.
  - intros Hl. apply String.eqb_eq in Hh. rewrite Hh in Hl.
    injection Hl as <-. eauto.
  - destruct (String.eqb (snd (split path)) path) eqn:Ht.
    + intros _. apply String.eqb_eq in Ht.
      pose proof (slash_free_not_absolute _ (split_tail_slash_free path)) as Hn.
      rewrite Ht in Hn. congruence.
    + apply IH. now apply split_head_absolute.
Qed.

Lemma join_absolute_l a b :
  absolute a = true -> absolute b = false -> absolute (join a b) = true.
Proof.
  intros Ha Hb. apply absolute_chars in Ha as [rest Ha].
  apply absolute_chars. unfold join, join_chars.
  rewrite list_ascii_of_string_of_list_ascii, Ha.
  assert (Hr : exists x xs, rev (slash :: rest) = x :: xs).
  { destruct (rev (slash :: rest)) eqn:Hr; [|eauto].
    apply (f_equal (@length ascii)) in Hr. rewrite length_rev in Hr.
    discriminate. }
  destruct Hr as (x & xs & Hr). rewrite Hr.
  unfold absolute in Hb.
  destruct (list_ascii_of_string b) as [|c l].
  - destruct (is_slash x); cbn [app]; eauto.
  - rewrite Hb. destruct (is_slash x); cbn [app]; eauto.
Qed.

Lemma join_absolute_r a b : absolute b = true -> join a b = b.
Proof.
  intros Hb. unfold join, join_chars, absolute in *.
  destruct (list_ascii_of_string b) as [|c l] eqn:Hl; [discriminate|].
  rewrite Hb, <- Hl. apply string_of_list_ascii_of_string.
Qed.

Lemma fold_join_absolute rest : forall a,
  absolute a = true -> forallb slash_free rest = true ->
  absolute (fold_left join rest a) = true.
Proof.
  induction rest as [|b rest IH]; intros a Ha Hrest; [exact Ha|].
  cbn [forallb] in Hrest. apply andb_prop in Hrest as [Hb Hrest].
  cbn [fold_left]. apply IH; [|exact Hrest].
  apply join_absolute_l; [exact Ha | now apply slash_free_not_absolute].
Qed.

Lemma forallb_removelast {A} (f : A -> bool) l x :
  forallb f (rev (x :: l)) = true -> forallb f (rev l) = true.
Proof.
  cbn [rev]. rewrite forallb_app. intros H. now apply andb_prop in H as [H _].
Qed.

(** X19: a file uploaded under an absolute name is not stored under the
    upload folder: the directory that is made and the path that is written
    come from the name alone, whatever the upload folder is. Only the last
    part of the name goes through [secure_filename]. *)
Theorem upload_absolute_name_escapes secure_filename folder1 folder2 name
    content w :
  absolute name = true ->
  upload_one secure_filename folder1 name content w
  = upload_one secure_filename folder2 name content w.
Proof.
  intros Habs. unfold upload_one.
  destruct (splitall_parts name) as (first & rest & Hs & Hrest).
  rewrite Hs.
  destruct (splitall_loop_absolute _ _ _ _ Habs Hs)
    as (first' & rest' & [= <- <-] & Hfirst).
  destruct (rev (first :: rest)) as [|filename rest_r] eqn:Hrev; [reflexivity|].
  destruct (rev rest_r) as [|a dirs] eqn:Hdirs; [reflexivity|].
  assert (Hparts : first :: rest = (a :: dirs) ++ [filename]).
  { rewrite <- Hdirs. apply (f_equal (@rev string)) in Hrev.
    now rewrite rev_involutive in Hrev. }
  injection Hparts as -> Hrest_eq.
  assert (Hdirs_free : forallb slash_free dirs = true).
  { rewrite Hrest_eq, forallb_app in Hrest. now apply andb_prop in Hrest as [H _]. }
  cbn [join_all]. unfold bind at 1, lift at 1.
  unfold bind at 3, lift at 1.
  rewrite !(join_absolute_r _ _ (fold_join_absolute dirs a Hfirst Hdirs_free)).
  reflexivity.
Qed.

Lemma upload_bare_name_fails_witness :
  upload_one (fun s => s) "uploads" "rest.vhdr" (VStr "eeg") Bench.disk
  = (Raise TypeError, Bench.disk).
Proof.
  apply (upload_bare_name_fails (fun s => s) "uploads" "rest.vhdr" (VStr "eeg")
           Bench.disk).
  reflexivity.
Defined.

Lemma upload_absolute_name_escapes_witness :
  upload_one (fun s => s) "uploads" "/tmp/rest.vhdr" (VStr "eeg") Bench.disk
  = upload_one (fun s => s) "elsewhere" "/tmp/rest.vhdr" (VStr "eeg")
      Bench.disk.
Proof.
  apply (upload_absolute_name_escapes (fun s => s) "uploads" "elsewhere"
           "/tmp/rest.vhdr" (VStr "eeg") Bench.disk).
  reflexivity.
Defined.

(** The file of the witness lands at [/tmp/rest.vhdr], and a name with a
    directory part under the upload folder. *)
Example upload_absolute_name_lands_outside :
  files (snd (upload_one (fun s => s) "uploads" "/tmp/rest.vhdr" (VStr "eeg")
                Bench.disk)) !! "/tmp/rest.vhdr"
  = Some (VStr "eeg")
  /\ files (snd (upload_one (fun s => s) "uploads" "study/sub-01/rest.vhdr"
                   (VStr "eeg") Bench.disk))
       !! "uploads/study/sub-01/rest.vhdr"
     = Some (VStr "eeg").
Proof. split; vm_compute; reflexivity. Qed.

End AppExtras.
